(** * SSDLC automation tool: project / task / phase state model and report statistics

    A shallow embedding of
    - [models/Project.js] (class [Project]; the same class is inlined in the
      serverless [projects] function),
    - [models/Task.js] (class [Task]),
    - the task-update and evidence-upload handlers of [server.js] (and the
      task-update branch of the serverless [projects] function),
    - the statistics part of the report handler ([server.js] and
      [netlify/functions/reports.js]),
    followed by the properties of the specification that concern them.

    Conventions of the embedding.
    - A JS object used as a dictionary whose iteration order is irrelevant
      ([project.phases], only read through [Object.values(..).every]) is a
      [gmap string _] of its own properties; a dictionary that is walked with
      [for (const phase in ...)] is an association list in iteration order.
    - [null] is [None]; an absent / [undefined] argument or body field is
      [None] of an [option].
    - [new Date().toISOString()] and [uuidv4()] are read from the environment:
      every operation that calls them takes the value it reads as an
      argument.
    - A [throw] is the [Thrown] outcome; a handler's HTTP status is a
      constructor of its response type.
    - JS numbers are IEEE-754 binary64: the one place where a quotient is
      taken (the percentages of the report) uses the primitive floats. *)

From Stdlib Require Import ZArith Floats Uint63.
From stdpp Require Import gmap strings list fin_maps.

Local Open Scope string_scope.
Local Open Scope list_scope.

(* ===================================================================== *)
(** * JavaScript object model used by the code *)
(* ===================================================================== *)

Module JS.

(** The property names every plain object inherits from
    [Object.prototype].  All of them hold a function, except [__proto__]
    whose getter returns [Object.prototype] itself: every one is truthy. *)
Definition Object_prototype_keys : list string :=
  [ "constructor"; "__defineGetter__"; "__defineSetter__"; "hasOwnProperty";
    "__lookupGetter__"; "__lookupSetter__"; "isPrototypeOf";
    "propertyIsEnumerable"; "toString"; "valueOf"; "__proto__";
    "toLocaleString" ].

(** Result of the property read [obj[key]] on a plain object whose own
    properties are the map [own]. *)
Inductive property (A : Type) : Type :=
| Own (a : A)        (* an own property *)
| Inherited          (* found on Object.prototype: a truthy object *)
| Undefined.         (* [undefined] *)
Arguments Own {A} a.
Arguments Inherited {A}.
Arguments Undefined {A}.

Definition get {A : Type} (own : gmap string A) (key : string) : property A :=
  match own !! key with
  | Some a => Own a
  | None =>
      if bool_decide (key ∈ Object_prototype_keys) then Inherited else Undefined
  end.

(** Outcome of a method call that may throw [new Error(msg)]. *)
Inductive outcome (A : Type) : Type :=
| Returned (a : A)
| Thrown (msg : string).
Arguments Returned {A} a.
Arguments Thrown {A} msg.

(** [s || ''] on a string [s]: the empty string is the only falsy string. *)
Definition or_empty (s : string) : string :=
  if bool_decide (s = EmptyString) then EmptyString else s.

End JS.

(* ===================================================================== *)
(** * JavaScript strings and values used by the validation code *)
(* ===================================================================== *)

Module JSString.

(** A JS string is held as its UTF-8 bytes.  [s.trim().length === 0]
    holds when [s] is made of white space and line terminators only:
    TAB, LF, VT, FF, CR, SP, U+00A0, U+1680, U+2000..U+200A, U+2028,
    U+2029, U+202F, U+205F, U+3000 and U+FEFF. *)
Definition one_byte_space (n : N) : bool :=
  ((9 <=? n) && (n <=? 13) || (n =? 32))%N.

(** U+00A0 is C2 A0. *)
Definition two_byte_space (n1 n2 : N) : bool :=
  ((n1 =? 194) && (n2 =? 160))%N.

(** U+1680 is E1 9A 80; U+2000..U+200A are E2 80 80..8A; U+2028, U+2029
    and U+202F are E2 80 A8, A9, AF; U+205F is E2 81 9F; U+3000 is
    E3 80 80; U+FEFF is EF BB BF. *)
Definition three_byte_space (n1 n2 n3 : N) : bool :=
  ((n1 =? 225) && (n2 =? 154) && (n3 =? 128)
   || (n1 =? 226) && (n2 =? 128) &&
      ((128 <=? n3) && (n3 <=? 138) || (n3 =? 168) || (n3 =? 169) || (n3 =? 175))
   || (n1 =? 226) && (n2 =? 129) && (n3 =? 159)
   || (n1 =? 227) && (n2 =? 128) && (n3 =? 128)
   || (n1 =? 239) && (n2 =? 187) && (n3 =? 191))%N.

(** [s.trim().length === 0]. *)
Fixpoint blank (s : string) : bool :=
  match s with
  | EmptyString => true
  | String c1 s1 =>
      if one_byte_space (Ascii.N_of_ascii c1) then blank s1
      else
        match s1 with
        | EmptyString => false
        | String c2 s2 =>
            if two_byte_space (Ascii.N_of_ascii c1) (Ascii.N_of_ascii c2) then blank s2
            else
              match s2 with
              | EmptyString => false
              | String c3 s3 =>
                  if three_byte_space (Ascii.N_of_ascii c1) (Ascii.N_of_ascii c2)
                       (Ascii.N_of_ascii c3)
                  then blank s3
                  else false
              end
        end
  end.

(** The encodings of the white space and line terminator characters. *)
Definition spaces : list string :=
  map (λ bytes, String.string_of_list_ascii (map Ascii.ascii_of_N bytes))
    ([ [9]; [10]; [11]; [12]; [13]; [32]; [194; 160]; [225; 154; 128] ]
     ++ map (λ n, [226; 128; n]) [128; 129; 130; 131; 132; 133; 134; 135;
                                  136; 137; 138; 168; 169; 175]
     ++ [ [226; 129; 159]; [227; 128; 128]; [239; 187; 191] ])%N.

(** A byte that encodes a visible ASCII character, '!' to '~'. *)
Definition visible (c : Ascii.ascii) : Prop :=
  (33 <= Ascii.N_of_ascii c <= 126)%N.

(** [s.includes(pat)] on strings. *)
Fixpoint includes (s pat : string) : bool :=
  if String.prefix pat s then true
  else match s with
       | EmptyString => false
       | String _ s' => includes s' pat
       end.

(** A value received where a string is expected: a string, or a value of
    another type (undefined, null, a number, a boolean, an object). *)
Inductive value : Type :=
| Str (s : string)
| NotAString.

End JSString.

(* ===================================================================== *)
(** * models/Task.js *)
(* ===================================================================== *)

Module Task.

Record t : Type := mk {
  id : string;
  phase : string;
  title : string;
  description : string;
  completed : bool;
  completedDate : option string;
  notes : string;
  evidenceFiles : list string
}.

(** [constructor(phase, title, description)]; [uuid] is [uuidv4()]. *)
Definition constructor (uuid phase title description : string) : t :=
  {| id := uuid; phase := phase; title := title; description := description;
     completed := false; completedDate := None; notes := EmptyString;
     evidenceFiles := [] |}.

(** [complete(notes = '')]: the default applies when the argument is
    absent or [undefined] ([None]). *)
Definition complete (now : string) (notes_arg : option string) (task : t) : t :=
  let notes := match notes_arg with Some n => n | None => EmptyString end in
  {| id := id task; phase := phase task; title := title task;
     description := description task;
     completed := true;
     completedDate := Some now;
     notes := notes;
     evidenceFiles := evidenceFiles task |}.

(** [this.evidenceFiles.includes(filename)]. *)
Definition includes (files : list string) (filename : string) : bool :=
  existsb (String.eqb filename) files.

(** [push] on the evidence array. *)
Definition push_evidence (filename : string) (task : t) : t :=
  {| id := id task; phase := phase task; title := title task;
     description := description task;
     completed := completed task; completedDate := completedDate task;
     notes := notes task;
     evidenceFiles := evidenceFiles task ++ [filename] |}.

Definition addEvidence (filename : string) (task : t) : t :=
  if negb (includes (evidenceFiles task) filename)
  then push_evidence filename task
  else task.

(** One row of the table returned by [getDefaultTasks]: the two tasks of a
    phase, with the two ids drawn for them. *)
Definition default_pair (ph : string) (u1 t1 d1 u2 t2 d2 : string)
  : string * list t :=
  (ph, [constructor u1 ph t1 d1; constructor u2 ph t2 d2]).

(** [static getDefaultTasks()]; [uuids] are the ten ids drawn by the ten
    constructor calls, in order (missing ones read as the empty string). *)
Definition getDefaultTasks (uuids : list string) : list (string * list t) :=
  let u (i : nat) := nth i uuids EmptyString in
  [ default_pair "planning"
      (u 0) "Threat Modeling"
      "Conduct threat modeling exercise to identify potential security risks"
      (u 1) "Security Requirements Gathering"
      "Define security requirements and acceptance criteria";
    default_pair "design"
      (u 2) "Security Architecture Review"
      "Review system architecture for security considerations"
      (u 3) "Data Flow Analysis"
      "Analyze data flows and identify sensitive data handling";
    default_pair "implementation"
      (u 4) "Secure Coding Review"
      "Review code for secure coding practices"
      (u 5) "Dependency Scanning"
      "Scan dependencies for known vulnerabilities";
    default_pair "testing"
      (u 6) "Security Testing"
      "Perform security-focused testing scenarios"
      (u 7) "Penetration Testing"
      "Conduct penetration testing on the application";
    default_pair "deployment"
      (u 8) "Security Configuration Review"
      "Review deployment configuration for security"
      (u 9) "Access Control Setup"
      "Configure proper access controls and permissions" ].

End Task.

(* ===================================================================== *)
(** * models/Project.js *)
(* ===================================================================== *)

Module PhaseStatus.

Record t : Type := mk {
  completed : bool;
  completedDate : option string
}.

End PhaseStatus.

Module Project.

Record t : Type := mk {
  id : string;
  name : string;
  createdDate : string;
  phases : gmap string PhaseStatus.t;
  overallStatus : string
}.

(** The five keys of the object literal in the constructor. *)
Definition PHASES : list string :=
  ["planning"; "design"; "implementation"; "testing"; "deployment"].

Definition fresh_phase : PhaseStatus.t :=
  {| PhaseStatus.completed := false; PhaseStatus.completedDate := None |}.

(** [constructor(name)]; [uuid] is [uuidv4()], [now] the creation stamp. *)
Definition constructor (uuid now name : string) : t :=
  {| id := uuid;
     name := name;
     createdDate := now;
     phases :=
       <["planning" := fresh_phase]>
       (<["design" := fresh_phase]>
       (<["implementation" := fresh_phase]>
       (<["testing" := fresh_phase]>
       (<["deployment" := fresh_phase]> ∅))));
     overallStatus := "In Progress" |}.

(** [Object.values(this.phases).every(p => p.completed)]. *)
Definition allPhasesCompleted (ph : gmap string PhaseStatus.t) : bool :=
  forallb (λ kv, PhaseStatus.completed kv.2) (map_to_list ph).

(** The last two statements of [updatePhaseStatus]. *)
Definition recompute (p : t) (ph : gmap string PhaseStatus.t) : t :=
  {| id := id p; name := name p; createdDate := createdDate p;
     phases := ph;
     overallStatus :=
       if allPhasesCompleted ph then "Completed" else "In Progress" |}.

(** [updatePhaseStatus(phase, completed)].

    The guard is [!this.phases[phase]]: it throws when the property read
    yields [undefined].  For an own key the two assignments replace the
    fields of the stored [PhaseStatus].  For a name found on
    [Object.prototype] the read is truthy, nothing is thrown, and the two
    assignments land on the inherited object, so the project's own
    phases stay as they are; the overall status is recomputed in both
    cases. *)
Definition updatePhaseStatus (now : string) (phase : string) (completed : bool)
    (p : t) : JS.outcome t :=
  match JS.get (phases p) phase with
  | JS.Undefined => JS.Thrown (String.append "Invalid phase: " phase)
  | JS.Own _ =>
      let st := {| PhaseStatus.completed := completed;
                   PhaseStatus.completedDate :=
                     if completed then Some now else None |} in
      JS.Returned (recompute p (<[phase := st]> (phases p)))
  | JS.Inherited => JS.Returned (recompute p (phases p))
  end.

(** A caller that catches the exception keeps the object it had. *)
Definition after (p : t) (o : JS.outcome t) : t :=
  match o with
  | JS.Returned p' => p'
  | JS.Thrown _ => p
  end.

(** One call [updatePhaseStatus(phase, completed)] made at time [now]. *)
Record call : Type := mkCall {
  call_now : string;
  call_phase : string;
  call_completed : bool
}.

Definition step (p : t) (c : call) : t :=
  after p (updatePhaseStatus (call_now c) (call_phase c) (call_completed c) p).

(** The object after a sequence of calls, oldest first. *)
Definition run (p : t) (cs : list call) : t := fold_left step cs p.

(** [static validate(projectData)], on [projectData.name].  A value that is
    not a string fails one of the first two tests whatever it is; the
    empty string is falsy. *)
Definition validate (name : JSString.value) : JS.outcome bool :=
  match name with
  | JSString.Str s =>
      if bool_decide (s = EmptyString) || JSString.blank s
      then JS.Thrown "Project name is required and must be a non-empty string"
      else JS.Returned true
  | JSString.NotAString =>
      JS.Thrown "Project name is required and must be a non-empty string"
  end.

End Project.

(* ===================================================================== *)
(** * server.js: task update and evidence upload *)
(* ===================================================================== *)

Module Server.

(** The task dictionary of a project, [phase -> array of tasks], in the
    order [for (const phase in allTasks)] visits its keys.  The keys of
    a JS object are distinct. *)
Abbreviation tasks := (list (string * list Task.t)).

(** The two optional fields read from the request body,
    [const { completed, notes } = req.body], after the type checks of
    the handler. *)
Record body : Type := mkBody {
  completed : option bool;
  notes : option string
}.

(** Lines 234-242: the in-place update of the task that was found. *)
Definition update_task (now : string) (b : body) (task : Task.t) : Task.t :=
  let task1 :=
    match completed b with
    | Some c =>
        {| Task.id := Task.id task; Task.phase := Task.phase task;
           Task.title := Task.title task;
           Task.description := Task.description task;
           Task.completed := c;
           Task.completedDate := if c then Some now else None;
           Task.notes := Task.notes task;
           Task.evidenceFiles := Task.evidenceFiles task |}
    | None => task
    end in
  match notes b with
  | Some n =>
      {| Task.id := Task.id task1; Task.phase := Task.phase task1;
         Task.title := Task.title task1;
         Task.description := Task.description task1;
         Task.completed := Task.completed task1;
         Task.completedDate := Task.completedDate task1;
         Task.notes := JS.or_empty n;
         Task.evidenceFiles := Task.evidenceFiles task1 |}
  | None => task1
  end.

(** [phaseTasks.findIndex(task => task.id === taskId)], with the element
    found; [None] stands for [-1]. *)
Definition findIndex (taskId : string) (phaseTasks : list Task.t)
  : option (nat * Task.t) :=
  list_find (λ task, Task.id task = taskId) phaseTasks.

(** [allTasks[phase].every(t => t.completed)]. *)
Definition every_completed (phaseTasks : list Task.t) : bool :=
  forallb Task.completed phaseTasks.

(** What the PUT handler answers once the project has been loaded. *)
Inductive response : Type :=
| Ok200 (task : Task.t) (project : Project.t) (allTasks : tasks)
    (* the answer, with the project and the task dictionary that were saved *)
| NotFound404
    (* 'Task not found' *)
| Error500 (msg : string).
    (* the exception reached the [catch]: nothing is saved *)

(** The [for (const phase in allTasks)] loop of the PUT handler.  [seen]
    holds the entries already visited without a match; [nowT] is the
    stamp read for the task, [nowP] the one read inside
    [updatePhaseStatus]. *)
Fixpoint update_loop (nowT nowP : string) (taskId : string) (b : body)
    (project : Project.t) (seen rest : tasks) : response :=
  match rest with
  | [] => NotFound404
  | (phase, phaseTasks) :: rest' =>
      match findIndex taskId phaseTasks with
      | Some (i, task) =>
          let task' := update_task nowT b task in
          let phaseTasks' := <[i := task']> phaseTasks in
          let allPhaseTasksCompleted := every_completed phaseTasks' in
          match Project.updatePhaseStatus nowP phase allPhaseTasksCompleted
                  project with
          | JS.Returned project' =>
              Ok200 task' project' (seen ++ (phase, phaseTasks') :: rest')
          | JS.Thrown msg => Error500 "Failed to update task"
          end
      | None =>
          update_loop nowT nowP taskId b project
            (seen ++ [(phase, phaseTasks)]) rest'
      end
  end.

(** [app.put('/api/projects/:id/tasks/:taskId')] after validation and
    after the project and its tasks have been read from storage.
    [project] is [Object.assign(new Project(), projectData)], which is the
    stored record: every field of the fresh instance is overwritten.  The
    two writes to storage that follow the loop, and the answer when one
    of them fails, are in [Api.put_task]. *)
Definition put_task (nowT nowP : string) (taskId : string) (b : body)
    (project : Project.t) (allTasks : tasks) : response :=
  update_loop nowT nowP taskId b project [] allTasks.

(** What storage holds after the request when its writes succeed: the
    handler saves the tasks and the project only on the 200 path. *)
Definition saved (r : response) (before : Project.t * tasks)
  : Project.t * tasks :=
  match r with
  | Ok200 _ project allTasks => (project, allTasks)
  | NotFound404 => before
  | Error500 _ => before
  end.

(** The entry the loop stops at: the first phase, in iteration order,
    one of whose tasks has the id, with the tasks of that phase, the
    index and the task. *)
Fixpoint locate (taskId : string) (allTasks : tasks)
  : option (string * list Task.t * nat * Task.t) :=
  match allTasks with
  | [] => None
  | (phase, phaseTasks) :: rest =>
      match findIndex taskId phaseTasks with
      | Some (i, task) => Some (phase, phaseTasks, i, task)
      | None => locate taskId rest
      end
  end.

(** Lines 307-315 of the evidence handler: every uploaded file's relative
    path is pushed unless the task already lists it, the test and the push
    of [addEvidence] written inline. *)
Definition add_uploaded (paths : list string) (task : Task.t) : Task.t :=
  fold_left (λ t p, Task.addEvidence p t) paths task.

End Server.

(* ===================================================================== *)
(** * Report statistics (server.js and netlify/functions/reports.js) *)
(* ===================================================================== *)

Module Report.

(** An array length as a JS number (exact: lengths are below 2^32). *)
Definition number_of_nat (n : nat) : float :=
  PrimFloat.of_uint63 (Uint63.of_Z (Z.of_nat n)).

(** [Math.round]: the nearest integer, ties towards +infinity, computed
    exactly from the binary64 value [(-1)^s * m * 2^e].  NaN and the
    infinities, which [Math.round] returns unchanged, are [None]. *)
Definition Math_round (x : float) : option Z :=
  match Prim2SF x with
  | S754_zero _ => Some 0%Z
  | S754_finite s m e =>
      let mz := if s then Zneg m else Zpos m in
      Some match e with
           | Zneg k => ((2 * mz + 2 ^ Zpos k) / 2 ^ (Zpos k + 1))%Z
           | _ => (mz * 2 ^ e)%Z
           end
  | S754_infinity _ => None
  | S754_nan => None
  end.

(** [total > 0 ? Math.round((done / total) * 100) : 0]. *)
Definition percent (done total : nat) : option Z :=
  if (0 <? total)%nat
  then Math_round
         (PrimFloat.mul
            (PrimFloat.div (number_of_nat done) (number_of_nat total))
            (number_of_nat 100))
  else Some 0%Z.

Record phaseStat : Type := mkStat {
  total : nat;
  completed : nat;
  percentage : option Z
}.

(** [phaseTasks.filter(task => task.completed).length]. *)
Definition phaseCompleted (phaseTasks : list Task.t) : nat :=
  length (List.filter Task.completed phaseTasks).

Definition stat_of (phaseTasks : list Task.t) : phaseStat :=
  {| total := length phaseTasks;
     completed := phaseCompleted phaseTasks;
     percentage := percent (phaseCompleted phaseTasks) (length phaseTasks) |}.

(** The object [phaseStats], created by [{}]: its own properties in
    insertion order and, once an assignment to '__proto__' has run the
    setter inherited from [Object.prototype], the record that became its
    prototype. *)
Record statsObject : Type := mkStatsObject {
  own : list (string * phaseStat);
  proto : option phaseStat
}.

(** [phaseStats[phase] = stat].  An own property is written where it
    stands and a new one is added at the end; for '__proto__' the object
    has no own property of that name, the inherited setter runs, no
    property is created and [stat] becomes the prototype of the object
    (its fields [total], [completed] and [percentage] are then inherited,
    enumerable properties of [phaseStats]). *)
Definition assign (phase : string) (stat : phaseStat) (o : statsObject)
  : statsObject :=
  if bool_decide (phase = "__proto__")
  then {| own := own o; proto := Some stat |}
  else
    {| own :=
         match list_find (λ e, e.1 = phase) (own o) with
         | Some (i, _) => <[i := (phase, stat)]> (own o)
         | None => own o ++ [(phase, stat)]
         end;
       proto := proto o |}.

(** A record the loop stored in [phaseStats], as a property or as the
    prototype. *)
Definition recorded (o : statsObject) (stat : phaseStat) : Prop :=
  (∃ phase, (phase, stat) ∈ own o) ∨ proto o = Some stat.

(** The state of the statistics loop: [totalTasks], [completedTasks] and
    [phaseStats]. *)
Record acc : Type := mkAcc {
  totalTasks : nat;
  completedTasks : nat;
  phaseStats : statsObject
}.

(** One iteration of [for (const phase in tasks)]. *)
Definition stats_step (a : acc) (entry : string * list Task.t) : acc :=
  let '(phase, phaseTasks) := entry in
  {| totalTasks := totalTasks a + length phaseTasks;
     completedTasks := completedTasks a + phaseCompleted phaseTasks;
     phaseStats := assign phase (stat_of phaseTasks) (phaseStats a) |}.

Definition stats_loop (allTasks : Server.tasks) : acc :=
  fold_left stats_step allTasks
    {| totalTasks := 0; completedTasks := 0;
       phaseStats := {| own := []; proto := None |} |}.

(** [overallSecurityScore]. *)
Definition overallSecurityScore (allTasks : Server.tasks) : option Z :=
  let a := stats_loop allTasks in
  percent (completedTasks a) (totalTasks a).

(** The rounding the specification words: [done / total * 100] as an
    exact rational, rounded to the nearest integer, halves up; 0 when
    [total] is 0. *)
Definition spec_round_half_up (done total : nat) : Z :=
  if (0 <? total)%nat
  then ((2 * 100 * Z.of_nat done + Z.of_nat total) / (2 * Z.of_nat total))%Z
  else 0%Z.

(** [n] tasks of phase [ph] of which the first [k] are completed. *)
Definition sample_tasks (ph : string) (k n : nat) : list Task.t :=
  map (λ i,
         {| Task.id := "task"; Task.phase := ph;
            Task.title := "Threat Modeling"; Task.description := "sample";
            Task.completed := bool_decide (i < k);
            Task.completedDate :=
              if bool_decide (i < k) then Some "2024-01-01T00:00:00.000Z"
              else None;
            Task.notes := EmptyString;
            Task.evidenceFiles := [] |})
      (seq 0 n).

(** The comparison of the code's percentage with the specification's
    rounding for every [done <= total < n]. *)
Definition agree_below (n : nat) : bool :=
  forallb
    (λ total,
       forallb
         (λ done,
            bool_decide (percent done total =
                         Some (spec_round_half_up done total)))
         (seq 0 (S total)))
    (seq 0 n).

End Report.

(* ===================================================================== *)
(** * Vocabulary of the properties *)
(* ===================================================================== *)

Module Props.

(** [project.phases[k].completed], read as [false] when the phase is
    missing. *)
Definition phase_completed (p : Project.t) (k : string) : bool :=
  match Project.phases p !! k with
  | Some st => PhaseStatus.completed st
  | None => false
  end.

(** The phases of the project are exactly the five of the constructor. *)
Definition five_phases (p : Project.t) : Prop :=
  ∀ k, is_Some (Project.phases p !! k) ↔ k ∈ Project.PHASES.

(** The same project with another stored overall status. *)
Definition with_overallStatus (s : string) (p : Project.t) : Project.t :=
  {| Project.id := Project.id p; Project.name := Project.name p;
     Project.createdDate := Project.createdDate p;
     Project.phases := Project.phases p;
     Project.overallStatus := s |}.

(** The date of a phase status is there exactly when the flag is set. *)
Definition date_iff_completed (st : PhaseStatus.t) : Prop :=
  is_Some (PhaseStatus.completedDate st) ↔ PhaseStatus.completed st = true.

(** Every phase status of the project has its date exactly when its flag
    is set. *)
Definition dates_consistent (p : Project.t) : Prop :=
  ∀ k st, Project.phases p !! k = Some st → date_iff_completed st.

(** The stored flag of every phase that has tasks is the outcome of
    [every] over them; the keys of the task dictionary are distinct. *)
Definition flags_agree (p : Project.t) (all : Server.tasks) : Prop :=
  NoDup all.*1 ∧
  ∀ ph l, (ph, l) ∈ all → l ≠ [] → is_Some (Project.phases p !! ph) →
          phase_completed p ph = Server.every_completed l.

(** A project built by the test fixtures of the repository. *)
Definition acme : Project.t :=
  Project.constructor "p-1" "2024-01-01T00:00:00.000Z" "Acme".

(** The ten default tasks with ids t0 .. t9. *)
Definition acme_tasks : Server.tasks :=
  Task.getDefaultTasks
    ["t0"; "t1"; "t2"; "t3"; "t4"; "t5"; "t6"; "t7"; "t8"; "t9"].

(** 'Acme' after its two planning tasks were completed, one request
    after the other. *)
Definition planning_done : Project.t * Server.tasks :=
  let b := {| Server.completed := Some true; Server.notes := None |} in
  let s1 :=
    Server.saved
      (Server.put_task "2024-01-02T10:00:00.000Z" "2024-01-02T10:00:00.001Z"
         "t0" b acme acme_tasks)
      (acme, acme_tasks) in
  Server.saved
    (Server.put_task "2024-01-03T10:00:00.000Z" "2024-01-03T10:00:00.001Z"
       "t1" b s1.1 s1.2)
    s1.

(** 'Acme' after four calls of [updatePhaseStatus] marked design,
    implementation, testing and deployment complete. *)
Definition four_phases_marked : Project.t :=
  Project.run acme
    (map (λ ph, Project.mkCall "2024-02-01T00:00:00.000Z" ph true)
       ["design"; "implementation"; "testing"; "deployment"]).

(** A stored task dictionary in which planning has one task and the four
    other phases have an empty list. *)
Definition planning_only : Server.tasks :=
  [ ("planning",
     [Task.constructor "t0" "planning" "Threat Modeling"
        "Conduct threat modeling exercise to identify potential security risks"]);
    ("design", []); ("implementation", []); ("testing", []);
    ("deployment", []) ].

(** Ten tasks, two per phase, the first of each phase completed. *)
Definition half_done_tasks : Server.tasks :=
  map (λ ph, (ph, Report.sample_tasks ph 1 2)) Project.PHASES.

(** The five calls that complete the phases one after the other. *)
Definition complete_all : list Project.call :=
  map (λ ph, Project.mkCall "2024-02-01T00:00:00.000Z" ph true)
      Project.PHASES.

End Props.

(* ===================================================================== *)
(** * utils/storage.js *)
(* ===================================================================== *)

Module Storage.

(** A JSON file of the data directory, as the reading functions see it. *)
Inductive file (A : Type) : Type :=
| Missing            (* [fs.existsSync] is false *)
| Unreadable         (* [fs.readFileSync] or [JSON.parse] throws *)
| Content (a : A).   (* the parsed content *)
Arguments Missing {A}.
Arguments Unreadable {A}.
Arguments Content {A} a.

(** What [fs.writeFileSync] does when it is called. *)
Inductive write (A : Type) : Type :=
| Written                 (* it returns: the file holds the new content *)
| Failed (remains : file A). (* it throws, leaving the file as [remains] *)
Arguments Written {A}.
Arguments Failed {A} remains.

(** [projects.json] is an array of projects, [tasks.json] an object from
    project ids to task dictionaries.  [JSON.stringify] followed by
    [JSON.parse] gives back the same fields with the same values. *)
Record disk : Type := mkDisk {
  projects_json : file (list Project.t);
  tasks_json : file (gmap string (list (string * list Task.t)))
}.

Definition readProjects (d : disk) : list Project.t :=
  match projects_json d with
  | Content projects => projects
  | Missing => []
  | Unreadable => []
  end.

Definition writeProjects (w : write (list Project.t))
    (projects : list Project.t) (d : disk) : bool * disk :=
  match w with
  | Written =>
      (true, {| projects_json := Content projects; tasks_json := tasks_json d |})
  | Failed remains =>
      (false, {| projects_json := remains; tasks_json := tasks_json d |})
  end.

Definition readTasks (d : disk) : gmap string (list (string * list Task.t)) :=
  match tasks_json d with
  | Content tasks => tasks
  | Missing => ∅
  | Unreadable => ∅
  end.

Definition writeTasks (w : write (gmap string (list (string * list Task.t))))
    (tasks : gmap string (list (string * list Task.t))) (d : disk)
  : bool * disk :=
  match w with
  | Written =>
      (true, {| projects_json := projects_json d; tasks_json := Content tasks |})
  | Failed remains =>
      (false, {| projects_json := projects_json d; tasks_json := remains |})
  end.

(** [list[existingIndex] = x] where the first element satisfying [P]
    stands, [list.push(x)] when there is none. *)
Definition put_at {A : Type} (P : A → Prop) `{!∀ x, Decision (P x)}
    (l : list A) (x : A) : list A :=
  match list_find P l with
  | Some (existingIndex, _) => <[existingIndex := x]> l
  | None => l ++ [x]
  end.

(** [projects.find(project => project.id === projectId)]. *)
Definition getProjectById (projectId : string) (d : disk) : option Project.t :=
  snd <$> list_find (λ project, Project.id project = projectId) (readProjects d).

(** [saveProject]: the first project with the same id is replaced where it
    stands, otherwise the project goes to the end. *)
Definition saveProject (w : write (list Project.t)) (project : Project.t)
    (d : disk) : bool * disk :=
  let projects := readProjects d in
  let projects' :=
    match list_find (λ p, Project.id p = Project.id project) projects with
    | Some (existingIndex, _) => <[existingIndex := project]> projects
    | None => projects ++ [project]
    end in
  writeProjects w projects' d.

(** [allTasks[projectId] || {}].  A stored dictionary is an object, hence
    truthy.  For a name inherited from [Object.prototype] the read gives
    the inherited function or object, which has no enumerable property of
    its own as long as nothing was stored on it: the [for .. in] loops of
    the callers see an empty dictionary. *)
Definition getTasksForProject (projectId : string) (d : disk)
  : list (string * list Task.t) :=
  match JS.get (readTasks d) projectId with
  | JS.Own tasks => tasks
  | JS.Inherited => []
  | JS.Undefined => []
  end.

(** [allTasks[projectId] = tasks] on the parsed object: the assignment to
    '__proto__' goes to the inherited setter and creates no property,
    unless the parsed file had that key. *)
Definition assign (projectId : string) (tasks : list (string * list Task.t))
    (allTasks : gmap string (list (string * list Task.t)))
  : gmap string (list (string * list Task.t)) :=
  if bool_decide (projectId = "__proto__") && bool_decide (allTasks !! projectId = None)
  then allTasks
  else <[projectId := tasks]> allTasks.

Definition saveTasksForProject
    (w : write (gmap string (list (string * list Task.t))))
    (projectId : string) (tasks : list (string * list Task.t)) (d : disk)
  : bool * disk :=
  writeTasks w (assign projectId tasks (readTasks d)) d.

End Storage.

(* ===================================================================== *)
(** * server.js: evidence upload and download *)
(* ===================================================================== *)

Module Evidence.

(** The loop of the upload handler (lines 300-320): the first phase, in
    iteration order, that holds the task; [paths] are the relative paths
    [path.join(projectId, taskId, file.filename)] of the uploaded files, in
    order.  [None] is 'Task not found'. *)
Fixpoint upload_loop (taskId : string) (paths : list string)
    (seen rest : list (string * list Task.t))
  : option (Task.t * list (string * list Task.t)) :=
  match rest with
  | [] => None
  | (phase, phaseTasks) :: rest' =>
      match Server.findIndex taskId phaseTasks with
      | Some (i, task) =>
          let task' := Server.add_uploaded paths task in
          Some (task', seen ++ (phase, <[i := task']> phaseTasks) :: rest')
      | None =>
          upload_loop taskId paths (seen ++ [(phase, phaseTasks)]) rest'
      end
  end.

(** [allTasks[phase].find(t => t.id === taskId)]. *)
Definition find (taskId : string) (phaseTasks : list Task.t) : option Task.t :=
  snd <$> list_find (λ t, Task.id t = taskId) phaseTasks.

(** The loop of the download handler (lines 395-403): [None] when no phase
    holds the task, otherwise [fileAuthorized]. *)
Fixpoint authorize_loop (taskId relativePath : string)
    (rest : list (string * list Task.t)) : option bool :=
  match rest with
  | [] => None
  | (phase, phaseTasks) :: rest' =>
      match find taskId phaseTasks with
      | Some task => Some (Task.includes (Task.evidenceFiles task) relativePath)
      | None => authorize_loop taskId relativePath rest'
      end
  end.

End Evidence.

(* ===================================================================== *)
(** * server.js: the handlers on top of the storage *)
(* ===================================================================== *)

Module Api.

Inductive reply : Type :=
| Created201 (project : Project.t)
| TaskUpdated200 (task : Task.t) (phases : gmap string PhaseStatus.t)
    (overallStatus : string)
| EvidenceUploaded200 (task : Task.t)
| FileSent200 (relativePath : string)
| BadRequest400 (error : string)
| Forbidden403 (error : string)
| NotFound404 (error : string)
| ServerError500 (error : string).

(** [app.post('/api/projects')] for a body that is an object; [name] is
    [req.body.name].  [uuid] and [now] are read by the [Project]
    constructor, [uuids] by the ten [Task] constructors.  The [catch]
    answers 400 when the message of the error includes 'required'. *)
Definition post_project (wP : Storage.write (list Project.t))
    (wT : Storage.write (gmap string (list (string * list Task.t))))
    (uuid now : string) (uuids : list string) (name : JSString.value)
    (d : Storage.disk) : reply * Storage.disk :=
  match Project.validate name, name with
  | JS.Returned _, JSString.Str s =>
      let project := Project.constructor uuid now s in
      let '(saved, d1) := Storage.saveProject wP project d in
      if negb saved then (ServerError500 "Failed to save project", d1)
      else
        let defaultTasks := Task.getDefaultTasks uuids in
        let '(savedTasks, d2) :=
          Storage.saveTasksForProject wT (Project.id project) defaultTasks d1 in
        (Created201 project, d2)
  | JS.Thrown message, _ =>
      if JSString.includes message "required"
      then (BadRequest400 message, d)
      else (ServerError500 "Failed to create project", d)
  | JS.Returned _, JSString.NotAString =>
      (ServerError500 "Failed to create project", d)
  end.

(** [app.put('/api/projects/:id/tasks/:taskId')] from the lookup of the
    project on (line 211), for a body that passed the type checks. *)
Definition put_task
    (wT : Storage.write (gmap string (list (string * list Task.t))))
    (wP : Storage.write (list Project.t))
    (nowT nowP projectId taskId : string) (b : Server.body)
    (d : Storage.disk) : reply * Storage.disk :=
  match Storage.getProjectById projectId d with
  | None => (NotFound404 "Project not found", d)
  | Some projectData =>
      let allTasks := Storage.getTasksForProject projectId d in
      match Server.put_task nowT nowP taskId b projectData allTasks with
      | Server.NotFound404 => (NotFound404 "Task not found", d)
      | Server.Error500 msg => (ServerError500 msg, d)
      | Server.Ok200 updatedTask project allTasks' =>
          let '(tasksSaved, d1) :=
            Storage.saveTasksForProject wT projectId allTasks' d in
          let '(projectSaved, d2) := Storage.saveProject wP project d1 in
          if negb tasksSaved || negb projectSaved
          then (ServerError500 "Failed to save updates", d2)
          else (TaskUpdated200 updatedTask (Project.phases project)
                  (Project.overallStatus project), d2)
      end
  end.

(** [app.post('/api/projects/:projectId/tasks/:taskId/evidence')] once
    the files were accepted by the upload middleware. *)
Definition post_evidence
    (wT : Storage.write (gmap string (list (string * list Task.t))))
    (projectId taskId : string) (paths : list string)
    (d : Storage.disk) : reply * Storage.disk :=
  match Storage.getProjectById projectId d with
  | None => (NotFound404 "Project not found", d)
  | Some _ =>
      let allTasks := Storage.getTasksForProject projectId d in
      match Evidence.upload_loop taskId paths [] allTasks with
      | None => (NotFound404 "Task not found", d)
      | Some (updatedTask, allTasks') =>
          let '(tasksSaved, d1) :=
            Storage.saveTasksForProject wT projectId allTasks' d in
          if negb tasksSaved
          then (ServerError500 "Failed to save task updates", d1)
          else (EvidenceUploaded200 updatedTask, d1)
      end
  end.

(** [app.get('/api/projects/:projectId/tasks/:taskId/evidence/:filename')];
    [relativePath] is [path.join(projectId, taskId, filename)] and
    [on_disk] the answer of [fs.existsSync] for the file, which is then
    read without error. *)
Definition get_evidence (projectId taskId relativePath : string)
    (on_disk : bool) (d : Storage.disk) : reply :=
  match Storage.getProjectById projectId d with
  | None => NotFound404 "Project not found"
  | Some _ =>
      let allTasks := Storage.getTasksForProject projectId d in
      match Evidence.authorize_loop taskId relativePath allTasks with
      | None => NotFound404 "Task not found"
      | Some false => Forbidden403 "File not authorized for this task"
      | Some true =>
          if negb on_disk then NotFound404 "File not found"
          else FileSent200 relativePath
      end
  end.

End Api.

(* ===================================================================== *)
(** * server.js: the sections of the report after the statistics *)
(* ===================================================================== *)

Module ReportDoc.

Inductive indicator : Type :=
| PhaseComplete    (* 'Phase Complete' *)
| InProgress       (* 'In Progress' *)
| NotStarted.      (* 'Not Started' *)

(** Lines 515-521.  [inherited_completed] is the value of
    [project.phases[phase].completed] when the read of the phase lands on
    an object inherited from [Object.prototype]. *)
Definition indicator_of (inherited_completed : bool) (project : Project.t)
    (phase : string) (stats : Report.phaseStat) : indicator :=
  let phase_flag :=
    match JS.get (Project.phases project) phase with
    | JS.Own st => PhaseStatus.completed st
    | JS.Inherited => inherited_completed
    | JS.Undefined => false
    end in
  if phase_flag then PhaseComplete
  else if (0 <? Report.completed stats)%nat then InProgress
  else NotStarted.

(** One phase of a task listing: the tasks kept by the filter, when there
    is at least one. *)
Definition section_of (keep : Task.t → bool) (entry : string * list Task.t)
  : option (string * list Task.t) :=
  let kept := List.filter keep entry.2 in
  if (0 <? length kept)%nat then Some (entry.1, kept) else None.

(** The phases printed under 'Completed Security Tasks', with their tasks
    (lines 534-578). *)
Definition completed_sections (tasks : list (string * list Task.t))
  : list (string * list Task.t) :=
  omap (section_of Task.completed) tasks.

(** [hasCompletedTasks]. *)
Definition hasCompletedTasks (tasks : list (string * list Task.t)) : bool :=
  (0 <? length (completed_sections tasks))%nat.

(** [incompleteTasks] (lines 586-592), printed under 'Outstanding Security
    Tasks'. *)
Definition incompleteTasks (tasks : list (string * list Task.t))
  : list (string * list Task.t) :=
  omap (section_of (λ task, negb (Task.completed task))) tasks.

End ReportDoc.

(* ===================================================================== *)
(** * public/dashboard.js: the status shown on a project card *)
(* ===================================================================== *)

Module Client.

(** dashboard.js, [createProjectCard]:
    [completedPhases === totalPhases && totalPhases > 0]. *)
Definition isCompleted (project : Project.t) : bool :=
  let values := (map_to_list (Project.phases project)).*2 in
  let completedPhases := length (List.filter PhaseStatus.completed values) in
  let totalPhases := length (map_to_list (Project.phases project)) in
  (completedPhases =? totalPhases)%nat && (0 <? totalPhases)%nat.

End Client.

(* ===================================================================== *)
(** * netlify/functions/reports.js *)
(* ===================================================================== *)

Module NetlifyReports.

Record event : Type := mkEvent {
  httpMethod : string;
  path : string
}.

(** [s.replace(pat, '')] for a string pattern: the first occurrence of
    [pat] is removed. *)
Fixpoint remove_first (pat s : string) : string :=
  if String.prefix pat s
  then String.substring (String.length pat)
         (String.length s - String.length pat) s
  else match s with
       | EmptyString => EmptyString
       | String c s' => String c (remove_first pat s')
       end.

(** [path.match(/^\/([^\/]+)$/)]: the captured group. *)
Definition reportMatch (path : string) : option string :=
  match path with
  | String c rest =>
      if negb (Ascii.N_of_ascii c =? 47)%N then None   (* not '/' *)
      else if bool_decide (rest = EmptyString) then None
      else if JSString.includes rest "/" then None
      else Some rest
  | EmptyString => None
  end.

Inductive result : Type :=
| Preflight200
| Pdf200 (name : string) (score : option Z)
    (phaseStats : Report.statsObject)
| NotFound404 (error : string).

(** [exports.handler] as a function of the two module variables. *)
Definition handler (projects : list Project.t)
    (tasks : gmap string (list (string * list Task.t))) (ev : event) : result :=
  if bool_decide (httpMethod ev = "OPTIONS") then Preflight200
  else
    let path := remove_first "/.netlify/functions/reports" (path ev) in
    match reportMatch path with
    | Some projectId =>
        if bool_decide (httpMethod ev = "GET") then
          match snd <$> list_find (λ p, Project.id p = projectId) projects with
          | None => NotFound404 "Project not found"
          | Some project =>
              let projectTasks :=
                match JS.get tasks projectId with
                | JS.Own ts => ts
                | JS.Inherited => []
                | JS.Undefined => []
                end in
              Pdf200 (Project.name project)
                (Report.overallSecurityScore projectTasks)
                (Report.phaseStats (Report.stats_loop projectTasks))
          end
        else NotFound404 "Not found"
    | None => NotFound404 "Not found"
    end.

(** [let projects = []; let tasks = {};]: the module never assigns them. *)
Definition projects : list Project.t := [].
Definition tasks : gmap string (list (string * list Task.t)) := ∅.

Definition exports_handler (ev : event) : result := handler projects tasks ev.

End NetlifyReports.

(* ===================================================================== *)
(** * A project and its tasks under a sequence of requests *)
(* ===================================================================== *)

Module Lifecycle.

(** What storage holds for one project: the project and its tasks. *)
Definition state : Type := Project.t * list (string * list Task.t).

Inductive request : Type :=
| UpdateTask (nowT nowP taskId : string) (b : Server.body)
| UploadEvidence (taskId : string) (paths : list string).

(** The state after a request whose writes succeed. *)
Definition serve (st : state) (r : request) : state :=
  match r with
  | UpdateTask nowT nowP taskId b =>
      Server.saved (Server.put_task nowT nowP taskId b st.1 st.2) st
  | UploadEvidence taskId paths =>
      match Evidence.upload_loop taskId paths [] st.2 with
      | Some (_, allTasks) => (st.1, allTasks)
      | None => st
      end
  end.

Definition run (st : state) (rs : list request) : state := fold_left serve rs st.

(** What the creation handler stores. *)
Definition created (uuid now name : string) (uuids : list string) : state :=
  (Project.constructor uuid now name, Task.getDefaultTasks uuids).

(** The fields of a task that no request writes. *)
Definition fixed_fields (task : Task.t) : string * string * string * string :=
  (Task.id task, Task.phase task, Task.title task, Task.description task).

Definition layout (tasks : list (string * list Task.t))
  : list (string * list (string * string * string * string)) :=
  map (λ e, (e.1, map fixed_fields e.2)) tasks.

(** Every task of the dictionary is completed. *)
Definition all_tasks_completed (tasks : list (string * list Task.t)) : Prop :=
  ∀ ph l t, (ph, l) ∈ tasks → t ∈ l → Task.completed t = true.

(** The date of a task is there exactly when the task is completed. *)
Definition task_dated (t : Task.t) : Prop :=
  is_Some (Task.completedDate t) ↔ Task.completed t = true.

(** Among the requests, an upload for the task id carried the path. *)
Definition uploaded (rs : list request) (taskId path : string) : Prop :=
  ∃ paths, UploadEvidence taskId paths ∈ rs ∧ path ∈ paths.

(** A property of every task of the dictionary. *)
Definition every_task (P : Task.t → Prop)
    (tasks : list (string * list Task.t)) : Prop :=
  ∀ ph l t, (ph, l) ∈ tasks → t ∈ l → P t.

(** The stored overall status is the one computed from the phase flags. *)
Definition status_agrees (p : Project.t) : Prop :=
  Project.overallStatus p =
  if Project.allPhasesCompleted (Project.phases p)
  then "Completed" else "In Progress".

(** What holds of a project created with the task ids [uuids], whatever
    requests were served since. *)
Definition invariant (uuid now name : string) (uuids : list string)
    (st : state) : Prop :=
  Props.five_phases st.1 ∧
  Props.flags_agree st.1 st.2 ∧
  status_agrees st.1 ∧
  Props.dates_consistent st.1 ∧
  (Project.id st.1 = uuid ∧ Project.name st.1 = name ∧
   Project.createdDate st.1 = now) ∧
  layout st.2 = layout (Task.getDefaultTasks uuids) ∧
  every_task task_dated st.2 ∧
  every_task (λ t, NoDup (Task.evidenceFiles t)) st.2.

End Lifecycle.

(* ===================================================================== *)
(** * The handlers serving one project from storage *)
(* ===================================================================== *)

Module Session.

(** One request for the project [projectId], answered by its handler
    with both files writable. *)
Definition serve (projectId : string) (d : Storage.disk)
    (r : Lifecycle.request) : Api.reply * Storage.disk :=
  match r with
  | Lifecycle.UpdateTask nowT nowP taskId b =>
      Api.put_task Storage.Written Storage.Written nowT nowP projectId taskId b d
  | Lifecycle.UploadEvidence taskId paths =>
      Api.post_evidence Storage.Written projectId taskId paths d
  end.

(** The storage after a sequence of requests for the project. *)
Definition run (projectId : string) (d : Storage.disk)
    (rs : list Lifecycle.request) : Storage.disk :=
  fold_left (λ d r, (serve projectId d r).2) rs d.

(** What storage holds for a project id: the project, if there is one,
    and its tasks. *)
Definition stored (projectId : string) (d : Storage.disk)
  : option Lifecycle.state :=
  (λ project, (project, Storage.getTasksForProject projectId d))
    <$> Storage.getProjectById projectId d.

End Session.

(* ===================================================================== *)
(** * Fixtures *)
(* ===================================================================== *)

Module Fixtures.

(** A data directory without files. *)
Definition empty_disk : Storage.disk :=
  {| Storage.projects_json := Storage.Missing;
     Storage.tasks_json := Storage.Missing |}.

(** The data directory after 'Acme' was created. *)
Definition acme_disk : Storage.disk :=
  (Api.post_project Storage.Written Storage.Written
     "p-1" "2024-01-01T00:00:00.000Z"
     ["t0"; "t1"; "t2"; "t3"; "t4"; "t5"; "t6"; "t7"; "t8"; "t9"]
     (JSString.Str "Acme") empty_disk).2.

(** 'Acme' as the creation handler stores it. *)
Definition acme_created : Lifecycle.state :=
  Lifecycle.created "p-1" "2024-01-01T00:00:00.000Z" "Acme"
    ["t0"; "t1"; "t2"; "t3"; "t4"; "t5"; "t6"; "t7"; "t8"; "t9"].

(** Completing the first planning task, then attaching two files to it. *)
Definition two_requests : list Lifecycle.request :=
  [ Lifecycle.UpdateTask "2024-03-01T00:00:00.000Z" "2024-03-01T00:00:00.001Z"
      "t0" {| Server.completed := Some true; Server.notes := Some "done" |};
    Lifecycle.UploadEvidence "t0" ["p-1/t0/a.pdf"; "p-1/t0/b.png"] ].

(** The ten requests that complete the ten tasks of 'Acme', in order. *)
Definition ten_completions : list Lifecycle.request :=
  map (λ taskId,
         Lifecycle.UpdateTask "2024-04-01T00:00:00.000Z"
           "2024-04-01T00:00:00.001Z" taskId
           {| Server.completed := Some true; Server.notes := None |})
      ["t0"; "t1"; "t2"; "t3"; "t4"; "t5"; "t6"; "t7"; "t8"; "t9"].

(** The data directory of 'Acme' after a second project was created. *)
Definition two_projects_disk : Storage.disk :=
  (Api.post_project Storage.Written Storage.Written
     "p-2" "2024-02-01T00:00:00.000Z"
     ["u0"; "u1"; "u2"; "u3"; "u4"; "u5"; "u6"; "u7"; "u8"; "u9"]
     (JSString.Str "Beta") acme_disk).2.

End Fixtures.

(* ===================================================================== *)
(** * Project: overall status and phase status *)
(* ===================================================================== *)

Section ProjectFacts.

Implicit Types (p : Project.t) (ph : gmap string PhaseStatus.t)
  (k phase now : string) (c : Project.call).

Lemma allPhasesCompleted_spec ph :
  Project.allPhasesCompleted ph = true ↔
  ∀ k st, ph !! k = Some st → PhaseStatus.completed st = true.
Proof.
  unfold Project.allPhasesCompleted. rewrite forallb_forall. split.
  - intros H k st Hk. apply (H (k, st)).
    apply list_elem_of_In, elem_of_map_to_list, Hk.
  - intros H [k st] Hin. apply list_elem_of_In, elem_of_map_to_list in Hin.
    simpl. eauto.
Qed.

Lemma recompute_status p ph :
  Project.overallStatus (Project.recompute p ph) =
  if Project.allPhasesCompleted ph then "Completed" else "In Progress".
Proof. reflexivity. Qed.

Lemma get_own {A} (m : gmap string A) k a :
  m !! k = Some a → JS.get m k = JS.Own a.
Proof. unfold JS.get. by intros ->. Qed.

Lemma get_Own_inv {A} (m : gmap string A) k a :
  JS.get m k = JS.Own a → m !! k = Some a.
Proof.
  unfold JS.get. destruct (m !! k); [congruence|]. by case_bool_decide.
Qed.

Lemma get_Inherited_inv {A} (m : gmap string A) k :
  JS.get m k = JS.Inherited → m !! k = None ∧ k ∈ JS.Object_prototype_keys.
Proof.
  unfold JS.get. destruct (m !! k); [congruence|]. by case_bool_decide.
Qed.

Lemma get_Undefined_iff {A} (m : gmap string A) k :
  JS.get m k = JS.Undefined ↔ m !! k = None ∧ k ∉ JS.Object_prototype_keys.
Proof.
  unfold JS.get. destruct (m !! k).
  - split; [congruence | intros [? _]; congruence].
  - case_bool_decide; split; try congruence; tauto.
Qed.

(** The five names of the constructor are not names of Object.prototype. *)
Lemma PHASES_not_inherited k :
  k ∈ Project.PHASES → k ∉ JS.Object_prototype_keys.
Proof.
  unfold Project.PHASES, JS.Object_prototype_keys.
  rewrite !elem_of_cons, !elem_of_nil.
  intros Hk Hi.
  destruct Hk as [->|[->|[->|[->|[->|[]]]]]];
    repeat (destruct Hi as [Hi|Hi]; [discriminate Hi|]); exact Hi.
Qed.

(** What a call that returns does to the object. *)
Lemma updatePhaseStatus_Returned now phase (completed : bool) p p' :
  Project.updatePhaseStatus now phase completed p = JS.Returned p' →
  Project.id p' = Project.id p ∧
  Project.name p' = Project.name p ∧
  Project.createdDate p' = Project.createdDate p ∧
  (∀ q, q ≠ phase → Project.phases p' !! q = Project.phases p !! q) ∧
  (is_Some (Project.phases p !! phase) →
     Project.phases p' !! phase =
       Some {| PhaseStatus.completed := completed;
               PhaseStatus.completedDate :=
                 if completed then Some now else None |}) ∧
  (Project.phases p !! phase = None → Project.phases p' = Project.phases p) ∧
  Project.overallStatus p' =
    (if Project.allPhasesCompleted (Project.phases p')
     then "Completed" else "In Progress").
Proof.
  unfold Project.updatePhaseStatus.
  destruct (JS.get (Project.phases p) phase) as [st| |] eqn:Hg;
    intros Heq; [| |discriminate Heq]; injection Heq as <-; simpl.
  - apply get_Own_inv in Hg.
    repeat split; try done.
    + intros q Hq. by rewrite lookup_insert_ne.
    + intros _. by rewrite lookup_insert_eq.
    + intros Hn. congruence.
  - apply get_Inherited_inv in Hg as [Hn _].
    repeat split; try done.
    intros [st Hst]. congruence.
Qed.

(** A call on one of the object's own phases returns. *)
Lemma updatePhaseStatus_own now phase (completed : bool) p :
  is_Some (Project.phases p !! phase) →
  Project.updatePhaseStatus now phase completed p =
    JS.Returned
      (Project.recompute p
         (<[phase := {| PhaseStatus.completed := completed;
                        PhaseStatus.completedDate :=
                          if completed then Some now else None |}]>
            (Project.phases p))).
Proof.
  intros [st Hst]. unfold Project.updatePhaseStatus.
  by rewrite (get_own _ _ _ Hst).
Qed.

(** A name the object inherits and does not own: the call returns, the
    phases are the ones the object had, the status is recomputed. *)
Lemma updatePhaseStatus_inherited now phase (completed : bool) p :
  Project.phases p !! phase = None →
  phase ∈ JS.Object_prototype_keys →
  Project.updatePhaseStatus now phase completed p =
    JS.Returned (Project.recompute p (Project.phases p)).
Proof.
  intros Hn Hi. unfold Project.updatePhaseStatus, JS.get.
  rewrite Hn. by rewrite bool_decide_eq_true_2.
Qed.

(** A name that is neither a phase of the object nor inherited makes the
    call throw, and the caller's object is the one it had. *)
Lemma updatePhaseStatus_throws now phase (completed : bool) p :
  Project.phases p !! phase = None →
  phase ∉ JS.Object_prototype_keys →
  Project.updatePhaseStatus now phase completed p =
    JS.Thrown (String.append "Invalid phase: " phase) ∧
  Project.after p (Project.updatePhaseStatus now phase completed p) = p.
Proof.
  intros Hn Hi. unfold Project.updatePhaseStatus.
  assert (JS.get (Project.phases p) phase = JS.Undefined) as ->
    by by apply get_Undefined_iff.
  done.
Qed.

Lemma constructor_five_phases uuid now name :
  Props.five_phases (Project.constructor uuid now name).
Proof.
  intros k. unfold Project.constructor, Project.PHASES; simpl.
  rewrite !elem_of_cons, elem_of_nil.
  rewrite !lookup_insert_is_Some, lookup_empty, is_Some_alt.
  split.
  - intuition (subst; auto 10).
  - intros H.
    repeat match goal with
           | |- ?a = k ∨ _ =>
               destruct (decide (a = k)); [by left | right; split; [done|]]
           end.
    intuition congruence.
Qed.

Lemma step_five_phases p c :
  Props.five_phases p → Props.five_phases (Project.step p c).
Proof.
  intros Hwf k. unfold Project.step.
  destruct (Project.updatePhaseStatus _ _ _ p) as [p'|msg] eqn:Hu; simpl;
    [|apply Hwf].
  apply updatePhaseStatus_Returned in Hu as (_ & _ & _ & Hne & Heq & Hnone & _).
  destruct (decide (k = Project.call_phase c)) as [->|Hk].
  - destruct (Project.phases p !! Project.call_phase c) as [st|] eqn:Hst.
    + rewrite Heq by eauto. split; [intros _; apply Hwf|]; eauto.
    + rewrite (Hnone eq_refl). apply Hwf.
  - rewrite Hne by done. apply Hwf.
Qed.

Lemma run_five_phases p cs :
  Props.five_phases p → Props.five_phases (Project.run p cs).
Proof.
  revert p. induction cs as [|c cs IH]; intros p Hwf; simpl; [done|].
  apply IH, step_five_phases, Hwf.
Qed.

Lemma run_snoc p cs c :
  Project.run p (cs ++ [c]) = Project.step (Project.run p cs) c.
Proof. unfold Project.run. by rewrite fold_left_app. Qed.

(** After a call on one of its own phases the stored status is the
    recomputed one. *)
Lemma step_status p c :
  is_Some (Project.phases p !! Project.call_phase c) →
  Project.overallStatus (Project.step p c) =
    if Project.allPhasesCompleted (Project.phases (Project.step p c))
    then "Completed" else "In Progress".
Proof.
  intros Hs. unfold Project.step.
  by rewrite (updatePhaseStatus_own _ _ _ _ Hs).
Qed.

Lemma all_completed_five p :
  Props.five_phases p →
  Project.allPhasesCompleted (Project.phases p) = true ↔
  ∀ k, k ∈ Project.PHASES → Props.phase_completed p k = true.
Proof.
  intros Hwf. rewrite allPhasesCompleted_spec. unfold Props.phase_completed.
  split.
  - intros H k Hk. apply Hwf in Hk as [st Hst]. rewrite Hst. eauto.
  - intros H k st Hst. specialize (H k). rewrite Hst in H.
    apply H, Hwf. eauto.
Qed.

Lemma step_forgets_status p c s :
  is_Some (Project.phases p !! Project.call_phase c) →
  Project.step (Props.with_overallStatus s p) c = Project.step p c.
Proof.
  intros Hs. unfold Project.step.
  rewrite !updatePhaseStatus_own by done. reflexivity.
Qed.

End ProjectFacts.

Section ProjectClaims.

Implicit Types (p : Project.t) (k phase now : string) (c : Project.call)
  (cs : list Project.call).

Lemma run_forgets_status p cs c s :
  Props.five_phases p →
  (∀ c', c' ∈ cs ++ [c] → Project.call_phase c' ∈ Project.PHASES) →
  Project.run (Props.with_overallStatus s p) (cs ++ [c]) =
  Project.run p (cs ++ [c]).
Proof.
  revert p. induction cs as [|c0 cs IH]; intros p Hwf Hval; simpl.
  - apply step_forgets_status, Hwf, Hval. set_solver.
  - rewrite step_forgets_status by (apply Hwf, Hval; set_solver).
    reflexivity.
Qed.

(** C1. For every project holding the five phases and every sequence of
    [updatePhaseStatus] calls with valid phase names, after each call
    (the call [c] that follows the earlier calls [cs]) the overall
    status is 'Completed' exactly when all five phases have their
    [completed] flag set and 'In Progress' exactly when they do not;
    the status is recomputed from the flags: whatever overall status the
    project held before the calls, the result is the same. *)
Theorem overallStatus_iff_all_phases_completed p cs c :
  Props.five_phases p →
  (∀ c', c' ∈ cs ++ [c] → Project.call_phase c' ∈ Project.PHASES) →
  let p' := Project.run p (cs ++ [c]) in
  (Project.overallStatus p' = "Completed" ↔
     ∀ k, k ∈ Project.PHASES → Props.phase_completed p' k = true) ∧
  (Project.overallStatus p' = "In Progress" ↔
     ¬ ∀ k, k ∈ Project.PHASES → Props.phase_completed p' k = true) ∧
  (∀ s, Project.run (Props.with_overallStatus s p) (cs ++ [c]) = p').
Proof.
  intros Hwf Hval p'.
  assert (Hwf' : Props.five_phases p') by by apply run_five_phases.
  assert (Hst : Project.overallStatus p' =
                if Project.allPhasesCompleted (Project.phases p')
                then "Completed" else "In Progress").
  { subst p'. rewrite run_snoc. apply step_status.
    apply run_five_phases; [done|]. apply Hval. set_solver. }
  pose proof (all_completed_five p' Hwf') as Hall.
  split; [|split].
  - rewrite Hst, <- Hall.
    destruct (Project.allPhasesCompleted _); split; congruence.
  - rewrite Hst, <- Hall.
    destruct (Project.allPhasesCompleted _); split; try congruence; tauto.
  - intros s. by apply run_forgets_status.
Qed.

Lemma step_dates_consistent p c :
  Props.dates_consistent p → Props.dates_consistent (Project.step p c).
Proof.
  intros Hinv k st. unfold Project.step.
  destruct (Project.updatePhaseStatus _ _ _ p) as [p'|msg] eqn:Hu; simpl;
    [|apply Hinv].
  apply updatePhaseStatus_Returned in Hu as (_ & _ & _ & Hne & Heq & Hnone & _).
  destruct (decide (k = Project.call_phase c)) as [->|Hk].
  - destruct (Project.phases p !! Project.call_phase c) as [st0|] eqn:Hst.
    + rewrite Heq by eauto. intros [= <-].
      unfold Props.date_iff_completed; simpl.
      destruct (Project.call_completed c); split; try done; by eauto.
    + rewrite (Hnone eq_refl), Hst. done.
  - rewrite Hne by done. apply Hinv.
Qed.

Lemma constructor_dates_consistent uuid created name :
  Props.dates_consistent (Project.constructor uuid created name).
Proof.
  intros k st. unfold Project.constructor; simpl. intros Hst.
  assert (st = Project.fresh_phase) as ->.
  { repeat (apply lookup_insert_Some in Hst as [[_ <-]|[_ Hst]]; [done|]).
    by rewrite lookup_empty in Hst. }
  unfold Props.date_iff_completed; simpl. split; [by intros [? ?]|done].
Qed.

Lemma run_dates_consistent p cs :
  Props.dates_consistent p → Props.dates_consistent (Project.run p cs).
Proof.
  revert p. induction cs as [|c cs IH]; intros p Hinv; simpl; [done|].
  apply IH, step_dates_consistent, Hinv.
Qed.

(** C8 (the code at an inherited name). 'constructor' is none of the five
    phase names, yet the call does not throw: the guard reads the
    inherited [Object.prototype.constructor], which is truthy, and the
    method returns with the project as it was. *)
Theorem updatePhaseStatus_inherited_name_returns :
  ("constructor" ∉ Project.PHASES) ∧
  Project.phases Props.acme !! "constructor" = None ∧
  Project.updatePhaseStatus "2024-01-02T00:00:00.000Z" "constructor" true
    Props.acme
  = JS.Returned Props.acme.
Proof.
  split; [|split; reflexivity].
  unfold Project.PHASES. rewrite !elem_of_cons, elem_of_nil.
  intros H. repeat (destruct H as [H|H]; [discriminate H|]). exact H.
Qed.

End ProjectClaims.

(* ===================================================================== *)
(** * The task-update handler *)
(* ===================================================================== *)

Section Handler.

Implicit Types (p : Project.t) (all pre post seen rest : Server.tasks)
  (l : list Task.t) (task : Task.t) (b : Server.body)
  (taskId nowT nowP ph : string).

Lemma findIndex_Some taskId l i task :
  Server.findIndex taskId l = Some (i, task) →
  l !! i = Some task ∧ Task.id task = taskId ∧ (i < length l)%nat.
Proof.
  unfold Server.findIndex. intros H.
  apply list_find_Some in H as (Hl & Hid & _).
  repeat split; [done..|]. by eapply lookup_lt_Some.
Qed.

(** The entry the loop stops at splits the dictionary in the entries
    visited before it, none of which holds the id, and those after. *)
Lemma locate_split taskId all ph l i task :
  Server.locate taskId all = Some (ph, l, i, task) →
  ∃ pre post,
    all = pre ++ (ph, l) :: post ∧
    Forall (λ e, Server.findIndex taskId e.2 = None) pre ∧
    Server.findIndex taskId l = Some (i, task).
Proof.
  induction all as [|[ph0 l0] all IH]; simpl; [done|].
  destruct (Server.findIndex taskId l0) as [[i0 t0]|] eqn:Hf.
  - intros [= -> -> -> ->]. exists [], all. by repeat split.
  - intros H. destruct (IH H) as (pre & post & -> & Hpre & Hl).
    exists ((ph0, l0) :: pre), post. repeat split; [|done].
    by constructor.
Qed.

Lemma update_loop_skip nowT nowP taskId b p seen pre rest :
  Forall (λ e, Server.findIndex taskId e.2 = None) pre →
  Server.update_loop nowT nowP taskId b p seen (pre ++ rest) =
  Server.update_loop nowT nowP taskId b p (seen ++ pre) rest.
Proof.
  intros Hpre. revert seen.
  induction Hpre as [|[ph0 l0] pre Hn _ IH]; intros seen; simpl.
  - by rewrite app_nil_r.
  - simpl in Hn. rewrite Hn, IH. by rewrite <- app_assoc.
Qed.

Lemma update_loop_not_found nowT nowP taskId b p seen all :
  Server.locate taskId all = None →
  Server.update_loop nowT nowP taskId b p seen all = Server.NotFound404.
Proof.
  revert seen. induction all as [|[ph0 l0] all IH]; intros seen; simpl;
    [done|].
  destruct (Server.findIndex taskId l0) as [[i0 t0]|]; [done|]. eauto.
Qed.

(** The handler, once the task has been located. *)
Lemma put_task_located nowT nowP taskId b p all ph l i task pre post :
  all = pre ++ (ph, l) :: post →
  Forall (λ e, Server.findIndex taskId e.2 = None) pre →
  Server.findIndex taskId l = Some (i, task) →
  let task' := Server.update_task nowT b task in
  let l' := <[i := task']> l in
  Server.put_task nowT nowP taskId b p all =
  match Project.updatePhaseStatus nowP ph (Server.every_completed l') p with
  | JS.Returned p' => Server.Ok200 task' p' (pre ++ (ph, l') :: post)
  | JS.Thrown _ => Server.Error500 "Failed to update task"
  end.
Proof.
  intros -> Hpre Hf. unfold Server.put_task.
  rewrite update_loop_skip by done. simpl. rewrite Hf. reflexivity.
Qed.

(** Every successful answer comes from a located task. *)
Lemma put_task_Ok200_inv nowT nowP taskId b p all task' p' all' :
  Server.put_task nowT nowP taskId b p all = Server.Ok200 task' p' all' →
  ∃ ph l i task pre post,
    Server.locate taskId all = Some (ph, l, i, task) ∧
    all = pre ++ (ph, l) :: post ∧
    Forall (λ e, Server.findIndex taskId e.2 = None) pre ∧
    l !! i = Some task ∧ Task.id task = taskId ∧
    task' = Server.update_task nowT b task ∧
    all' = pre ++ (ph, <[i := task']> l) :: post ∧
    Project.updatePhaseStatus nowP ph
      (Server.every_completed (<[i := task']> l)) p = JS.Returned p'.
Proof.
  intros H.
  destruct (Server.locate taskId all) as [[[[ph l] i] task]|] eqn:Hloc.
  - destruct (locate_split _ _ _ _ _ _ Hloc) as (pre & post & Hall & Hpre & Hf).
    rewrite (put_task_located nowT nowP _ b p _ _ _ _ _ _ _ Hall Hpre Hf) in H.
    destruct (Project.updatePhaseStatus _ _ _ p) as [p1|msg] eqn:Hu;
      [|discriminate H].
    injection H as <- <- <-.
    destruct (findIndex_Some _ _ _ _ Hf) as (Hl & Hid & _).
    exists ph, l, i, task, pre, post. by repeat split.
  - unfold Server.put_task in H.
    by rewrite update_loop_not_found in H.
Qed.

(** The handler answers 200 whenever the task exists in a phase the
    project has. *)
Lemma put_task_succeeds nowT nowP taskId b p all ph l i task :
  Server.locate taskId all = Some (ph, l, i, task) →
  is_Some (Project.phases p !! ph) →
  ∃ p' all',
    Server.put_task nowT nowP taskId b p all =
      Server.Ok200 (Server.update_task nowT b task) p' all'.
Proof.
  intros Hloc Hph.
  destruct (locate_split _ _ _ _ _ _ Hloc) as (pre & post & Hall & Hpre & Hf).
  rewrite (put_task_located nowT nowP _ b p _ _ _ _ _ _ _ Hall Hpre Hf).
  rewrite updatePhaseStatus_own by done. eauto.
Qed.

Lemma every_completed_spec l :
  Server.every_completed l = true ↔ ∀ t, t ∈ l → Task.completed t = true.
Proof.
  unfold Server.every_completed. rewrite forallb_forall.
  split; intros H t Ht; apply H; by apply list_elem_of_In.
Qed.

(** [[].every(..)] is [true]; the handler never evaluates it, since the
    list it tests holds the task it found. *)
Lemma every_completed_nil : Server.every_completed [] = true.
Proof. reflexivity. Qed.

Lemma update_task_id nowT b task :
  Task.id (Server.update_task nowT b task) = Task.id task.
Proof.
  unfold Server.update_task.
  by destruct (Server.completed b), (Server.notes b).
Qed.

End Handler.

Section HandlerClaims.

Implicit Types (p : Project.t) (all pre post : Server.tasks)
  (l : list Task.t) (task : Task.t) (b : Server.body)
  (taskId nowT nowP ph : string).

(** Writing back a task with the same [completed] flag does not change
    the outcome of [every]. *)
Lemma every_completed_insert_same l i task task' :
  l !! i = Some task →
  Task.completed task' = Task.completed task →
  Server.every_completed (<[i := task']> l) = Server.every_completed l.
Proof.
  unfold Server.every_completed.
  revert i. induction l as [|t0 l IH]; intros [|i]; simpl; try done.
  - intros [= ->] ->. done.
  - intros Hl Hc. by rewrite (IH i Hl Hc).
Qed.

(** C2 (as the code behaves). After a task update that the handler
    answers with 200, the affected phase, if the project has it, is
    stored as complete exactly when every task of its list is completed;
    that list holds the updated task, so [every] is never taken over an
    empty list.  A phase that has no task is not recomputed: it keeps
    the status it had, so it is complete after the update exactly when
    it was stored as complete before it.  The update leaves the phases
    without tasks the same, hence when none of them was stored as
    complete before the update, none is after it. *)
Theorem phase_complete_iff_every_task_completed
    nowT nowP taskId b p all task' p' all' :
  Server.put_task nowT nowP taskId b p all = Server.Ok200 task' p' all' →
  ∃ ph l',
    (ph, l') ∈ all' ∧ task' ∈ l' ∧ l' ≠ [] ∧
    (is_Some (Project.phases p !! ph) →
       Props.phase_completed p' ph = true ↔
       ∀ t, t ∈ l' → Task.completed t = true) ∧
    (∀ q, (∀ lq, (q, lq) ∈ all' → lq = []) →
       Project.phases p' !! q = Project.phases p !! q ∧
       Props.phase_completed p' q = Props.phase_completed p q) ∧
    (∀ q, (∀ lq, (q, lq) ∈ all' → lq = []) ↔
          (∀ lq, (q, lq) ∈ all → lq = [])) ∧
    ((∀ q, (∀ lq, (q, lq) ∈ all → lq = []) →
           Props.phase_completed p q = false) →
     ∀ q, (∀ lq, (q, lq) ∈ all' → lq = []) →
          Props.phase_completed p' q = false).
Proof.
  intros H.
  apply put_task_Ok200_inv in H
    as (ph & l & i & task & pre & post & _ & -> & _ & Hl & _ & -> & -> & Hu).
  set (task' := Server.update_task nowT b task) in *.
  set (l' := <[i := task']> l) in *.
  assert (Hin : task' ∈ l').
  { apply list_elem_of_lookup. exists i. apply list_lookup_insert_eq.
    by eapply lookup_lt_Some. }
  assert (Hl' : l' ≠ []).
  { intros Hnil. rewrite Hnil in Hin. by apply elem_of_nil in Hin. }
  assert (Hlne : l ≠ []).
  { intros Hnil. by rewrite Hnil in Hl. }
  assert (Hentry : (ph, l') ∈ pre ++ (ph, l') :: post).
  { apply elem_of_app. right. apply elem_of_cons. by left. }
  assert (Hentry0 : (ph, l) ∈ pre ++ (ph, l) :: post).
  { apply elem_of_app. right. apply elem_of_cons. by left. }
  apply updatePhaseStatus_Returned in Hu as (_ & _ & _ & Hne & Heq & _ & _).
  assert (Hkeep : ∀ q, (∀ lq, (q, lq) ∈ pre ++ (ph, l') :: post → lq = []) →
            Project.phases p' !! q = Project.phases p !! q).
  { intros q Hq. apply Hne. intros ->. by apply Hl', Hq. }
  assert (Hsame : ∀ q,
            (∀ lq, (q, lq) ∈ pre ++ (ph, l') :: post → lq = []) ↔
            (∀ lq, (q, lq) ∈ pre ++ (ph, l) :: post → lq = [])).
  { intros q. split; intros Hq lq Hlq.
    - apply elem_of_app in Hlq as [Hlq|Hlq].
      + apply Hq. apply elem_of_app. by left.
      + apply elem_of_cons in Hlq as [Hlq|Hlq].
        * injection Hlq as -> ->. exfalso. by apply Hl', Hq.
        * apply Hq. apply elem_of_app. right. apply elem_of_cons. by right.
    - apply elem_of_app in Hlq as [Hlq|Hlq].
      + apply Hq. apply elem_of_app. by left.
      + apply elem_of_cons in Hlq as [Hlq|Hlq].
        * injection Hlq as -> ->. exfalso. by apply Hlne, Hq.
        * apply Hq. apply elem_of_app. right. apply elem_of_cons. by right. }
  exists ph, l'.
  split; [exact Hentry|]. split; [exact Hin|]. split; [exact Hl'|].
  split; [|split; [|split; [exact Hsame|]]].
  - intros Hown. unfold Props.phase_completed. rewrite Heq by done. simpl.
    by rewrite every_completed_spec.
  - intros q Hq. split; [by apply Hkeep|].
    unfold Props.phase_completed. by rewrite (Hkeep q Hq).
  - intros Hbefore q Hq.
    unfold Props.phase_completed. rewrite (Hkeep q Hq).
    apply Hbefore. by apply Hsame.
Qed.

(** C2 (a phase without tasks can count as complete). 'Acme' is stored
    with design, implementation, testing and deployment marked complete
    and with a task dictionary in which these four phases have an empty
    list.  Completing the one planning task is answered 200; afterwards
    design, whose list is empty, is still complete, and the project is
    'Completed'.  [every] over an empty list is true. *)
Lemma empty_phase_counts_as_complete :
  let b := {| Server.completed := Some true; Server.notes := None |} in
  ∃ task' p' all',
    Server.put_task "2024-03-01T00:00:00.000Z" "2024-03-01T00:00:00.001Z"
      "t0" b Props.four_phases_marked Props.planning_only =
      Server.Ok200 task' p' all' ∧
    ("design", []) ∈ all' ∧
    (∀ lq, ("design", lq) ∈ all' → lq = []) ∧
    Props.phase_completed p' "design" = true ∧
    Project.overallStatus p' = "Completed" ∧
    Server.every_completed [] = true.
Proof.
  intros b. eexists _, _, _. split; [vm_compute; reflexivity|].
  split; [set_solver|]. split; [|by vm_compute].
  intros lq Hlq. apply list_elem_of_In in Hlq. simpl in Hlq.
  repeat (destruct Hlq as [Hlq|Hlq]; [by injection Hlq|]). destruct Hlq.
Qed.

(** C3. A task update that the handler answers with 200 recomputes the
    status of one phase only, the one holding the updated task: the
    status (flag and date) of every other phase and the project's id,
    name and creation date are what they were. *)
Theorem task_update_touches_one_phase
    nowT nowP taskId b p all task' p' all' :
  Server.put_task nowT nowP taskId b p all = Server.Ok200 task' p' all' →
  ∃ ph l i task,
    Server.locate taskId all = Some (ph, l, i, task) ∧
    task' = Server.update_task nowT b task ∧
    (∀ q, q ≠ ph → Project.phases p' !! q = Project.phases p !! q) ∧
    Project.id p' = Project.id p ∧
    Project.name p' = Project.name p ∧
    Project.createdDate p' = Project.createdDate p.
Proof.
  intros H.
  apply put_task_Ok200_inv in H
    as (ph & l & i & task & pre & post & Hloc & _ & _ & _ & _ & -> & _ & Hu).
  apply updatePhaseStatus_Returned in Hu as (Hid & Hname & Hdate & Hne & _).
  exists ph, l, i, task. by repeat split.
Qed.

(** The flags of a new project agree with its default tasks. *)
Lemma new_project_flags_agree uuid created name uuids :
  Props.flags_agree (Project.constructor uuid created name)
    (Task.getDefaultTasks uuids).
Proof.
  split.
  - change ((Task.getDefaultTasks uuids).*1) with Project.PHASES.
    unfold Project.PHASES.
    repeat (apply NoDup_cons; split;
            [rewrite ?elem_of_cons, elem_of_nil; intros H;
             repeat (destruct H as [H|H]; [discriminate H|]); exact H|]).
    apply NoDup_nil_2.
  - intros ph l Hin _ _. apply list_elem_of_In in Hin. simpl in Hin.
    repeat (destruct Hin as [[= <- <-]|Hin]; [reflexivity|]). destruct Hin.
Qed.

(** A task update answered with 200 keeps the flags in agreement with the
    tasks. *)
Lemma put_task_flags_agree nowT nowP taskId b p all task' p' all' :
  Props.flags_agree p all →
  Server.put_task nowT nowP taskId b p all = Server.Ok200 task' p' all' →
  Props.flags_agree p' all'.
Proof.
  intros [Hnd Hag] H.
  apply put_task_Ok200_inv in H
    as (ph & l & i & task & pre & post & _ & -> & _ & Hl & _ & -> & -> & Hu).
  set (l' := <[i := Server.update_task nowT b task]> l) in *.
  apply updatePhaseStatus_Returned in Hu as (_ & _ & _ & Hne & Heq & Hnone & _).
  rewrite fmap_app, fmap_cons in Hnd. simpl in Hnd.
  split; [by rewrite fmap_app, fmap_cons|].
  assert (Hother : ∀ q lq, (q, lq) ∈ pre ++ post → q ≠ ph).
  { intros q lq Hin ->.
    apply NoDup_app in Hnd as (_ & Hpre & Hpost).
    apply NoDup_cons in Hpost as [Hpost _].
    apply elem_of_app in Hin as [Hin|Hin].
    - apply (Hpre ph); [|set_solver].
      apply list_elem_of_fmap. by exists (ph, lq).
    - apply Hpost. apply list_elem_of_fmap. by exists (ph, lq). }
  assert (Hkeep : ∀ q lq, (q, lq) ∈ pre ++ post → lq ≠ [] →
            is_Some (Project.phases p' !! q) →
            Props.phase_completed p' q = Server.every_completed lq).
  { intros q lq Hin Hlq Hq.
    pose proof (Hother q lq Hin) as Hqp.
    unfold Props.phase_completed in *. rewrite Hne in Hq |- * by done.
    apply Hag; [|done..].
    apply elem_of_app in Hin as [Hin|Hin]; set_solver. }
  intros q lq Hin Hlq Hq.
  apply elem_of_app in Hin as [Hin|[[= -> ->]|Hin]%elem_of_cons].
  - apply Hkeep; [|done..]. apply elem_of_app. by left.
  - destruct (Project.phases p !! ph) as [st|] eqn:Hst.
    + unfold Props.phase_completed. by rewrite Heq by eauto.
    + rewrite (Hnone eq_refl), Hst in Hq. by destruct Hq.
  - apply Hkeep; [|done..]. apply elem_of_app. by right.
Qed.


(** C6. Starting from a new project, after any sequence of
    [updatePhaseStatus] calls every phase status has a date exactly when
    its flag is set; a task update answered with 200 keeps that
    property; and the call that sets the flag of a phase to false
    clears its date in that same call. *)
Theorem completedDate_present_iff_completed :
  (∀ uuid created name cs,
     Props.dates_consistent
       (Project.run (Project.constructor uuid created name) cs)) ∧
  (∀ nowT nowP taskId b p all task' p' all',
     Props.dates_consistent p →
     Server.put_task nowT nowP taskId b p all = Server.Ok200 task' p' all' →
     Props.dates_consistent p') ∧
  (∀ now k p,
     is_Some (Project.phases p !! k) →
     ∃ p', Project.updatePhaseStatus now k false p = JS.Returned p' ∧
           Project.phases p' !! k =
             Some {| PhaseStatus.completed := false;
                     PhaseStatus.completedDate := None |}).
Proof.
  split; [|split].
  - intros. apply run_dates_consistent, constructor_dates_consistent.
  - intros nowT nowP taskId b p all task' p' all' Hinv H.
    apply put_task_Ok200_inv in H
      as (ph & l & i & task & pre & post & _ & _ & _ & _ & _ & _ & _ & Hu).
    pose proof (step_dates_consistent p
      (Project.mkCall nowP ph
         (Server.every_completed (<[i := task']> l))) Hinv) as Hs.
    unfold Project.step in Hs. simpl in Hs. by rewrite Hu in Hs.
  - intros now k p Hk. eexists. split; [by apply updatePhaseStatus_own|].
    simpl. by rewrite lookup_insert_eq.
Qed.

End HandlerClaims.

(* ===================================================================== *)
(** * Task: completion, notes and evidence *)
(* ===================================================================== *)

Section TaskClaims.

Implicit Types (task : Task.t) (f now : string).

Lemma includes_spec (files : list string) f :
  Task.includes files f = true ↔ f ∈ files.
Proof.
  unfold Task.includes. rewrite existsb_exists. split.
  - intros (x & Hin & Heq). apply String.eqb_eq in Heq as ->.
    by apply list_elem_of_In.
  - intros Hin. exists f. split; [by apply list_elem_of_In|].
    apply String.eqb_refl.
Qed.

Lemma addEvidence_present f task :
  f ∈ Task.evidenceFiles task → Task.addEvidence f task = task.
Proof.
  intros Hin. unfold Task.addEvidence.
  apply includes_spec in Hin. by rewrite Hin.
Qed.

Lemma addEvidence_absent f task :
  f ∉ Task.evidenceFiles task →
  Task.addEvidence f task = Task.push_evidence f task.
Proof.
  intros Hin. unfold Task.addEvidence.
  destruct (Task.includes (Task.evidenceFiles task) f) eqn:Hi; [|done].
  by apply includes_spec in Hi.
Qed.

(** C5. The completion update of the task handler: [completed = true]
    stamps the date with the time of the request and [completed = false]
    clears it; sending the same boolean again leaves the flag as it is,
    but sending [true] again at another time replaces the date by the
    new stamp, so the task is not the same as after the first request. *)
Theorem setCompletion_stamps_or_clears now1 now2 (ns : option string) task :
  let set now c :=
    Server.update_task now {| Server.completed := Some c; Server.notes := ns |} in
  (Task.completed (set now1 true task) = true ∧
   Task.completedDate (set now1 true task) = Some now1) ∧
  (Task.completed (set now1 false task) = false ∧
   Task.completedDate (set now1 false task) = None) ∧
  (∀ c, Task.completed (set now2 c (set now1 c task)) =
        Task.completed (set now1 c task)) ∧
  Task.completedDate (set now2 true (set now1 true task)) = Some now2 ∧
  (now1 ≠ now2 →
   set now2 true (set now1 true task) ≠ set now1 true task).
Proof.
  intros set. subst set. unfold Server.update_task.
  destruct ns as [n|]; simpl.
  - repeat split. intros Hne [= H]. congruence.
  - repeat split. intros Hne [= H]. congruence.
Qed.

(** C7. [addEvidence]: a reference the task already lists is a no-op, a
    new one is appended at the end, the references already listed keep
    their order (they are a prefix of the result), the list stays free
    of duplicates, adding the same reference twice is the same as adding
    it once, also through the upload handler when it receives the same path
    twice, and 'a.pdf' added twice to a new task gives one entry. *)
Theorem addEvidence_idempotent f task :
  (f ∈ Task.evidenceFiles task → Task.addEvidence f task = task) ∧
  (f ∉ Task.evidenceFiles task →
     Task.evidenceFiles (Task.addEvidence f task) =
     Task.evidenceFiles task ++ [f]) ∧
  Task.evidenceFiles task `prefix_of`
    Task.evidenceFiles (Task.addEvidence f task) ∧
  (NoDup (Task.evidenceFiles task) →
     NoDup (Task.evidenceFiles (Task.addEvidence f task))) ∧
  Task.addEvidence f (Task.addEvidence f task) = Task.addEvidence f task ∧
  Server.add_uploaded [f; f] task = Server.add_uploaded [f] task ∧
  (∀ uuid ph title descr,
     length (Task.evidenceFiles
               (Task.addEvidence "a.pdf"
                  (Task.addEvidence "a.pdf"
                     (Task.constructor uuid ph title descr)))) = 1%nat).
Proof.
  split; [apply addEvidence_present|].
  split; [intros Hn; by rewrite addEvidence_absent|].
  destruct (decide (f ∈ Task.evidenceFiles task)) as [Hin|Hin].
  - unfold Server.add_uploaded; simpl.
    rewrite !addEvidence_present by done. repeat split; try done.
  - assert (Hout : Task.addEvidence f (Task.push_evidence f task) =
                   Task.push_evidence f task).
    { apply addEvidence_present. simpl. set_solver. }
    unfold Server.add_uploaded; simpl.
    rewrite (addEvidence_absent _ _ Hin), Hout.
    repeat split; simpl.
    + by apply prefix_app_r.
    + intros Hnd. apply NoDup_app. repeat split; [done| |apply NoDup_singleton].
      intros x Hx ->%list_elem_of_singleton. done.
Qed.

(** C9. [complete] always stores its [notes] argument, the empty string
    when none is passed: the task is completed and stamped, and notes
    stored before a call without argument are gone. *)
Theorem complete_overwrites_notes now task :
  (Task.completed (Task.complete now None task) = true ∧
   Task.completedDate (Task.complete now None task) = Some now ∧
   Task.notes (Task.complete now None task) = EmptyString) ∧
  (∀ n, Task.completed (Task.complete now (Some n) task) = true ∧
        Task.completedDate (Task.complete now (Some n) task) = Some now ∧
        Task.notes (Task.complete now (Some n) task) = n) ∧
  (Task.notes task ≠ EmptyString →
   Task.notes (Task.complete now None task) ≠ Task.notes task).
Proof.
  repeat split. simpl. congruence.
Qed.

End TaskClaims.

(* ===================================================================== *)
(** * Report: percentages and overall score *)
(* ===================================================================== *)

Section ReportClaims.

Implicit Types (all : Server.tasks) (l : list Task.t) (a : Report.acc).

Lemma phaseCompleted_le l : (Report.phaseCompleted l ≤ length l)%nat.
Proof. unfold Report.phaseCompleted. apply List.filter_length_le. Qed.

Lemma stats_fold_counts all a :
  Report.totalTasks (fold_left Report.stats_step all a) =
    (Report.totalTasks a + sum_list (map (λ e, length e.2) all))%nat ∧
  Report.completedTasks (fold_left Report.stats_step all a) =
    (Report.completedTasks a +
     sum_list (map (λ e, Report.phaseCompleted e.2) all))%nat.
Proof.
  revert a. induction all as [|[ph l] all IH]; intros a.
  - simpl. split; lia.
  - cbn [fold_left].
    destruct (IH (Report.stats_step a (ph, l))) as [-> ->]. simpl. split; lia.
Qed.

Lemma stats_loop_spec all :
  Report.totalTasks (Report.stats_loop all) =
    sum_list (map (λ e, length e.2) all) ∧
  Report.completedTasks (Report.stats_loop all) =
    sum_list (map (λ e, Report.phaseCompleted e.2) all).
Proof.
  unfold Report.stats_loop.
  destruct (stats_fold_counts all
              {| Report.totalTasks := 0; Report.completedTasks := 0;
                 Report.phaseStats :=
                   {| Report.own := []; Report.proto := None |} |})
    as [-> ->].
  done.
Qed.

Lemma completedTasks_le all :
  (Report.completedTasks (Report.stats_loop all) ≤
   Report.totalTasks (Report.stats_loop all))%nat.
Proof.
  destruct (stats_loop_spec all) as [-> ->].
  induction all as [|[ph l] all IH]; simpl; [done|].
  pose proof (phaseCompleted_le l). lia.
Qed.

(** Two entries of a dictionary under the same key are the same entry. *)
Lemma keys_functional {A} (all : list (string * A)) k (x y : A) :
  NoDup all.*1 → (k, x) ∈ all → (k, y) ∈ all → x = y.
Proof.
  induction all as [|[k0 z] all IH]; simpl; intros Hnd Hx Hy.
  - by apply elem_of_nil in Hx.
  - apply NoDup_cons in Hnd as [Hk0 Hnd].
    apply elem_of_cons in Hx as [Hx|Hx]; apply elem_of_cons in Hy as [Hy|Hy].
    + congruence.
    + injection Hx as -> ->. exfalso. apply Hk0.
      apply list_elem_of_fmap. by exists (k0, y).
    + injection Hy as -> ->. exfalso. apply Hk0.
      apply list_elem_of_fmap. by exists (k0, x).
    + by apply IH.
Qed.

Lemma find_key_None {A} (all : list (string * A)) k :
  k ∉ all.*1 → list_find (λ e, e.1 = k) all = None.
Proof.
  intros Hk. apply list_find_None, Forall_forall. intros [k' x] Hin Heq.
  simpl in Heq. subst k'. apply Hk. apply list_elem_of_fmap. by exists (k, x).
Qed.

(** The own properties of [phaseStats] after the loop: one per phase
    name other than '__proto__', in the order of the loop. *)
Lemma stats_fold_own all a :
  NoDup all.*1 →
  (∀ k, k ∈ all.*1 → k ∉ (Report.own (Report.phaseStats a)).*1) →
  Report.own (Report.phaseStats (fold_left Report.stats_step all a)) =
  Report.own (Report.phaseStats a) ++
  map (λ e, (e.1, Report.stat_of e.2)) (filter (λ e, e.1 ≠ "__proto__") all).
Proof.
  revert a. induction all as [|[ph l] all IH]; intros a Hnd Hfresh.
  - simpl. by rewrite app_nil_r.
  - rewrite fmap_cons in Hnd, Hfresh. simpl in Hnd, Hfresh.
    apply NoDup_cons in Hnd as [Hph Hnd].
    assert (Hnone : list_find (λ e : string * Report.phaseStat, e.1 = ph)
                      (Report.own (Report.phaseStats a)) = None).
    { apply find_key_None, Hfresh. apply elem_of_cons. by left. }
    cbn [fold_left]. rewrite IH; [|done|].
    + unfold Report.stats_step, Report.assign. cbn [Report.phaseStats].
      destruct (decide (ph = "__proto__")) as [->|Hne].
      * rewrite bool_decide_eq_true_2 by done. cbn [Report.own].
        by rewrite filter_cons_False by (simpl; tauto).
      * rewrite bool_decide_eq_false_2 by done. cbn [Report.own].
        rewrite Hnone, filter_cons_True by done.
        by rewrite <- app_assoc.
    + intros k Hk. unfold Report.stats_step, Report.assign.
      cbn [Report.phaseStats].
      assert (Hold : k ∉ (Report.own (Report.phaseStats a)).*1).
      { apply Hfresh. apply elem_of_cons. by right. }
      destruct (bool_decide (ph = "__proto__")); cbn [Report.own]; [done|].
      rewrite Hnone, fmap_app. simpl.
      intros [Hin|Hin]%elem_of_app; [done|].
      apply list_elem_of_singleton in Hin. by subst k.
Qed.

(** The prototype of [phaseStats] after the loop. *)
Lemma stats_fold_proto all a :
  NoDup all.*1 →
  Report.proto (Report.phaseStats (fold_left Report.stats_step all a)) =
  match list_find (λ e, e.1 = "__proto__") all with
  | Some (_, e) => Some (Report.stat_of e.2)
  | None => Report.proto (Report.phaseStats a)
  end.
Proof.
  revert a. induction all as [|[ph l] all IH]; intros a Hnd; [done|].
  rewrite fmap_cons in Hnd. simpl in Hnd.
  apply NoDup_cons in Hnd as [Hph Hnd].
  cbn [fold_left list_find]. rewrite IH by done.
  unfold Report.stats_step, Report.assign. cbn [Report.phaseStats fst].
  destruct (decide (ph = "__proto__")) as [->|Hne].
  - rewrite bool_decide_eq_true_2 by done.
    by rewrite (find_key_None all "__proto__" Hph).
  - rewrite bool_decide_eq_false_2 by done.
    by destruct (list_find _ all) as [[i e]|].
Qed.

(** Below 40 tasks the binary64 computation and the exact rounding give
    the same integer (checked on each of the 820 pairs). *)
Lemma percent_exact_below (done total : nat) :
  (done ≤ total)%nat → (total < 40)%nat →
  Report.percent done total = Some (Report.spec_round_half_up done total).
Proof.
  intros Hd Ht.
  assert (H : Report.agree_below 40 = true) by (vm_compute; reflexivity).
  unfold Report.agree_below in H. rewrite forallb_forall in H.
  specialize (H total). rewrite forallb_forall in H.
  eapply bool_decide_eq_true_1, H; apply in_seq; lia.
Qed.

Lemma percent_zero_total (done : nat) :
  Report.percent done 0 = Some 0%Z.
Proof. reflexivity. Qed.

(** C4 (as the code computes it). The statistics loop stores, for each
    phase name of the task mapping other than '__proto__', a record with
    the number of tasks, the number of completed tasks and the
    percentage, in the order of the loop; for the name '__proto__' the
    assignment creates no entry and the record becomes the prototype of
    [phaseStats]; both counts are summed over every phase.  In every
    record a percentage is 0 when the phase has no task, and the overall
    score is 0 when there is no task at all: no quotient is taken.
    Otherwise the quotient and the product are taken in binary64 before
    [Math.round]; for fewer than 40 tasks the result is the exact
    quotient rounded half up, for the phases and for the overall score,
    and 5 completed tasks of 10 give 50. *)
Theorem report_percentages_rounded_half_up all :
  NoDup all.*1 →
  let a := Report.stats_loop all in
  Report.own (Report.phaseStats a) =
    map (λ e, (e.1, Report.stat_of e.2))
        (filter (λ e, e.1 ≠ "__proto__") all) ∧
  (∀ l, ("__proto__", l) ∈ all →
     Report.proto (Report.phaseStats a) = Some (Report.stat_of l)) ∧
  ("__proto__" ∉ all.*1 → Report.proto (Report.phaseStats a) = None) ∧
  Report.totalTasks a = sum_list (map (λ e, length e.2) all) ∧
  Report.completedTasks a =
    sum_list (map (λ e, Report.phaseCompleted e.2) all) ∧
  (∀ st, Report.recorded (Report.phaseStats a) st →
     Report.total st = 0%nat → Report.percentage st = Some 0%Z) ∧
  (∀ st, Report.recorded (Report.phaseStats a) st →
     (Report.total st < 40)%nat →
     Report.percentage st =
       Some (Report.spec_round_half_up (Report.completed st) (Report.total st))) ∧
  (Report.totalTasks a = 0%nat →
     Report.overallSecurityScore all = Some 0%Z) ∧
  ((Report.totalTasks a < 40)%nat →
     Report.overallSecurityScore all =
       Some (Report.spec_round_half_up
               (Report.completedTasks a) (Report.totalTasks a))) ∧
  (Report.totalTasks a = 10%nat → Report.completedTasks a = 5%nat →
     Report.overallSecurityScore all = Some 50%Z).
Proof.
  intros Hnd a.
  assert (Hown : Report.own (Report.phaseStats a) =
            map (λ e, (e.1, Report.stat_of e.2))
                (filter (λ e, e.1 ≠ "__proto__") all)).
  { subst a. unfold Report.stats_loop.
    rewrite stats_fold_own; [done|done|].
    intros k _ Hk. by apply elem_of_nil in Hk. }
  assert (Hproto : Report.proto (Report.phaseStats a) =
            match list_find (λ e, e.1 = "__proto__") all with
            | Some (_, e) => Some (Report.stat_of e.2)
            | None => None
            end).
  { subst a. unfold Report.stats_loop. by rewrite stats_fold_proto. }
  assert (Hstat : ∀ st, Report.recorded (Report.phaseStats a) st →
            ∃ l, st = Report.stat_of l).
  { intros st [[ph Hin]|Hp].
    - rewrite Hown in Hin.
      apply list_elem_of_fmap in Hin as ([ph' l] & [= -> ->] & _). eauto.
    - rewrite Hproto in Hp.
      destruct (list_find _ all) as [[i e]|]; [|done].
      injection Hp as <-. eauto. }
  destruct (stats_loop_spec all) as [Htot Hcom]. fold a in Htot, Hcom.
  split; [exact Hown|].
  split; [|split; [|split; [exact Htot|split; [exact Hcom|]]]].
  - intros l Hin. rewrite Hproto.
    destruct (list_find (λ e : string * list Task.t, e.1 = "__proto__") all)
      as [[i [k l']]|] eqn:Hf.
    + apply list_find_Some in Hf as (Hl' & Hk & _). simpl in Hk. subst k.
      apply list_elem_of_lookup_2 in Hl'.
      by rewrite (keys_functional all "__proto__" l l' Hnd Hin Hl').
    + apply list_find_None in Hf. rewrite Forall_forall in Hf.
      by destruct (Hf _ Hin).
  - intros Hk. rewrite Hproto. by rewrite (find_key_None all "__proto__" Hk).
  - split; [|split; [|split; [|split]]].
    + intros st [l ->]%Hstat. simpl. intros ->. apply percent_zero_total.
    + intros st [l ->]%Hstat. simpl. intros Hlt.
      apply percent_exact_below; [apply phaseCompleted_le|done].
    + unfold Report.overallSecurityScore. fold a. intros ->.
      apply percent_zero_total.
    + unfold Report.overallSecurityScore. fold a. intros Hlt.
      apply percent_exact_below; [|done].
      subst a. apply completedTasks_le.
    + unfold Report.overallSecurityScore. fold a. intros -> ->.
      vm_compute. reflexivity.
Qed.

(** C4 (the specification's rounding fails). One phase of 40 tasks, 23
    of them completed: the exact quotient is 57.5, which rounds half up
    to 58, but [(23 / 40) * 100] is 57.49999999999999 in binary64 and
    [Math.round] gives 57, for the phase and for the overall score. *)
Lemma percentage_23_of_40_is_57 :
  let all := [("planning", Report.sample_tasks "planning" 23 40)] in
  Report.own (Report.phaseStats (Report.stats_loop all)) =
    [("planning",
      {| Report.total := 40; Report.completed := 23;
         Report.percentage := Some 57%Z |})] ∧
  Report.overallSecurityScore all = Some 57%Z ∧
  Report.spec_round_half_up 23 40 = 58%Z ∧
  Report.overallSecurityScore all ≠ Some (Report.spec_round_half_up 23 40).
Proof.
  repeat split; try (vm_compute; reflexivity).
  vm_compute. discriminate.
Qed.

End ReportClaims.

(* ===================================================================== *)
(** * The properties at work on the repository's fixtures *)
(* ===================================================================== *)

(** After the five phases of 'Acme' are completed one by one, and the
    planning phase is reopened, the overall status follows the flags. *)
Lemma overallStatus_iff_all_phases_completed_acme :
  let c := Project.mkCall "2024-03-01T00:00:00.000Z" "planning" false in
  let p' := Project.run Props.acme (Props.complete_all ++ [c]) in
  Props.five_phases Props.acme ∧
  (∀ c', c' ∈ Props.complete_all ++ [c] →
         Project.call_phase c' ∈ Project.PHASES) ∧
  Project.overallStatus (Project.run Props.acme Props.complete_all) = "Completed" ∧
  Project.overallStatus p' = "In Progress" ∧
  ((Project.overallStatus p' = "Completed" ↔
      ∀ k, k ∈ Project.PHASES → Props.phase_completed p' k = true) ∧
   (Project.overallStatus p' = "In Progress" ↔
      ¬ ∀ k, k ∈ Project.PHASES → Props.phase_completed p' k = true) ∧
   (∀ s, Project.run (Props.with_overallStatus s Props.acme)
           (Props.complete_all ++ [c]) = p')).
Proof.
  intros c p'.
  assert (Hval : ∀ c', c' ∈ Props.complete_all ++ [c] →
                       Project.call_phase c' ∈ Project.PHASES).
  { intros c' Hc'. apply list_elem_of_In in Hc'. apply list_elem_of_In.
    simpl in Hc'. simpl.
    repeat (destruct Hc' as [<-|Hc']; [simpl; tauto|]). destruct Hc'. }
  split; [apply constructor_five_phases|].
  split; [exact Hval|].
  split; [reflexivity|].
  split; [reflexivity|].
  exact (overallStatus_iff_all_phases_completed Props.acme Props.complete_all c
           (constructor_five_phases _ _ _) Hval).
Defined.

(** Completing the first planning task of 'Acme'. *)
Lemma phase_complete_iff_every_task_completed_acme :
  let b := {| Server.completed := Some true; Server.notes := None |} in
  ∃ task' p' all',
    Server.put_task "2024-03-01T00:00:00.000Z" "2024-03-01T00:00:00.001Z"
      "t0" b Props.acme Props.acme_tasks = Server.Ok200 task' p' all' ∧
    ∃ ph l',
      (ph, l') ∈ all' ∧ task' ∈ l' ∧ l' ≠ [] ∧
      (is_Some (Project.phases Props.acme !! ph) →
         Props.phase_completed p' ph = true ↔
         ∀ t, t ∈ l' → Task.completed t = true) ∧
      (∀ q, (∀ lq, (q, lq) ∈ all' → lq = []) →
         Project.phases p' !! q = Project.phases Props.acme !! q ∧
         Props.phase_completed p' q = Props.phase_completed Props.acme q) ∧
      (∀ q, (∀ lq, (q, lq) ∈ all' → lq = []) ↔
            (∀ lq, (q, lq) ∈ Props.acme_tasks → lq = [])) ∧
      ((∀ q, (∀ lq, (q, lq) ∈ Props.acme_tasks → lq = []) →
             Props.phase_completed Props.acme q = false) →
       ∀ q, (∀ lq, (q, lq) ∈ all' → lq = []) →
            Props.phase_completed p' q = false).
Proof.
  intros b. eexists _, _, _. split; [reflexivity|].
  eapply (phase_complete_iff_every_task_completed
            "2024-03-01T00:00:00.000Z" "2024-03-01T00:00:00.001Z" "t0" b
            Props.acme Props.acme_tasks).
  reflexivity.
Defined.

(** Completing the second design task of 'Acme'. *)
Lemma task_update_touches_one_phase_acme :
  let b := {| Server.completed := Some true; Server.notes := Some "done" |} in
  ∃ task' p' all',
    Server.put_task "2024-03-01T00:00:00.000Z" "2024-03-01T00:00:00.001Z"
      "t3" b Props.acme Props.acme_tasks = Server.Ok200 task' p' all' ∧
    ∃ ph l i task,
      Server.locate "t3" Props.acme_tasks = Some (ph, l, i, task) ∧
      task' = Server.update_task "2024-03-01T00:00:00.000Z" b task ∧
      (∀ q, q ≠ ph → Project.phases p' !! q = Project.phases Props.acme !! q) ∧
      Project.id p' = Project.id Props.acme ∧
      Project.name p' = Project.name Props.acme ∧
      Project.createdDate p' = Project.createdDate Props.acme.
Proof.
  intros b. eexists _, _, _. split; [reflexivity|].
  eapply (task_update_touches_one_phase
            "2024-03-01T00:00:00.000Z" "2024-03-01T00:00:00.001Z" "t3" b
            Props.acme Props.acme_tasks).
  reflexivity.
Defined.


(** The dates of 'Acme' after planning was completed and reopened, after a
    task update, and after an explicit reopening of design. *)
Lemma completedDate_present_iff_completed_acme :
  let cs := [Project.mkCall "2024-03-01T00:00:00.000Z" "planning" true;
             Project.mkCall "2024-03-02T00:00:00.000Z" "planning" false] in
  let b := {| Server.completed := Some false; Server.notes := None |} in
  Props.dates_consistent (Project.run Props.acme cs) ∧
  (Props.dates_consistent Props.planning_done.1 ∧
   ∃ task' p' all',
     Server.put_task "2024-05-01T08:00:00.000Z" "2024-05-01T08:00:00.001Z"
       "t1" b Props.planning_done.1 Props.planning_done.2
     = Server.Ok200 task' p' all' ∧
     Project.phases p' !! "planning" =
       Some {| PhaseStatus.completed := false;
               PhaseStatus.completedDate := None |} ∧
     Props.dates_consistent p') ∧
  (is_Some (Project.phases Props.planning_done.1 !! "planning") ∧
   ∃ p', Project.updatePhaseStatus "2024-05-01T08:00:00.000Z" "planning" false
           Props.planning_done.1 = JS.Returned p' ∧
         Project.phases p' !! "planning" =
           Some {| PhaseStatus.completed := false;
                   PhaseStatus.completedDate := None |}).
Proof.
  intros cs b.
  destruct completedDate_present_iff_completed as (Hrun & Hput & Hclear).
  assert (Hpd : Props.dates_consistent Props.planning_done.1).
  { exact (Hrun "p-1" "2024-01-01T00:00:00.000Z" "Acme"
             [Project.mkCall "2024-01-02T10:00:00.001Z" "planning" false;
              Project.mkCall "2024-01-03T10:00:00.001Z" "planning" true]). }
  split; [apply (Hrun "p-1" "2024-01-01T00:00:00.000Z" "Acme" cs)|].
  split.
  - split; [exact Hpd|].
    eexists _, _, _. split; [vm_compute; reflexivity|].
    split; [vm_compute; reflexivity|].
    eapply (Hput "2024-05-01T08:00:00.000Z" "2024-05-01T08:00:00.001Z" "t1" b
              Props.planning_done.1 Props.planning_done.2);
      [exact Hpd|vm_compute; reflexivity].
  - split; [by eexists|]. apply Hclear. by eexists.
Defined.

(** Two completion requests for the same task, one millisecond apart. *)
Lemma setCompletion_stamps_or_clears_t0 :
  let now1 := "2024-03-01T00:00:00.000Z" in
  let now2 := "2024-03-01T00:00:00.001Z" in
  let task := Task.constructor "t0" "planning" "Threat Modeling" "d" in
  let set now c :=
    Server.update_task now {| Server.completed := Some c; Server.notes := None |} in
  now1 ≠ now2 ∧
  Task.completedDate (set now2 true (set now1 true task)) = Some now2 ∧
  set now2 true (set now1 true task) ≠ set now1 true task.
Proof.
  intros now1 now2 task set.
  pose proof (setCompletion_stamps_or_clears now1 now2 None task)
    as (_ & _ & _ & Hdate & Hne).
  assert (Hneq : now1 ≠ now2) by discriminate.
  split; [exact Hneq|]. split; [exact Hdate|exact (Hne Hneq)].
Defined.

(** 'a.pdf' on a task that lists it, 'b.pdf' on a task that does not. *)
Lemma addEvidence_idempotent_a_pdf :
  let task :=
    Task.addEvidence "a.pdf"
      (Task.constructor "t0" "planning" "Threat Modeling" "d") in
  ("a.pdf" ∈ Task.evidenceFiles task ∧ Task.addEvidence "a.pdf" task = task) ∧
  (("b.pdf" ∉ Task.evidenceFiles task) ∧
   Task.evidenceFiles (Task.addEvidence "b.pdf" task) = ["a.pdf"; "b.pdf"]) ∧
  (NoDup (Task.evidenceFiles task) ∧
   NoDup (Task.evidenceFiles (Task.addEvidence "b.pdf" task))).
Proof.
  intros task.
  assert (Ha : "a.pdf" ∈ Task.evidenceFiles task) by (simpl; set_solver).
  assert (Hb : "b.pdf" ∉ Task.evidenceFiles task).
  { simpl. intros [=]%list_elem_of_singleton. }
  assert (Hnd : NoDup (Task.evidenceFiles task)) by (simpl; apply NoDup_singleton).
  pose proof (addEvidence_idempotent "a.pdf" task) as (Hnoop & _).
  pose proof (addEvidence_idempotent "b.pdf" task) as (_ & Happ & _ & Hnd' & _).
  split; [split; [exact Ha|exact (Hnoop Ha)]|].
  split; [split; [exact Hb|exact (Happ Hb)]|].
  split; [exact Hnd|exact (Hnd' Hnd)].
Defined.

(** A task carrying notes, completed without a notes argument. *)
Lemma complete_overwrites_notes_t0 :
  let task :=
    Server.update_task "2024-03-01T00:00:00.000Z"
      {| Server.completed := None; Server.notes := Some "keep me" |}
      (Task.constructor "t0" "planning" "Threat Modeling" "d") in
  Task.notes task ≠ EmptyString ∧
  Task.notes (Task.complete "2024-03-02T00:00:00.000Z" None task) ≠ Task.notes task.
Proof.
  intros task.
  assert (Hn : Task.notes task ≠ EmptyString) by discriminate.
  split; [exact Hn|].
  exact (proj2 (proj2 (complete_overwrites_notes "2024-03-02T00:00:00.000Z" task)) Hn).
Defined.

(** The report of ten tasks of which five are completed. *)
Lemma report_percentages_rounded_half_up_half_done :
  let all := Props.half_done_tasks in
  let a := Report.stats_loop all in
  NoDup all.*1 ∧
  Report.totalTasks a = 10%nat ∧ Report.completedTasks a = 5%nat ∧
  (Report.totalTasks a < 40)%nat ∧
  Report.overallSecurityScore all = Some 50%Z ∧
  Report.overallSecurityScore all =
    Some (Report.spec_round_half_up (Report.completedTasks a) (Report.totalTasks a)) ∧
  Forall (λ e, Report.percentage e.2 = Some 50%Z)
    (Report.own (Report.phaseStats a)) ∧
  Report.proto (Report.phaseStats a) = None ∧
  let named := [("planning", Report.sample_tasks "planning" 1 2);
                ("__proto__", Report.sample_tasks "__proto__" 2 2)] in
  NoDup named.*1 ∧
  Report.own (Report.phaseStats (Report.stats_loop named)) =
    [("planning", {| Report.total := 2; Report.completed := 1;
                     Report.percentage := Some 50%Z |})] ∧
  Report.proto (Report.phaseStats (Report.stats_loop named)) =
    Some {| Report.total := 2; Report.completed := 2;
            Report.percentage := Some 100%Z |}.
Proof.
  intros all a.
  assert (Hnd : NoDup all.*1).
  { apply (bool_decide_unpack _). vm_compute. exact I. }
  pose proof (report_percentages_rounded_half_up all Hnd)
    as (_ & _ & Hnone & _ & _ & _ & Hph & _ & Hlt & H50).
  assert (Ht : Report.totalTasks a = 10%nat) by reflexivity.
  assert (Hc : Report.completedTasks a = 5%nat) by reflexivity.
  assert (H40 : (Report.totalTasks a < 40)%nat) by (rewrite Ht; lia).
  split; [exact Hnd|].
  split; [exact Ht|]. split; [exact Hc|]. split; [exact H40|].
  split; [exact (H50 Ht Hc)|]. split; [exact (Hlt H40)|].
  split.
  - apply Forall_forall. intros [ph st] Hin. simpl.
    assert (Hrec : Report.recorded (Report.phaseStats (Report.stats_loop all)) st)
      by (left; by exists ph).
    rewrite (Hph st Hrec).
    + apply list_elem_of_In in Hin. simpl in Hin.
      repeat (destruct Hin as [[= <- <-]|Hin]; [reflexivity|]). destruct Hin.
    + apply list_elem_of_In in Hin. simpl in Hin.
      repeat (destruct Hin as [[= <- <-]|Hin]; [simpl; lia|]). destruct Hin.
  - split; [apply Hnone; apply (bool_decide_unpack _); vm_compute; exact I|].
    intros named.
    assert (Hnd2 : NoDup named.*1).
    { apply (bool_decide_unpack _). vm_compute. exact I. }
    pose proof (report_percentages_rounded_half_up named Hnd2)
      as (Hown2 & Hproto2 & _).
    split; [exact Hnd2|]. split.
    + rewrite Hown2. vm_compute. reflexivity.
    + rewrite (Hproto2 (Report.sample_tasks "__proto__" 2 2)).
      * vm_compute. reflexivity.
      * apply elem_of_cons. right. apply elem_of_cons. by left.
Defined.

(* ===================================================================== *)
(** * The task dictionary under updates and uploads *)
(* ===================================================================== *)

Section Dictionary.

Implicit Types (p : Project.t) (all pre post seen rest : list (string * list Task.t))
  (l : list Task.t) (task : Task.t) (b : Server.body)
  (taskId nowT nowP ph : string) (paths : list string).

Lemma findIndex_None taskId l :
  Server.findIndex taskId l = None ↔ ∀ t, t ∈ l → Task.id t ≠ taskId.
Proof.
  unfold Server.findIndex. rewrite list_find_None, Forall_forall. done.
Qed.

Lemma locate_None taskId all :
  Server.locate taskId all = None ↔
  ∀ ph l t, (ph, l) ∈ all → t ∈ l → Task.id t ≠ taskId.
Proof.
  induction all as [|[ph0 l0] all IH]; simpl.
  - split; [|done]. intros _ ph l t Hin. by apply elem_of_nil in Hin.
  - destruct (Server.findIndex taskId l0) as [[i0 t0]|] eqn:Hf.
    + split; [done|]. intros H. exfalso.
      apply findIndex_Some in Hf as (Hl & Hid & _).
      apply (H ph0 l0 t0); [apply elem_of_cons; by left| |done].
      apply list_elem_of_lookup. eauto.
    + rewrite IH. pose proof (proj1 (findIndex_None _ _) Hf) as Hf'. split.
      * intros H ph l t [[= -> ->]|Hin]%elem_of_cons Ht; eauto.
      * intros H ph l t Hin. apply (H ph l t). apply elem_of_cons. by right.
Qed.

Lemma elem_of_insert_inv {A} (xs : list A) i x y :
  y ∈ <[i := x]> xs → y = x ∨ y ∈ xs.
Proof.
  revert i. induction xs as [|x0 xs IH]; intros [|i]; simpl;
    rewrite ?elem_of_cons; try tauto.
  intros [->|H]; [tauto|]. destruct (IH _ H); tauto.
Qed.

(** Replacing the task found by one with the same completion flag and the
    same fixed fields keeps what the dictionary is known to satisfy. *)
Lemma replace_layout pre post ph l i task task' :
  l !! i = Some task →
  Lifecycle.fixed_fields task' = Lifecycle.fixed_fields task →
  Lifecycle.layout (pre ++ (ph, <[i := task']> l) :: post) =
  Lifecycle.layout (pre ++ (ph, l) :: post).
Proof.
  intros Hl Hf. unfold Lifecycle.layout.
  rewrite !map_app. simpl. do 3 f_equal.
  change (map Lifecycle.fixed_fields ?x) with (Lifecycle.fixed_fields <$> x).
  rewrite list_fmap_insert, Hf. apply list_insert_id.
  by rewrite list_lookup_fmap, Hl.
Qed.

Lemma replace_every_task (P : Task.t → Prop) pre post ph l i task' :
  P task' →
  Lifecycle.every_task P (pre ++ (ph, l) :: post) →
  Lifecycle.every_task P (pre ++ (ph, <[i := task']> l) :: post).
Proof.
  intros HP Hall q lq t Hin Ht.
  apply elem_of_app in Hin as [Hin|[[= -> ->]|Hin]%elem_of_cons].
  - apply (Hall q lq); [set_solver|done].
  - apply elem_of_insert_inv in Ht as [->|Ht]; [done|].
    apply (Hall ph l); [set_solver|done].
  - apply (Hall q lq); [set_solver|done].
Qed.

Lemma replace_flags_agree p pre post ph l i task task' :
  l !! i = Some task →
  Task.completed task' = Task.completed task →
  Props.flags_agree p (pre ++ (ph, l) :: post) →
  Props.flags_agree p (pre ++ (ph, <[i := task']> l) :: post).
Proof.
  intros Hl Hc [Hnd Hag]. split.
  { by rewrite fmap_app, fmap_cons in Hnd |- *. }
  intros q lq Hin Hlq Hq.
  apply elem_of_app in Hin as [Hin|[[= -> ->]|Hin]%elem_of_cons].
  - apply Hag; [set_solver|done..].
  - rewrite (every_completed_insert_same _ _ _ _ Hl Hc).
    apply Hag; [set_solver| |done].
    intros ->. by rewrite lookup_nil in Hl.
  - apply Hag; [set_solver|done..].
Qed.

Lemma upload_loop_skip taskId paths seen pre rest :
  Forall (λ e, Server.findIndex taskId e.2 = None) pre →
  Evidence.upload_loop taskId paths seen (pre ++ rest) =
  Evidence.upload_loop taskId paths (seen ++ pre) rest.
Proof.
  intros Hpre. revert seen.
  induction Hpre as [|[ph0 l0] pre Hn _ IH]; intros seen; simpl.
  - by rewrite app_nil_r.
  - simpl in Hn. rewrite Hn, IH. by rewrite <- app_assoc.
Qed.

Lemma upload_loop_Some taskId paths all task' all' :
  Evidence.upload_loop taskId paths [] all = Some (task', all') →
  ∃ ph l i task pre post,
    Server.locate taskId all = Some (ph, l, i, task) ∧
    all = pre ++ (ph, l) :: post ∧
    Forall (λ e, Server.findIndex taskId e.2 = None) pre ∧
    l !! i = Some task ∧ Task.id task = taskId ∧
    task' = Server.add_uploaded paths task ∧
    all' = pre ++ (ph, <[i := task']> l) :: post.
Proof.
  intros H.
  destruct (Server.locate taskId all) as [[[[ph l] i] task]|] eqn:Hloc.
  - destruct (locate_split _ _ _ _ _ _ Hloc) as (pre & post & -> & Hpre & Hf).
    rewrite upload_loop_skip in H by done. simpl in H. rewrite Hf in H.
    injection H as <- <-.
    destruct (findIndex_Some _ _ _ _ Hf) as (Hl & Hid & _).
    exists ph, l, i, task, pre, post. by repeat split.
  - exfalso. clear -H Hloc. revert H. generalize (@nil (string * list Task.t)).
    induction all as [|[ph0 l0] all IH]; intros seen; simpl in *; [done|].
    destruct (Server.findIndex taskId l0) as [[i0 t0]|]; [done|]. eauto.
Qed.

Lemma upload_loop_located taskId paths all ph l i task :
  Server.locate taskId all = Some (ph, l, i, task) →
  ∃ pre post,
    all = pre ++ (ph, l) :: post ∧
    Evidence.upload_loop taskId paths [] all =
      Some (Server.add_uploaded paths task,
            pre ++ (ph, <[i := Server.add_uploaded paths task]> l) :: post).
Proof.
  intros Hloc.
  destruct (locate_split _ _ _ _ _ _ Hloc) as (pre & post & -> & Hpre & Hf).
  exists pre, post. split; [done|].
  rewrite upload_loop_skip by done. simpl. by rewrite Hf.
Qed.

End Dictionary.

(* ===================================================================== *)
(** * A created project under any sequence of requests *)
(* ===================================================================== *)

Section LifecycleFacts.

Implicit Types (p : Project.t) (all : list (string * list Task.t))
  (l : list Task.t) (task : Task.t) (b : Server.body)
  (taskId nowT nowP ph uuid now name : string) (paths uuids : list string)
  (st : Lifecycle.state) (r : Lifecycle.request) (rs : list Lifecycle.request).

Lemma update_task_fixed nowT b task :
  Lifecycle.fixed_fields (Server.update_task nowT b task) =
  Lifecycle.fixed_fields task ∧
  Task.evidenceFiles (Server.update_task nowT b task) = Task.evidenceFiles task.
Proof.
  unfold Server.update_task. by destruct (Server.completed b), (Server.notes b).
Qed.

Lemma update_task_dated nowT b task :
  Lifecycle.task_dated task →
  Lifecycle.task_dated (Server.update_task nowT b task).
Proof.
  unfold Lifecycle.task_dated, Server.update_task.
  destruct (Server.completed b) as [[|]|], (Server.notes b); simpl; try done.
  all: intros _; split; try done; by eauto.
Qed.

Lemma addEvidence_fixed (f : string) task :
  Lifecycle.fixed_fields (Task.addEvidence f task) = Lifecycle.fixed_fields task ∧
  Task.completed (Task.addEvidence f task) = Task.completed task ∧
  Task.completedDate (Task.addEvidence f task) = Task.completedDate task ∧
  Task.notes (Task.addEvidence f task) = Task.notes task.
Proof.
  unfold Task.addEvidence.
  by destruct (negb (Task.includes (Task.evidenceFiles task) f)).
Qed.

Lemma addEvidence_NoDup (f : string) task :
  NoDup (Task.evidenceFiles task) →
  NoDup (Task.evidenceFiles (Task.addEvidence f task)).
Proof.
  intros Hnd. destruct (decide (f ∈ Task.evidenceFiles task)) as [Hin|Hin].
  - by rewrite addEvidence_present.
  - rewrite addEvidence_absent by done. simpl.
    apply NoDup_app. repeat split; [done| |apply NoDup_singleton].
    intros x Hx ->%list_elem_of_singleton. done.
Qed.

Lemma add_uploaded_fixed paths task :
  Lifecycle.fixed_fields (Server.add_uploaded paths task) =
  Lifecycle.fixed_fields task ∧
  Task.completed (Server.add_uploaded paths task) = Task.completed task ∧
  Task.completedDate (Server.add_uploaded paths task) = Task.completedDate task ∧
  Task.notes (Server.add_uploaded paths task) = Task.notes task.
Proof.
  unfold Server.add_uploaded. revert task.
  induction paths as [|f paths IH]; intros task; simpl; [done|].
  destruct (IH (Task.addEvidence f task)) as (-> & -> & -> & ->).
  apply addEvidence_fixed.
Qed.

Lemma add_uploaded_NoDup paths task :
  NoDup (Task.evidenceFiles task) →
  NoDup (Task.evidenceFiles (Server.add_uploaded paths task)).
Proof.
  unfold Server.add_uploaded. revert task.
  induction paths as [|f paths IH]; intros task Hnd; simpl; [done|].
  by apply IH, addEvidence_NoDup.
Qed.

Lemma created_invariant uuid now name uuids :
  Lifecycle.invariant uuid now name uuids (Lifecycle.created uuid now name uuids).
Proof.
  unfold Lifecycle.invariant, Lifecycle.created; simpl.
  split; [apply constructor_five_phases|].
  split; [apply new_project_flags_agree|].
  split; [reflexivity|].
  split; [apply constructor_dates_consistent|].
  split; [done|]. split; [done|].
  split.
  - intros ph l t Hin Ht. apply list_elem_of_In in Hin. simpl in Hin.
    repeat (destruct Hin as [[= <- <-]|Hin];
            [apply list_elem_of_In in Ht; simpl in Ht;
             repeat (destruct Ht as [<-|Ht];
                     [split; [by intros [? ?]|done]|]); destruct Ht|]).
    destruct Hin.
  - intros ph l t Hin Ht. apply list_elem_of_In in Hin. simpl in Hin.
    repeat (destruct Hin as [[= <- <-]|Hin];
            [apply list_elem_of_In in Ht; simpl in Ht;
             repeat (destruct Ht as [<-|Ht]; [apply NoDup_nil_2|]);
             destruct Ht|]).
    destruct Hin.
Qed.

Lemma serve_invariant uuid now name uuids st r :
  Lifecycle.invariant uuid now name uuids st →
  Lifecycle.invariant uuid now name uuids (Lifecycle.serve st r).
Proof.
  destruct st as [p all]. intros Hinv.
  pose proof Hinv
    as (Hfive & Hflags & Hstat & Hdates & (Hid & Hname & Hcd) & Hlay & Hdt & Hnd).
  simpl in Hfive, Hflags, Hstat, Hdates, Hid, Hname, Hcd, Hlay, Hdt, Hnd.
  destruct r as [nowT nowP taskId b|taskId paths]; simpl.
  - destruct (Server.put_task nowT nowP taskId b p all)
      as [task' p' all'| |msg] eqn:Hput; simpl; [|exact Hinv..].
    pose proof (put_task_flags_agree _ _ _ _ _ _ _ _ _ Hflags Hput) as Hflags'.
    apply put_task_Ok200_inv in Hput
      as (ph & l & i & task & pre & post & _ & -> & _ & Hl & _ & -> & -> & Hu).
    pose proof (step_five_phases p
      (Project.mkCall nowP ph
         (Server.every_completed (<[i := Server.update_task nowT b task]> l)))
      Hfive) as H5.
    pose proof (step_dates_consistent p
      (Project.mkCall nowP ph
         (Server.every_completed (<[i := Server.update_task nowT b task]> l)))
      Hdates) as Hd.
    unfold Project.step in H5, Hd. simpl in H5, Hd. rewrite Hu in H5, Hd.
    apply updatePhaseStatus_Returned in Hu
      as (Hid' & Hname' & Hcd' & _ & _ & _ & Hstat').
    destruct (update_task_fixed nowT b task) as [Hff Hev].
    assert (Hin : task ∈ l) by (apply list_elem_of_lookup; eauto).
    unfold Lifecycle.invariant; simpl.
    split; [exact H5|]. split; [exact Hflags'|]. split; [exact Hstat'|].
    split; [exact Hd|]. split; [repeat split; congruence|].
    split; [etrans; [by eapply replace_layout|exact Hlay]|].
    split.
    + apply replace_every_task; [|done]. apply update_task_dated.
      apply (Hdt ph l); [set_solver|done].
    + apply replace_every_task; [|done]. rewrite Hev.
      apply (Hnd ph l); [set_solver|done].
  - destruct (Evidence.upload_loop taskId paths [] all)
      as [[task' all']|] eqn:Hup; simpl; [|exact Hinv].
    apply upload_loop_Some in Hup
      as (ph & l & i & task & pre & post & _ & -> & _ & Hl & _ & -> & ->).
    destruct (add_uploaded_fixed paths task) as (Hff & Hc & Hcdt & _).
    assert (Hin : task ∈ l) by (apply list_elem_of_lookup; eauto).
    unfold Lifecycle.invariant; simpl.
    split; [exact Hfive|].
    split; [by eapply replace_flags_agree|]. split; [exact Hstat|].
    split; [exact Hdates|]. split; [done|].
    split; [etrans; [by eapply replace_layout|exact Hlay]|].
    split.
    + apply replace_every_task; [|done].
      unfold Lifecycle.task_dated. rewrite Hc, Hcdt.
      apply (Hdt ph l); [set_solver|done].
    + apply replace_every_task; [|done]. apply add_uploaded_NoDup.
      apply (Hnd ph l); [set_solver|done].
Qed.

Lemma run_invariant uuid now name uuids rs :
  Lifecycle.invariant uuid now name uuids
    (Lifecycle.run (Lifecycle.created uuid now name uuids) rs).
Proof.
  unfold Lifecycle.run.
  generalize (created_invariant uuid now name uuids).
  generalize (Lifecycle.created uuid now name uuids).
  induction rs as [|r rs IH]; intros st Hinv; simpl; [done|].
  by apply IH, serve_invariant.
Qed.

(** The keys of a dictionary laid out as the default one are the five
    phases, and each of them has tasks. *)
Lemma layout_keys uuids all :
  Lifecycle.layout all = Lifecycle.layout (Task.getDefaultTasks uuids) →
  all.*1 = Project.PHASES ∧
  (∀ ph l, (ph, l) ∈ all → l ≠ []) ∧
  (∀ ph, ph ∈ Project.PHASES → ∃ l, (ph, l) ∈ all).
Proof.
  intros Hlay.
  assert (Hkeys : all.*1 = Project.PHASES).
  { transitivity ((Lifecycle.layout all).*1).
    - unfold Lifecycle.layout. rewrite <- list_fmap_compose. done.
    - by rewrite Hlay. }
  split; [done|]. split.
  - intros ph l Hin ->.
    assert (Hin' : (ph, []) ∈ Lifecycle.layout all).
    { unfold Lifecycle.layout. apply list_elem_of_fmap. by exists (ph, []). }
    rewrite Hlay in Hin'. apply list_elem_of_In in Hin'. simpl in Hin'.
    repeat (destruct Hin' as [Hin'|Hin']; [discriminate Hin'|]). destruct Hin'.
  - intros ph Hph. rewrite <- Hkeys in Hph.
    apply list_elem_of_fmap in Hph as ([ph' l] & -> & Hin). by exists l.
Qed.

End LifecycleFacts.

Section LifecycleProperties.

Implicit Types (p : Project.t) (all : list (string * list Task.t))
  (l : list Task.t) (task : Task.t) (b : Server.body)
  (taskId nowT nowP ph uuid now name : string) (paths uuids : list string)
  (rs : list Lifecycle.request).

(** X1. The update handler answers 'Task not found' exactly when no task
    of any phase has the id.  When a task has it, the answer is 200 if
    the phase it sits in is a phase of the project, and 500 if that phase
    name is unknown to the project and not inherited. *)
Theorem put_task_answers taskId nowT nowP b p all :
  (Server.put_task nowT nowP taskId b p all = Server.NotFound404 ↔
     ∀ ph l t, (ph, l) ∈ all → t ∈ l → Task.id t ≠ taskId) ∧
  (∀ ph l i task,
     Server.locate taskId all = Some (ph, l, i, task) →
     is_Some (Project.phases p !! ph) →
     ∃ p' all',
       Server.put_task nowT nowP taskId b p all =
       Server.Ok200 (Server.update_task nowT b task) p' all') ∧
  (∀ ph l i task,
     Server.locate taskId all = Some (ph, l, i, task) →
     Project.phases p !! ph = None → ph ∉ JS.Object_prototype_keys →
     Server.put_task nowT nowP taskId b p all =
     Server.Error500 "Failed to update task").
Proof.
  split; [|split].
  - rewrite <- locate_None. split.
    + intros H.
      destruct (Server.locate taskId all) as [[[[ph l] i] task]|] eqn:Hloc;
        [|done].
      destruct (locate_split _ _ _ _ _ _ Hloc) as (pre & post & Hall & Hpre & Hf).
      rewrite (put_task_located nowT nowP _ b p _ _ _ _ _ _ _ Hall Hpre Hf) in H.
      by destruct (Project.updatePhaseStatus _ _ _ p).
    + intros Hloc. by apply update_loop_not_found.
  - intros ph l i task Hloc Hph. by eapply put_task_succeeds.
  - intros ph l i task Hloc Hnone Hni.
    destruct (locate_split _ _ _ _ _ _ Hloc) as (pre & post & Hall & Hpre & Hf).
    rewrite (put_task_located nowT nowP _ b p _ _ _ _ _ _ _ Hall Hpre Hf).
    by destruct (updatePhaseStatus_throws nowP ph
      (Server.every_completed (<[i := Server.update_task nowT b task]> l)) p
      Hnone Hni) as [-> _].
Qed.

(** X2. A task update answered with 200 replaces one task of the
    dictionary, where it stood: the phases, their order, the number of
    tasks and every other task are the same, and of the task itself the
    id, phase, title, description and evidence files are unchanged. *)
Theorem put_task_changes_one_task nowT nowP taskId b p all task' p' all' :
  Server.put_task nowT nowP taskId b p all = Server.Ok200 task' p' all' →
  ∃ pre ph l post i task,
    all = pre ++ (ph, l) :: post ∧
    l !! i = Some task ∧ Task.id task = taskId ∧
    all' = pre ++ (ph, <[i := task']> l) :: post ∧
    Lifecycle.fixed_fields task' = Lifecycle.fixed_fields task ∧
    Task.evidenceFiles task' = Task.evidenceFiles task ∧
    Lifecycle.layout all' = Lifecycle.layout all ∧
    (∀ j, j ≠ i → <[i := task']> l !! j = l !! j).
Proof.
  intros H.
  apply put_task_Ok200_inv in H
    as (ph & l & i & task & pre & post & _ & -> & _ & Hl & Hid & -> & -> & _).
  destruct (update_task_fixed nowT b task) as [Hff Hev].
  exists pre, ph, l, post, i, task.
  repeat split; try done.
  - by eapply replace_layout.
  - intros j Hj. by apply list_lookup_insert_ne.
Qed.

(** Under the invariant the stored overall status follows the tasks. *)
Lemma invariant_completed_iff uuid now name uuids (st : Lifecycle.state) :
  Lifecycle.invariant uuid now name uuids st →
  (Project.overallStatus st.1 = "Completed" ↔
     Lifecycle.all_tasks_completed st.2) ∧
  (Project.overallStatus st.1 = "In Progress" ↔
     ¬ Lifecycle.all_tasks_completed st.2).
Proof.
  intros (Hfive & [_ Hag] & Hstat & _ & _ & Hlay & _).
  destruct (layout_keys _ _ Hlay) as (Hkeys & Hne & Hex).
  assert (Hiff : Project.allPhasesCompleted (Project.phases st.1) = true ↔
                 Lifecycle.all_tasks_completed st.2).
  { rewrite (all_completed_five _ Hfive). split.
    - intros H ph l t Hin Ht.
      assert (Hph : ph ∈ Project.PHASES).
      { rewrite <- Hkeys. apply list_elem_of_fmap. by exists (ph, l). }
      specialize (H ph Hph).
      rewrite (Hag ph l Hin (Hne _ _ Hin) (proj2 (Hfive ph) Hph)) in H.
      by apply (proj1 (every_completed_spec l) H).
    - intros H ph Hph. destruct (Hex ph Hph) as [l Hin].
      rewrite (Hag ph l Hin (Hne _ _ Hin) (proj2 (Hfive ph) Hph)).
      apply every_completed_spec. intros t Ht. by apply (H ph l). }
  unfold Lifecycle.status_agrees in Hstat. rewrite Hstat, <- Hiff.
  destruct (Project.allPhasesCompleted _); split; split; try congruence; tauto.
Qed.

(** X4. For a project created with its default tasks, after any sequence
    of task updates and evidence uploads every task has a completion date
    exactly when it is completed, and no task lists an evidence file
    twice. *)
Theorem tasks_stay_dated_and_evidence_distinct uuid now name uuids rs :
  let st := Lifecycle.run (Lifecycle.created uuid now name uuids) rs in
  Lifecycle.every_task Lifecycle.task_dated st.2 ∧
  Lifecycle.every_task (λ t, NoDup (Task.evidenceFiles t)) st.2.
Proof.
  intros st.
  by destruct (run_invariant uuid now name uuids rs)
    as (_ & _ & _ & _ & _ & _ & Hdt & Hnd).
Qed.


(** Under the invariant the update loop stops at every stored task and
    [updatePhaseStatus] returns. *)
Lemma invariant_update_Ok200 uuid now name uuids (st : Lifecycle.state)
    nowT nowP b ph l t :
  Lifecycle.invariant uuid now name uuids st →
  (ph, l) ∈ st.2 → t ∈ l →
  ∃ task' p' all',
    Server.put_task nowT nowP (Task.id t) b st.1 st.2 =
    Server.Ok200 task' p' all'.
Proof.
  intros (Hfive & _ & _ & _ & _ & Hlay & _) Hin Ht.
  destruct (layout_keys _ _ Hlay) as (Hkeys & _ & _).
  destruct (Server.locate (Task.id t) st.2) as [[[[ph' l'] i] task]|] eqn:Hloc.
  - destruct (locate_split _ _ _ _ _ _ Hloc) as (pre & post & Hall & _ & _).
    assert (Hph : ph' ∈ Project.PHASES).
    { rewrite <- Hkeys, Hall. rewrite fmap_app, fmap_cons. set_solver. }
    destruct (put_task_succeeds nowT nowP _ b st.1 _ _ _ _ _ Hloc
                (proj2 (Hfive ph') Hph)) as (p' & all' & Hput).
    eauto.
  - exfalso. by apply (proj1 (locate_None _ _) Hloc ph l t).
Qed.

End LifecycleProperties.

(* ===================================================================== *)
(** * Storage *)
(* ===================================================================== *)

Section FindFacts.

Context {A : Type} (P Q : A → Prop) `{!∀ x, Decision (P x)} `{!∀ x, Decision (Q x)}.

Lemma list_find_put_at (l : list A) x :
  P x → ∃ i, list_find P (Storage.put_at P l x) = Some (i, x).
Proof.
  intros HP. unfold Storage.put_at.
  destruct (list_find P l) as [[i y]|] eqn:Hf.
  - apply list_find_Some in Hf as (Hl & _ & Hleast).
    exists i. apply list_find_insert_Some. right; left.
    repeat split; try done. by eapply lookup_lt_Some.
  - exists (length l). apply list_find_app_Some. right.
    split; [lia|]. split; [done|].
    rewrite Nat.sub_diag. apply list_find_Some.
    repeat split; try done. intros j z _ Hj. lia.
Qed.

Lemma list_find_put_at_other (l : list A) x :
  (∀ y, P y → ¬ Q y) → P x →
  snd <$> list_find Q (Storage.put_at P l x) = snd <$> list_find Q l.
Proof.
  intros Hdisj HP. unfold Storage.put_at.
  destruct (list_find P l) as [[i y]|] eqn:Hf.
  - apply list_find_Some in Hf as (Hl & HPy & _).
    clear -Hl HPy HP Hdisj. revert i Hl.
    induction l as [|z l IH]; intros [|i] Hl; simpl in *; try done.
    + injection Hl as ->.
      rewrite !decide_False by eauto. done.
    + destruct (decide (Q z)); [done|].
      specialize (IH i Hl).
      destruct (list_find Q (<[i:=x]> l)) as [[? ?]|],
               (list_find Q l) as [[? ?]|]; simpl in *; congruence.
  - clear Hf. induction l as [|z l IH]; simpl.
    + by rewrite decide_False by eauto.
    + destruct (decide (Q z)); [done|].
      destruct (list_find Q (l ++ [x])) as [[? ?]|],
               (list_find Q l) as [[? ?]|]; simpl in *; congruence.
Qed.

Lemma put_at_twice (l : list A) x :
  P x → Storage.put_at P (Storage.put_at P l x) x = Storage.put_at P l x.
Proof.
  intros HP. destruct (list_find_put_at l x HP) as [i Hi].
  unfold Storage.put_at at 1. rewrite Hi.
  apply list_insert_id. by apply list_find_Some in Hi as (? & _).
Qed.

Lemma put_at_length (l : list A) x :
  length (Storage.put_at P l x) =
  match list_find P l with
  | Some _ => length l
  | None => S (length l)
  end.
Proof.
  unfold Storage.put_at. destruct (list_find P l) as [[i y]|].
  - apply length_insert.
  - rewrite length_app. simpl. lia.
Qed.

End FindFacts.

Section StorageProperties.

Implicit Types (d : Storage.disk) (project : Project.t)
  (projectId q : string) (tasks : list (string * list Task.t)).

Lemma saveProject_readProjects project d :
  Storage.saveProject Storage.Written project d =
  (true,
   {| Storage.projects_json :=
        Storage.Content
          (Storage.put_at (λ p, Project.id p = Project.id project)
             (Storage.readProjects d) project);
      Storage.tasks_json := Storage.tasks_json d |}).
Proof. reflexivity. Qed.

Lemma readProjects_Content (l : list Project.t) f :
  Storage.readProjects
    {| Storage.projects_json := Storage.Content l; Storage.tasks_json := f |} = l.
Proof. reflexivity. Qed.

Lemma getTasks_assign projectId q tasks
    (m : gmap string (list (string * list Task.t))) :
  (q ≠ projectId → JS.get (Storage.assign projectId tasks m) q = JS.get m q) ∧
  (projectId ≠ "__proto__" →
   JS.get (Storage.assign projectId tasks m) projectId = JS.Own tasks).
Proof.
  unfold Storage.assign, JS.get. split.
  - intros Hq. destruct (_ && _); [done|]. by rewrite lookup_insert_ne.
  - intros Hp. rewrite bool_decide_eq_false_2 by done. simpl.
    by rewrite lookup_insert_eq.
Qed.

Lemma saveProject_get_same project d :
  Storage.getProjectById (Project.id project)
    (Storage.saveProject Storage.Written project d).2 = Some project.
Proof.
  rewrite saveProject_readProjects. cbn [snd].
  unfold Storage.getProjectById. rewrite readProjects_Content.
  by destruct (list_find_put_at (λ p, Project.id p = Project.id project)
                 (Storage.readProjects d) project eq_refl) as [i ->].
Qed.

Lemma saveProject_get_other project d q :
  q ≠ Project.id project →
  Storage.getProjectById q (Storage.saveProject Storage.Written project d).2 =
  Storage.getProjectById q d.
Proof.
  intros Hq. rewrite saveProject_readProjects. cbn [snd].
  unfold Storage.getProjectById. rewrite readProjects_Content.
  apply (list_find_put_at_other (λ p, Project.id p = Project.id project)
           (λ p, Project.id p = q)); [|done].
  intros y Hy. congruence.
Qed.

Lemma saveProject_tasks w project d q :
  Storage.getTasksForProject q (Storage.saveProject w project d).2 =
  Storage.getTasksForProject q d.
Proof. by destruct w. Qed.

Lemma saveTasks_get_same projectId tasks d :
  projectId ≠ "__proto__" →
  Storage.getTasksForProject projectId
    (Storage.saveTasksForProject Storage.Written projectId tasks d).2 = tasks.
Proof.
  intros Hp. unfold Storage.getTasksForProject.
  change (Storage.readTasks
            (Storage.saveTasksForProject Storage.Written projectId tasks d).2)
    with (Storage.assign projectId tasks (Storage.readTasks d)).
  by rewrite (proj2 (getTasks_assign projectId projectId tasks
                       (Storage.readTasks d)) Hp).
Qed.

Lemma saveTasks_get_other projectId tasks d q :
  q ≠ projectId →
  Storage.getTasksForProject q
    (Storage.saveTasksForProject Storage.Written projectId tasks d).2 =
  Storage.getTasksForProject q d.
Proof.
  intros Hq. unfold Storage.getTasksForProject.
  change (Storage.readTasks
            (Storage.saveTasksForProject Storage.Written projectId tasks d).2)
    with (Storage.assign projectId tasks (Storage.readTasks d)).
  by rewrite (proj1 (getTasks_assign projectId q tasks
                       (Storage.readTasks d)) Hq).
Qed.

Lemma saveTasks_projects w projectId tasks d q :
  Storage.getProjectById q (Storage.saveTasksForProject w projectId tasks d).2 =
  Storage.getProjectById q d.
Proof. by destruct w. Qed.

Lemma saveTasks_Written projectId tasks d :
  Storage.saveTasksForProject Storage.Written projectId tasks d =
  (true, (Storage.saveTasksForProject Storage.Written projectId tasks d).2).
Proof. reflexivity. Qed.

Lemma saveProject_Written project d :
  Storage.saveProject Storage.Written project d =
  (true, (Storage.saveProject Storage.Written project d).2).
Proof. reflexivity. Qed.

Lemma getProjectById_id projectId d project :
  Storage.getProjectById projectId d = Some project →
  Project.id project = projectId.
Proof.
  unfold Storage.getProjectById.
  destruct (list_find _ _) as [[i y]|] eqn:Hf; [|done].
  intros [= <-]. by apply list_find_Some in Hf as (_ & ? & _).
Qed.

(** X7. [saveProject] followed by [getProjectById]: when the write
    succeeds the project is found again under its id, whatever the file
    held before (nothing, unreadable content, other projects, a project
    with the same id), and the answer for every other id is unchanged,
    as are the stored tasks. *)
Theorem saveProject_then_getProjectById project d :
  let d' := (Storage.saveProject Storage.Written project d).2 in
  (Storage.saveProject Storage.Written project d).1 = true ∧
  Storage.getProjectById (Project.id project) d' = Some project ∧
  (∀ q, q ≠ Project.id project →
        Storage.getProjectById q d' = Storage.getProjectById q d) ∧
  (∀ q, Storage.getTasksForProject q d' = Storage.getTasksForProject q d).
Proof.
  rewrite saveProject_readProjects. simpl.
  split; [done|]. split; [|split].
  - unfold Storage.getProjectById. rewrite readProjects_Content.
    destruct (list_find_put_at (λ p, Project.id p = Project.id project)
                (Storage.readProjects d) project eq_refl) as [i ->]. done.
  - intros q Hq. unfold Storage.getProjectById. rewrite readProjects_Content.
    apply (list_find_put_at_other (λ p, Project.id p = Project.id project)
             (λ p, Project.id p = q)); [|done].
    intros y Hy. congruence.
  - done.
Qed.

(** X8. What [saveProject] writes: a project whose id is new goes to the
    end of the list; when the id is stored, the first project with that
    id is replaced by the saved one where it stands and every other
    project, also a later one with the same id, stays where it is (the
    list keeps its length); saving the same project again changes
    nothing; and when the file was missing or unreadable the new file
    holds that project alone. *)
Theorem saveProject_replaces_or_appends project d :
  let d' := (Storage.saveProject Storage.Written project d).2 in
  (Storage.getProjectById (Project.id project) d = None →
     Storage.readProjects d' = Storage.readProjects d ++ [project]) ∧
  (∀ i old,
     Storage.readProjects d !! i = Some old →
     Project.id old = Project.id project →
     (∀ j y, Storage.readProjects d !! j = Some y → (j < i)%nat →
             Project.id y ≠ Project.id project) →
     Storage.readProjects d' = <[i := project]> (Storage.readProjects d) ∧
     Storage.readProjects d' !! i = Some project ∧
     (∀ j, j ≠ i → Storage.readProjects d' !! j = Storage.readProjects d !! j)) ∧
  (is_Some (Storage.getProjectById (Project.id project) d) →
     length (Storage.readProjects d') = length (Storage.readProjects d)) ∧
  Storage.saveProject Storage.Written project d' = (true, d') ∧
  (Storage.projects_json d = Storage.Missing ∨
   Storage.projects_json d = Storage.Unreadable →
     Storage.readProjects d' = [project]).
Proof.
  intros d'. subst d'. rewrite saveProject_readProjects.
  cbn [snd]. rewrite readProjects_Content.
  split; [|split; [|split; [|split]]].
  - unfold Storage.getProjectById, Storage.put_at.
    by destruct (list_find _ (Storage.readProjects d)) as [[i y]|].
  - intros i old Hi Hid Hfirst.
    assert (Hf : list_find (λ p, Project.id p = Project.id project)
                   (Storage.readProjects d) = Some (i, old)).
    { apply list_find_Some. split; [done|]. split; [done|].
      intros j y Hj Hlt. by apply (Hfirst j y). }
    unfold Storage.put_at. rewrite Hf.
    split; [done|]. split.
    + apply list_lookup_insert_eq. by eapply lookup_lt_Some.
    + intros j Hj. by apply list_lookup_insert_ne.
  - unfold Storage.getProjectById. rewrite put_at_length.
    destruct (list_find _ (Storage.readProjects d)) as [[i y]|]; [done|].
    by intros [? ?].
  - rewrite saveProject_readProjects, readProjects_Content.
    by rewrite put_at_twice.
  - unfold Storage.readProjects. by intros [-> | ->].
Qed.

(** X9. [saveTasksForProject] followed by [getTasksForProject]: when the
    write succeeds the tasks are read back under the project id (any id
    but '__proto__'), the tasks of every other project are unchanged, and
    so are the stored projects. *)
Theorem saveTasksForProject_then_getTasksForProject projectId tasks d :
  let d' := (Storage.saveTasksForProject Storage.Written projectId tasks d).2 in
  (projectId ≠ "__proto__" →
     Storage.getTasksForProject projectId d' = tasks) ∧
  (∀ q, q ≠ projectId →
        Storage.getTasksForProject q d' = Storage.getTasksForProject q d) ∧
  Storage.readProjects d' = Storage.readProjects d.
Proof.
  intros d'.
  assert (Hread : Storage.readTasks d' =
                  Storage.assign projectId tasks (Storage.readTasks d))
    by reflexivity.
  unfold Storage.getTasksForProject. rewrite Hread.
  split; [|split].
  - intros Hp.
    by rewrite (proj2 (getTasks_assign projectId projectId tasks
                         (Storage.readTasks d)) Hp).
  - intros q Hq.
    by rewrite (proj1 (getTasks_assign projectId q tasks
                         (Storage.readTasks d)) Hq).
  - reflexivity.
Qed.

End StorageProperties.

(* ===================================================================== *)
(** * The handlers on top of the storage *)
(* ===================================================================== *)

Section ApiProperties.

Implicit Types (d : Storage.disk) (project : Project.t)
  (projectId taskId q nowT nowP uuid now : string) (b : Server.body)
  (st : Lifecycle.state) (r : Lifecycle.request) (rs : list Lifecycle.request)
  (paths uuids : list string).

Lemma put_task_keeps_id nowT nowP taskId b (p : Project.t)
    (all : list (string * list Task.t)) task' p' all' :
  Server.put_task nowT nowP taskId b p all = Server.Ok200 task' p' all' →
  Project.id p' = Project.id p.
Proof.
  intros H.
  apply put_task_Ok200_inv in H
    as (ph & l & i & task & pre & post & _ & _ & _ & _ & _ & _ & _ & Hu).
  by apply updatePhaseStatus_Returned in Hu as (? & _).
Qed.

Lemma stored_Some projectId d st :
  Session.stored projectId d = Some st →
  Storage.getProjectById projectId d = Some st.1 ∧
  st.2 = Storage.getTasksForProject projectId d ∧
  Project.id st.1 = projectId.
Proof.
  unfold Session.stored.
  destruct (Storage.getProjectById projectId d) as [p|] eqn:Hg; [|done].
  intros [= <-]. simpl. repeat split. by eapply getProjectById_id.
Qed.

Lemma stored_other projectId q d d' :
  Storage.getProjectById q d' = Storage.getProjectById q d →
  Storage.getTasksForProject q d' = Storage.getTasksForProject q d →
  Session.stored q d' = Session.stored q d.
Proof. unfold Session.stored. by intros -> ->. Qed.

(** One request: the storage follows the state of the project. *)
Lemma serve_stored projectId d st r :
  Session.stored projectId d = Some st →
  projectId ≠ "__proto__" →
  Session.stored projectId (Session.serve projectId d r).2 =
    Some (Lifecycle.serve st r) ∧
  (∀ q, q ≠ projectId →
        Session.stored q (Session.serve projectId d r).2 = Session.stored q d).
Proof.
  intros Hst Hproto.
  destruct (stored_Some _ _ _ Hst) as (Hget & Htasks & Hid).
  destruct st as [p all]. simpl in Hget, Htasks, Hid. subst all.
  destruct r as [nowT nowP taskId b|taskId paths]; simpl.
  - unfold Api.put_task. rewrite Hget.
    destruct (Server.put_task nowT nowP taskId b p
                (Storage.getTasksForProject projectId d))
      as [task' p' all'| |msg] eqn:Hput; [|by split..].
    pose proof (put_task_keeps_id _ _ _ _ _ _ _ _ _ Hput) as Hid'.
    rewrite Hid in Hid'.
    rewrite saveTasks_Written.
    set (d1 := (Storage.saveTasksForProject Storage.Written projectId all' d).2).
    cbv beta iota. rewrite saveProject_Written.
    set (d2 := (Storage.saveProject Storage.Written p' d1).2).
    simpl. subst d2.
    split.
    + unfold Session.stored. rewrite <- Hid' at 1.
      rewrite saveProject_get_same, saveProject_tasks. simpl.
      subst d1. by rewrite saveTasks_get_same.
    + intros q Hq. apply (stored_other projectId).
      * rewrite saveProject_get_other by congruence.
        subst d1. apply saveTasks_projects.
      * rewrite saveProject_tasks. subst d1. by apply saveTasks_get_other.
  - unfold Api.post_evidence. rewrite Hget.
    destruct (Evidence.upload_loop taskId paths []
                (Storage.getTasksForProject projectId d))
      as [[task' all']|] eqn:Hup; [|by split].
    rewrite saveTasks_Written.
    set (d1 := (Storage.saveTasksForProject Storage.Written projectId all' d).2).
    simpl. split.
    + unfold Session.stored. subst d1.
      rewrite saveTasks_get_same by done.
      by rewrite saveTasks_projects, Hget.
    + intros q Hq. subst d1. apply (stored_other projectId).
      * apply saveTasks_projects.
      * by apply saveTasks_get_other.
Qed.

Lemma run_stored projectId d st rs :
  Session.stored projectId d = Some st →
  projectId ≠ "__proto__" →
  Session.stored projectId (Session.run projectId d rs) =
    Some (Lifecycle.run st rs) ∧
  (∀ q, q ≠ projectId →
        Session.stored q (Session.run projectId d rs) = Session.stored q d).
Proof.
  intros Hst Hproto. revert d st Hst.
  induction rs as [|r rs IH]; intros d st Hst; simpl; [done|].
  destruct (serve_stored projectId d st r Hst Hproto) as [Hs Ho].
  destruct (IH _ _ Hs) as [Hs' Ho'].
  split; [exact Hs'|]. intros q Hq. rewrite Ho' by done. by apply Ho.
Qed.

Lemma validate_Returned (name : JSString.value) v :
  Project.validate name = JS.Returned v →
  ∃ s, name = JSString.Str s ∧ s ≠ EmptyString ∧ JSString.blank s = false ∧
       v = true.
Proof.
  destruct name as [s|]; simpl; [|done].
  case_bool_decide; simpl; [done|].
  destruct (JSString.blank s) eqn:Hb; [done|].
  intros [= <-]. eauto.
Qed.

Lemma post_project_valid wT uuid now uuids (s : string) d :
  Project.validate (JSString.Str s) = JS.Returned true →
  Api.post_project Storage.Written wT uuid now uuids (JSString.Str s) d =
  (Api.Created201 (Project.constructor uuid now s),
   (Storage.saveTasksForProject wT uuid (Task.getDefaultTasks uuids)
      (Storage.saveProject Storage.Written
         (Project.constructor uuid now s) d).2).2).
Proof.
  intros Hv. unfold Api.post_project. rewrite Hv.
  rewrite saveProject_readProjects. cbn -[Task.getDefaultTasks Storage.put_at].
  by destruct wT.
Qed.

End ApiProperties.

Section ApiTheorems.

Implicit Types (d : Storage.disk) (project : Project.t)
  (projectId taskId q nowT nowP uuid now : string) (b : Server.body)
  (st : Lifecycle.state) (rs : list Lifecycle.request)
  (paths uuids : list string).

(** X10. Requests for one project, with both files writable: after any
    sequence of task updates and evidence uploads the storage holds, for
    that project, the state the handlers computed request after request,
    and what is stored for every other project id is untouched. *)
Theorem requests_follow_state_and_spare_other_projects projectId d st rs :
  Session.stored projectId d = Some st →
  projectId ≠ "__proto__" →
  Session.stored projectId (Session.run projectId d rs) =
    Some (Lifecycle.run st rs) ∧
  (∀ q, q ≠ projectId →
        Session.stored q (Session.run projectId d rs) = Session.stored q d).
Proof. apply run_stored. Qed.

(** X11. Creating a project with a valid name, both files writable: the
    answer is 201 with the new project, storage then holds the project
    with the ten default tasks, every other project id keeps what it
    had, and from there on the storage follows the requests served for
    the project. *)
Theorem post_project_creates uuid now uuids (s : string) d rs :
  Project.validate (JSString.Str s) = JS.Returned true →
  uuid ≠ "__proto__" →
  let result :=
    Api.post_project Storage.Written Storage.Written uuid now uuids
      (JSString.Str s) d in
  result.1 = Api.Created201 (Project.constructor uuid now s) ∧
  Session.stored uuid result.2 = Some (Lifecycle.created uuid now s uuids) ∧
  (∀ q, q ≠ uuid → Session.stored q result.2 = Session.stored q d) ∧
  Session.stored uuid (Session.run uuid result.2 rs) =
    Some (Lifecycle.run (Lifecycle.created uuid now s uuids) rs).
Proof.
  intros Hv Hproto result. subst result.
  rewrite (post_project_valid _ _ _ _ _ _ Hv). cbn [fst snd].
  assert (Hst : Session.stored uuid
            (Storage.saveTasksForProject Storage.Written uuid
               (Task.getDefaultTasks uuids)
               (Storage.saveProject Storage.Written
                  (Project.constructor uuid now s) d).2).2 =
          Some (Lifecycle.created uuid now s uuids)).
  { unfold Session.stored. rewrite saveTasks_get_same by done.
    rewrite saveTasks_projects.
    pose proof (saveProject_get_same (Project.constructor uuid now s) d) as Hs.
    change (Project.id (Project.constructor uuid now s)) with uuid in Hs.
    by rewrite Hs. }
  split; [done|]. split; [exact Hst|]. split.
  - intros q Hq. apply (stored_other uuid).
    + rewrite saveTasks_projects. by apply saveProject_get_other.
    + rewrite saveTasks_get_other by done. apply saveProject_tasks.
  - by apply run_stored.
Qed.

(** X12. Creating a project, the failures: a name that is not a string,
    is empty or is made of white space only is answered 400 with the
    message of the validation and nothing is written; when the project
    file cannot be written the answer is 500 and the tasks file is not
    touched; when only the tasks file cannot be written the answer is
    still 201, with the project stored. *)
Theorem post_project_failures wP wT uuid now uuids (name : JSString.value) d :
  (∀ msg, Project.validate name = JS.Thrown msg →
     Api.post_project wP wT uuid now uuids name d =
     (Api.BadRequest400
        "Project name is required and must be a non-empty string", d)) ∧
  (∀ s remains, name = JSString.Str s →
     Project.validate name = JS.Returned true →
     wP = Storage.Failed remains →
     let result := Api.post_project wP wT uuid now uuids name d in
     result.1 = Api.ServerError500 "Failed to save project" ∧
     Storage.tasks_json result.2 = Storage.tasks_json d ∧
     Storage.projects_json result.2 = remains) ∧
  (∀ s remains, name = JSString.Str s →
     Project.validate name = JS.Returned true →
     wP = Storage.Written → wT = Storage.Failed remains →
     let result := Api.post_project wP wT uuid now uuids name d in
     result.1 = Api.Created201 (Project.constructor uuid now s) ∧
     Storage.getProjectById uuid result.2 =
       Some (Project.constructor uuid now s) ∧
     Storage.tasks_json result.2 = remains).
Proof.
  split; [|split].
  - intros msg Hv. unfold Api.post_project.
    destruct name as [s|]; simpl in *.
    + destruct (bool_decide (s = EmptyString) || JSString.blank s); [|done].
      injection Hv as <-. vm_compute. reflexivity.
    + vm_compute. reflexivity.
  - intros s remains -> Hv -> result. subst result.
    unfold Api.post_project. rewrite Hv. done.
  - intros s remains -> Hv -> -> result. subst result.
    rewrite (post_project_valid _ _ _ _ _ _ Hv). cbn [fst snd].
    split; [done|]. split; [|done].
    rewrite saveTasks_projects.
    apply (saveProject_get_same (Project.constructor uuid now s) d).
Qed.

(** X13. A task update that is answered 404 (no such project, no such
    task) or 500 'Failed to update task' has written nothing: both files
    are as they were, whether or not they are writable. *)
Theorem failed_update_writes_nothing wT wP nowT nowP projectId taskId b d :
  let result := Api.put_task wT wP nowT nowP projectId taskId b d in
  ((∃ e, result.1 = Api.NotFound404 e) ∨
   result.1 = Api.ServerError500 "Failed to update task") →
  result.2 = d.
Proof.
  intros result H. subst result. unfold Api.put_task in *.
  destruct (Storage.getProjectById projectId d) as [p|]; [|done].
  destruct (Server.put_task nowT nowP taskId b p
              (Storage.getTasksForProject projectId d))
    as [task' p' all'| |msg]; [|done..].
  exfalso. destruct wT, wP; simpl in H;
    destruct H as [[e H]|H]; discriminate H.
Qed.

(** X14. The two writes of a task update are not one: when the tasks
    file is written and the project file is not, the answer is 500
    'Failed to save updates' and yet the updated tasks are stored, while
    the project file holds what the failed write left. *)
Theorem update_can_save_tasks_without_project
    remains nowT nowP projectId taskId b d p task' p' all' :
  Storage.getProjectById projectId d = Some p →
  Server.put_task nowT nowP taskId b p
    (Storage.getTasksForProject projectId d) = Server.Ok200 task' p' all' →
  projectId ≠ "__proto__" →
  let result :=
    Api.put_task Storage.Written (Storage.Failed remains)
      nowT nowP projectId taskId b d in
  result.1 = Api.ServerError500 "Failed to save updates" ∧
  Storage.getTasksForProject projectId result.2 = all' ∧
  Storage.projects_json result.2 = remains.
Proof.
  intros Hget Hput Hproto result. subst result.
  unfold Api.put_task. rewrite Hget, Hput.
  rewrite saveTasks_Written.
  set (d1 := (Storage.saveTasksForProject Storage.Written projectId all' d).2).
  cbv beta iota.
  change (Storage.saveProject (Storage.Failed remains) p' d1)
    with (false, (Storage.saveProject (Storage.Failed remains) p' d1).2).
  cbv beta iota. cbn [negb orb fst snd].
  split; [done|]. split; [|done].
  rewrite saveProject_tasks. subst d1. by apply saveTasks_get_same.
Qed.

End ApiTheorems.

(* ===================================================================== *)
(** * A created project in storage, while both files can be written *)
(* ===================================================================== *)

Section StoredProject.

Implicit Types (d : Storage.disk) (project : Project.t)
  (taskId nowT nowP uuid now name ph : string) (b : Server.body)
  (l : list Task.t) (t : Task.t)
  (rs : list Lifecycle.request) (uuids : list string).

(** What storage holds for a created project after requests whose writes
    succeeded satisfies the invariant of the request loop. *)
Lemma stored_invariant uuid now name uuids d rs :
  Session.stored uuid d = Some (Lifecycle.created uuid now name uuids) →
  uuid ≠ "__proto__" →
  ∃ st,
    Session.stored uuid (Session.run uuid d rs) = Some st ∧
    Storage.getProjectById uuid (Session.run uuid d rs) = Some st.1 ∧
    Storage.getTasksForProject uuid (Session.run uuid d rs) = st.2 ∧
    Lifecycle.invariant uuid now name uuids st.
Proof.
  intros Hst Hproto.
  destruct (run_stored uuid d _ rs Hst Hproto) as [Hrun _].
  exists (Lifecycle.run (Lifecycle.created uuid now name uuids) rs).
  destruct (stored_Some _ _ _ Hrun) as (Hget & Htasks & _).
  split; [exact Hrun|]. split; [exact Hget|]. split; [by rewrite Htasks|].
  apply run_invariant.
Qed.

(** X3. A project created with its ten default tasks, served while both
    files can be written: after any sequence of task updates and evidence
    uploads the stored overall status is 'Completed' exactly when every
    stored task of every phase is completed, and 'In Progress' exactly
    when some task is not. *)
Theorem project_completed_iff_all_tasks_completed uuid now name uuids d rs :
  Session.stored uuid d = Some (Lifecycle.created uuid now name uuids) →
  uuid ≠ "__proto__" →
  let d' := Session.run uuid d rs in
  ∃ project,
    Storage.getProjectById uuid d' = Some project ∧
    (Project.overallStatus project = "Completed" ↔
       Lifecycle.all_tasks_completed (Storage.getTasksForProject uuid d')) ∧
    (Project.overallStatus project = "In Progress" ↔
       ¬ Lifecycle.all_tasks_completed (Storage.getTasksForProject uuid d')).
Proof.
  intros Hst Hproto d'.
  destruct (stored_invariant uuid now name uuids d rs Hst Hproto)
    as (st & _ & Hget & Htasks & Hinv).
  exists st.1. split; [exact Hget|]. subst d'. rewrite Htasks.
  by eapply invariant_completed_iff.
Qed.

(** X6. A project created with its default tasks and served while both
    files could be written: an update addressed to the id of a stored
    task, with a body that passed the checks of the handler, is answered
    200 when its two writes succeed and 500 'Failed to save updates' when
    one of them fails.  It is never answered 'Project not found', 'Task
    not found' or 'Failed to update task': [updatePhaseStatus] does not
    throw there. *)
Theorem update_of_stored_task_is_200_or_save_failure
    uuid now name uuids d rs wT wP nowT nowP b ph l t :
  Session.stored uuid d = Some (Lifecycle.created uuid now name uuids) →
  uuid ≠ "__proto__" →
  let d' := Session.run uuid d rs in
  (ph, l) ∈ Storage.getTasksForProject uuid d' → t ∈ l →
  let answer := (Api.put_task wT wP nowT nowP uuid (Task.id t) b d').1 in
  (wT = Storage.Written → wP = Storage.Written →
     ∃ task' project,
       answer = Api.TaskUpdated200 task' (Project.phases project)
                  (Project.overallStatus project) ∧
       Task.id task' = Task.id t ∧
       Storage.getProjectById uuid
         (Api.put_task wT wP nowT nowP uuid (Task.id t) b d').2 = Some project) ∧
  (wT ≠ Storage.Written ∨ wP ≠ Storage.Written →
     answer = Api.ServerError500 "Failed to save updates").
Proof.
  intros Hst Hproto d' Hin Ht answer. subst answer.
  destruct (stored_invariant uuid now name uuids d rs Hst Hproto)
    as (st & Hstored & Hget & Htasks & Hinv).
  fold d' in Hstored, Hget, Htasks. rewrite Htasks in Hin.
  destruct (invariant_update_Ok200 uuid now name uuids st nowT nowP b ph l t
              Hinv Hin Ht) as (task' & p' & all' & Hput).
  pose proof (put_task_keeps_id _ _ _ _ _ _ _ _ _ Hput) as Hid.
  destruct (stored_Some _ _ _ Hstored) as (_ & _ & Hid0).
  rewrite Hid0 in Hid.
  apply put_task_Ok200_inv in Hput as Hinv'.
  destruct Hinv' as (ph' & l' & i & task & pre & post & _ & _ & _ & _ & Htid & Htask' & _).
  unfold Api.put_task. rewrite Hget, Htasks, Hput.
  split.
  - intros -> ->. exists task', p'.
    rewrite saveTasks_Written.
    set (d1 := (Storage.saveTasksForProject Storage.Written uuid all' d').2).
    cbv beta iota. rewrite saveProject_Written.
    set (d2 := (Storage.saveProject Storage.Written p' d1).2).
    cbn [negb orb fst snd].
    split; [done|]. split.
    + rewrite Htask'. by rewrite update_task_id.
    + subst d2. rewrite <- Hid at 1. apply saveProject_get_same.
  - intros Hfail.
    destruct wT as [|remainsT], wP as [|remainsP]; try done.
    + by destruct Hfail.
Qed.

End StoredProject.

(* ===================================================================== *)
(** * Evidence: upload and download *)
(* ===================================================================== *)

Section EvidenceFacts.

Implicit Types (all pre post : list (string * list Task.t))
  (l : list Task.t) (task : Task.t) (f rp taskId tid ph : string)
  (paths : list string).

Lemma addEvidence_elem f task (x : string) :
  x ∈ Task.evidenceFiles (Task.addEvidence f task) ↔
  x ∈ Task.evidenceFiles task ∨ x = f.
Proof.
  destruct (decide (f ∈ Task.evidenceFiles task)) as [Hin|Hin].
  - rewrite addEvidence_present by done. split; [tauto|].
    intros [?| ->]; done.
  - rewrite addEvidence_absent by done. simpl.
    rewrite elem_of_app, list_elem_of_singleton. done.
Qed.

Lemma add_uploaded_elem paths task (x : string) :
  x ∈ Task.evidenceFiles (Server.add_uploaded paths task) ↔
  x ∈ Task.evidenceFiles task ∨ x ∈ paths.
Proof.
  unfold Server.add_uploaded. revert task.
  induction paths as [|f paths IH]; intros task; simpl.
  - rewrite elem_of_nil. tauto.
  - rewrite IH, addEvidence_elem, elem_of_cons. tauto.
Qed.

Lemma addEvidence_prefix f task :
  Task.evidenceFiles task `prefix_of`
  Task.evidenceFiles (Task.addEvidence f task).
Proof.
  destruct (decide (f ∈ Task.evidenceFiles task)) as [Hin|Hin].
  - by rewrite addEvidence_present.
  - rewrite addEvidence_absent by done. simpl. by apply prefix_app_r.
Qed.

Lemma add_uploaded_prefix paths task :
  Task.evidenceFiles task `prefix_of`
  Task.evidenceFiles (Server.add_uploaded paths task).
Proof.
  unfold Server.add_uploaded. revert task.
  induction paths as [|f paths IH]; intros task; simpl; [done|].
  etrans; [apply (addEvidence_prefix f)|apply IH].
Qed.

Lemma add_uploaded_present paths task :
  (∀ x, x ∈ paths → x ∈ Task.evidenceFiles task) →
  Server.add_uploaded paths task = task.
Proof.
  unfold Server.add_uploaded.
  induction paths as [|f paths IH]; intros Hall; simpl; [done|].
  rewrite addEvidence_present by (apply Hall; set_solver).
  apply IH. intros x Hx. apply Hall. set_solver.
Qed.

Lemma add_uploaded_length paths task :
  (length (Task.evidenceFiles (Server.add_uploaded paths task)) ≤
   length (Task.evidenceFiles task) + length paths)%nat.
Proof.
  unfold Server.add_uploaded. revert task.
  induction paths as [|f paths IH]; intros task; simpl; [lia|].
  etrans; [apply IH|].
  unfold Task.addEvidence.
  destruct (negb _); simpl; rewrite ?length_app; simpl; lia.
Qed.


Lemma findIndex_insert_same tid l i task task' :
  Server.findIndex tid l = Some (i, task) → Task.id task' = tid →
  Server.findIndex tid (<[i := task']> l) = Some (i, task').
Proof.
  unfold Server.findIndex. intros Hf Hid.
  apply list_find_Some in Hf as (Hl & _ & Hleast).
  apply list_find_insert_Some. right; left.
  repeat split; try done. by eapply lookup_lt_Some.
Qed.

(** The task a request for [tid] reaches. *)
Lemma locate_app_skip tid pre all :
  Forall (λ e, Server.findIndex tid e.2 = None) pre →
  Server.locate tid (pre ++ all) = Server.locate tid all.
Proof.
  induction 1 as [|[ph0 l0] pre Hn _ IH]; simpl; [done|].
  simpl in Hn. by rewrite Hn.
Qed.

Lemma locate_replace_same tid pre post ph l i task task' :
  Forall (λ e, Server.findIndex tid e.2 = None) pre →
  Server.findIndex tid l = Some (i, task) → Task.id task' = tid →
  Server.locate tid (pre ++ (ph, <[i := task']> l) :: post) =
  Some (ph, <[i := task']> l, i, task').
Proof.
  intros Hpre Hf Hid. rewrite locate_app_skip by done. simpl.
  by rewrite (findIndex_insert_same _ _ _ _ _ Hf Hid).
Qed.


Lemma put_task_Ok200_found nowT nowP taskId (b : Server.body)
    (p : Project.t) all task' p' all' :
  Server.put_task nowT nowP taskId b p all = Server.Ok200 task' p' all' →
  ∃ ph l i task pre post,
    all = pre ++ (ph, l) :: post ∧
    Forall (λ e, Server.findIndex taskId e.2 = None) pre ∧
    Server.findIndex taskId l = Some (i, task) ∧
    task' = Server.update_task nowT b task ∧
    all' = pre ++ (ph, <[i := task']> l) :: post.
Proof.
  intros H.
  destruct (Server.locate taskId all) as [[[[ph l] i] task]|] eqn:Hloc.
  - destruct (locate_split _ _ _ _ _ _ Hloc) as (pre & post & Hall & Hpre & Hf).
    rewrite (put_task_located nowT nowP _ b p _ _ _ _ _ _ _ Hall Hpre Hf) in H.
    destruct (Project.updatePhaseStatus _ _ _ p) as [p1|msg]; [|discriminate H].
    injection H as <- <- <-.
    exists ph, l, i, task, pre, post. by repeat split.
  - unfold Server.put_task in H. by rewrite update_loop_not_found in H.
Qed.

Lemma upload_loop_found taskId paths all task' all' :
  Evidence.upload_loop taskId paths [] all = Some (task', all') →
  ∃ ph l i task pre post,
    all = pre ++ (ph, l) :: post ∧
    Forall (λ e, Server.findIndex taskId e.2 = None) pre ∧
    Server.findIndex taskId l = Some (i, task) ∧
    task' = Server.add_uploaded paths task ∧
    all' = pre ++ (ph, <[i := task']> l) :: post.
Proof.
  intros H.
  destruct (Server.locate taskId all) as [[[[ph l] i] task]|] eqn:Hloc.
  - destruct (locate_split _ _ _ _ _ _ Hloc) as (pre & post & -> & Hpre & Hf).
    rewrite upload_loop_skip in H by done. simpl in H. rewrite Hf in H.
    injection H as <- <-.
    exists ph, l, i, task, pre, post. by repeat split.
  - apply upload_loop_Some in H as (? & ? & ? & ? & ? & ? & Hloc' & _).
    congruence.
Qed.

Lemma authorize_loop_locate tid rp all :
  Evidence.authorize_loop tid rp all =
  (λ x, Task.includes (Task.evidenceFiles x.2) rp) <$> Server.locate tid all.
Proof.
  induction all as [|[ph0 l0] all IH]; simpl; [done|].
  unfold Evidence.find, Server.findIndex in *.
  destruct (list_find _ l0) as [[j t]|]; simpl; [done|]. exact IH.
Qed.

End EvidenceFacts.

Section EvidenceTheorems.

Implicit Types (all pre post : list (string * list Task.t))
  (l : list Task.t) (task : Task.t) (f rp taskId tid ph projectId : string)
  (paths : list string) (d : Storage.disk)
  (st : Lifecycle.state) (r : Lifecycle.request) (rs : list Lifecycle.request).

(** X15. The upload loop on a task: afterwards the task lists exactly
    the files it listed before and the uploaded ones, the files listed
    before come first in their order, a list without duplicates stays
    so, at most one entry is added per uploaded file, and uploading the
    same paths again changes nothing. *)
Theorem upload_adds_each_path_once paths task :
  (∀ x, x ∈ Task.evidenceFiles (Server.add_uploaded paths task) ↔
        x ∈ Task.evidenceFiles task ∨ x ∈ paths) ∧
  Task.evidenceFiles task `prefix_of`
    Task.evidenceFiles (Server.add_uploaded paths task) ∧
  (NoDup (Task.evidenceFiles task) →
   NoDup (Task.evidenceFiles (Server.add_uploaded paths task))) ∧
  (length (Task.evidenceFiles (Server.add_uploaded paths task)) ≤
   length (Task.evidenceFiles task) + length paths)%nat ∧
  Server.add_uploaded paths (Server.add_uploaded paths task) =
    Server.add_uploaded paths task.
Proof.
  split; [intros x; apply add_uploaded_elem|].
  split; [apply add_uploaded_prefix|].
  split; [apply add_uploaded_NoDup|].
  split; [apply add_uploaded_length|].
  apply add_uploaded_present. intros x Hx. apply add_uploaded_elem. by right.
Qed.

Lemma get_evidence_sent projectId tid rp on_disk d :
  Api.get_evidence projectId tid rp on_disk d = Api.FileSent200 rp ↔
  is_Some (Storage.getProjectById projectId d) ∧ on_disk = true ∧
  ∃ ph l i task,
    Server.locate tid (Storage.getTasksForProject projectId d) =
      Some (ph, l, i, task) ∧
    rp ∈ Task.evidenceFiles task.
Proof.
  unfold Api.get_evidence. rewrite authorize_loop_locate.
  destruct (Storage.getProjectById projectId d) as [p|]; simpl.
  2:{ split; [done|]. by intros [[? ?] _]. }
  destruct (Server.locate tid _) as [[[[ph l] i] task]|]; simpl.
  2:{ split; [done|]. by intros (_ & _ & ? & ? & ? & ? & ? & _). }
  destruct (Task.includes (Task.evidenceFiles task) rp) eqn:Hinc.
  - apply includes_spec in Hinc. destruct on_disk; simpl.
    + split; [|done]. intros _. split; [by eexists|]. split; [done|]. eauto 10.
    + split; [done|]. by intros (_ & ? & _).
  - split; [done|]. intros (_ & _ & ph' & l' & i' & t' & [= -> -> -> ->] & Hin).
    apply includes_spec in Hin. congruence.
Qed.

(** X16. Upload, then download: after an upload answered 200, each of
    the uploaded files that is on disk is sent when it is asked for under
    the same project and task, and so is every file that was sent
    before the upload. *)
Theorem uploaded_file_can_be_downloaded projectId taskId paths d task' :
  let result := Api.post_evidence Storage.Written projectId taskId paths d in
  result.1 = Api.EvidenceUploaded200 task' →
  projectId ≠ "__proto__" →
  (∀ rp, rp ∈ paths →
     Api.get_evidence projectId taskId rp true result.2 = Api.FileSent200 rp) ∧
  (∀ rp, Api.get_evidence projectId taskId rp true d = Api.FileSent200 rp →
     Api.get_evidence projectId taskId rp true result.2 = Api.FileSent200 rp).
Proof.
  intros result Hreply Hproto. subst result.
  unfold Api.post_evidence in *.
  destruct (Storage.getProjectById projectId d) as [p|] eqn:Hget; [|done].
  destruct (Evidence.upload_loop taskId paths []
              (Storage.getTasksForProject projectId d))
    as [[t' all']|] eqn:Hup; [|done].
  rewrite saveTasks_Written in Hreply |- *.
  set (d1 := (Storage.saveTasksForProject Storage.Written projectId all' d).2)
    in *.
  cbv beta iota in Hreply |- *. cbn [negb fst snd] in Hreply |- *.
  injection Hreply as ->.
  apply upload_loop_found in Hup
    as (ph & l & i & task & pre & post & Hall & Hpre & Hf & -> & ->).
  destruct (findIndex_Some _ _ _ _ Hf) as (Hl & Hid & _).
  assert (Hloc : Server.locate taskId (Storage.getTasksForProject projectId d) =
                 Some (ph, l, i, task)).
  { rewrite Hall, locate_app_skip by done. simpl. by rewrite Hf. }
  assert (Hid' : Task.id (Server.add_uploaded paths task) = taskId).
  { destruct (add_uploaded_fixed paths task) as ([= -> _ _ _] & _). done. }
  assert (Hsent : ∀ rp, rp ∈ Task.evidenceFiles (Server.add_uploaded paths task) →
            Api.get_evidence projectId taskId rp true d1 = Api.FileSent200 rp).
  { intros rp Hin. apply get_evidence_sent. subst d1.
    rewrite saveTasks_projects, Hget, saveTasks_get_same by done.
    split; [by eexists|]. split; [done|].
    rewrite (locate_replace_same _ _ _ _ _ _ _ _ Hpre Hf Hid'). eauto 10. }
  split.
  - intros rp Hin. apply Hsent, add_uploaded_elem. by right.
  - intros rp (_ & _ & ph' & l' & i' & t' & Hloc' & Hin)%get_evidence_sent.
    rewrite Hloc in Hloc'. injection Hloc' as <- <- <- <-.
    apply Hsent, add_uploaded_elem. by left.
Qed.

(** X17. Access to evidence files: a file is sent exactly when the
    project exists, the first task with the id lists the path and the
    file is on disk; a path that the task does not list is answered 403,
    on disk or not. *)
Theorem only_listed_files_are_served projectId tid rp on_disk d :
  (Api.get_evidence projectId tid rp on_disk d = Api.FileSent200 rp ↔
     is_Some (Storage.getProjectById projectId d) ∧ on_disk = true ∧
     ∃ ph l i task,
       Server.locate tid (Storage.getTasksForProject projectId d) =
         Some (ph, l, i, task) ∧
       rp ∈ Task.evidenceFiles task) ∧
  (∀ ph l i task,
     is_Some (Storage.getProjectById projectId d) →
     Server.locate tid (Storage.getTasksForProject projectId d) =
       Some (ph, l, i, task) →
     rp ∉ Task.evidenceFiles task →
     Api.get_evidence projectId tid rp on_disk d =
     Api.Forbidden403 "File not authorized for this task").
Proof.
  split; [apply get_evidence_sent|].
  intros ph l i task [p Hp] Hloc Hnin.
  unfold Api.get_evidence. rewrite Hp, authorize_loop_locate, Hloc. simpl.
  destruct (Task.includes (Task.evidenceFiles task) rp) eqn:Hinc; [|done].
  by apply includes_spec in Hinc.
Qed.



End EvidenceTheorems.

Section EvidenceOrigin.

Implicit Types (uuid now name : string) (uuids : list string)
  (st : Lifecycle.state) (r : Lifecycle.request) (rs : list Lifecycle.request).

Lemma uploaded_snoc rs r tid rp :
  Lifecycle.uploaded rs tid rp → Lifecycle.uploaded (rs ++ [r]) tid rp.
Proof. intros (paths & Hin & Hrp). exists paths. split; [set_solver|done]. Qed.

Lemma lifecycle_run_snoc st rs r :
  Lifecycle.run st (rs ++ [r]) = Lifecycle.serve (Lifecycle.run st rs) r.
Proof. unfold Lifecycle.run. by rewrite fold_left_app. Qed.

(** X19. For a project created with its default tasks, after any
    sequence of requests every evidence file a task lists was carried by
    an upload request for the id of that task: nothing else ever enters
    the list that authorizes downloads. *)
Theorem listed_evidence_was_uploaded uuid now name uuids rs :
  Lifecycle.every_task
    (λ t, ∀ rp, rp ∈ Task.evidenceFiles t →
                Lifecycle.uploaded rs (Task.id t) rp)
    (Lifecycle.run (Lifecycle.created uuid now name uuids) rs).2.
Proof.
  induction rs as [|r rs IH] using rev_ind.
  - intros ph l t Hin Ht rp Hrp. exfalso.
    apply list_elem_of_In in Hin. simpl in Hin.
    repeat (destruct Hin as [[= <- <-]|Hin];
            [apply list_elem_of_In in Ht; simpl in Ht;
             repeat (destruct Ht as [<-|Ht];
                     [by apply elem_of_nil in Hrp|]); destruct Ht|]).
    destruct Hin.
  - rewrite lifecycle_run_snoc.
    set (st := Lifecycle.run (Lifecycle.created uuid now name uuids) rs) in *.
    assert (Hweak : Lifecycle.every_task
              (λ t, ∀ rp, rp ∈ Task.evidenceFiles t →
                          Lifecycle.uploaded (rs ++ [r]) (Task.id t) rp) st.2).
    { intros ph l t Hin Ht rp Hrp. apply uploaded_snoc. by eapply IH. }
    clearbody st. clear IH. destruct st as [p all]. simpl in Hweak.
    destruct r as [nowT nowP taskId b|taskId paths]; simpl.
    + destruct (Server.put_task nowT nowP taskId b p all)
        as [task' p' all'| |msg] eqn:Hput; simpl; try done.
      apply put_task_Ok200_found in Hput
        as (ph & l & i & task & pre & post & -> & _ & Hf & -> & ->).
      destruct (findIndex_Some _ _ _ _ Hf) as (Hl & _ & _).
      apply replace_every_task; [|done].
      rewrite update_task_id, (proj2 (update_task_fixed nowT b task)).
      apply (Hweak ph l task); [set_solver|]. apply list_elem_of_lookup. eauto.
    + destruct (Evidence.upload_loop taskId paths [] all)
        as [[task' all']|] eqn:Hup; simpl; [|done].
      apply upload_loop_found in Hup
        as (ph & l & i & task & pre & post & -> & _ & Hf & -> & ->).
      destruct (findIndex_Some _ _ _ _ Hf) as (Hl & Hid & _).
      apply replace_every_task; [|done].
      assert (Hid' : Task.id (Server.add_uploaded paths task) = taskId).
      { destruct (add_uploaded_fixed paths task) as ([= -> _ _ _] & _). done. }
      intros rp [Hold|Hnew]%add_uploaded_elem.
      * assert (Hin : task ∈ l) by (apply list_elem_of_lookup; eauto).
        assert (Hentry : (ph, l) ∈ pre ++ (ph, l) :: post) by set_solver.
        pose proof (Hweak ph l task Hentry Hin rp Hold) as Hup.
        rewrite Hid in Hup. by rewrite Hid'.
      * rewrite Hid'. exists paths. split; [set_solver|done].
Qed.

End EvidenceOrigin.

(* ===================================================================== *)
(** * What the report and the pages show *)
(* ===================================================================== *)

Section Display.

Implicit Types (p : Project.t) (all : list (string * list Task.t))
  (l : list Task.t) (ph uuid now name : string) (uuids : list string)
  (rs : list Lifecycle.request).

Lemma count_eq_length_forallb {A} (f : A → bool) (xs : list A) :
  (length (List.filter f xs) =? length xs)%nat = forallb f xs.
Proof.
  induction xs as [|x xs IH]; simpl; [done|].
  destruct (f x); simpl; [exact IH|].
  pose proof (List.filter_length_le f xs).
  apply Nat.eqb_neq. lia.
Qed.

Lemma count_zero_iff {A} (f : A → bool) (xs : list A) :
  length (List.filter f xs) = 0%nat ↔ ∀ x, x ∈ xs → f x = false.
Proof.
  induction xs as [|x xs IH]; simpl.
  - split; [|done]. intros _ x Hx. by apply elem_of_nil in Hx.
  - destruct (f x) eqn:Hfx; simpl.
    + split; [done|]. intros H. specialize (H x). rewrite Hfx in H.
      discriminate H. apply elem_of_cons. by left.
    + rewrite IH. split.
      * intros H y [->|Hy]%elem_of_cons; eauto.
      * intros H y Hy. apply H. apply elem_of_cons. by right.
Qed.

Lemma count_split {A} (f : A → bool) (xs : list A) :
  (length (List.filter f xs) + length (List.filter (λ x, negb (f x)) xs))%nat
  = length xs.
Proof.
  induction xs as [|x xs IH]; simpl; [done|].
  destruct (f x); simpl; lia.
Qed.

Lemma sections_length (f : Task.t → bool) all :
  sum_list (map (λ e, length e.2) (omap (ReportDoc.section_of f) all)) =
  sum_list (map (λ e, length (List.filter f e.2)) all).
Proof.
  induction all as [|[ph l] all IH]; [done|].
  assert (Hstep : omap (ReportDoc.section_of f) ((ph, l) :: all) =
            match List.filter f l with
            | [] => omap (ReportDoc.section_of f) all
            | _ :: _ => (ph, List.filter f l) :: omap (ReportDoc.section_of f) all
            end).
  { change (omap (ReportDoc.section_of f) ((ph, l) :: all))
      with (match ReportDoc.section_of f (ph, l) with
            | Some y => y :: omap (ReportDoc.section_of f) all
            | None => omap (ReportDoc.section_of f) all
            end).
    unfold ReportDoc.section_of at 1. cbn [fst snd].
    by destruct (List.filter f l). }
  rewrite Hstep. cbn [map sum_list sum_list_with fst snd]. rewrite <- IH.
  by destruct (List.filter f l).
Qed.

Lemma sections_elem (f : Task.t → bool) all ph (ts : list Task.t) :
  (ph, ts) ∈ omap (ReportDoc.section_of f) all ↔
  ts ≠ [] ∧ ∃ l, (ph, l) ∈ all ∧ ts = List.filter f l.
Proof.
  rewrite list_elem_of_omap. unfold ReportDoc.section_of. split.
  - intros ([ph' l] & Hin & Hsec). simpl in Hsec.
    destruct (List.filter f l) as [|t ts'] eqn:Hf; simpl in Hsec; [done|].
    injection Hsec as <- <-. split; [done|]. exists l. by rewrite Hf.
  - intros (Hne & l & Hin & ->). exists (ph, l). split; [done|]. simpl.
    destruct (List.filter f l); [done|]. done.
Qed.

(** X20. The two task listings of the report: a phase appears under
    'Completed' (under 'Outstanding') exactly when it has a completed
    (an incomplete) task, with those tasks in their order; every task is
    in one listing and not in the other; the number of tasks listed as
    completed is the completed count of the statistics, the number
    listed as outstanding is the rest of the total; and the line 'No
    security tasks have been completed yet' is printed exactly when the
    completed count is 0. *)
Theorem report_listings_partition_tasks all :
  (∀ ph ts, (ph, ts) ∈ ReportDoc.completed_sections all ↔
            ts ≠ [] ∧ ∃ l, (ph, l) ∈ all ∧ ts = List.filter Task.completed l) ∧
  (∀ ph ts, (ph, ts) ∈ ReportDoc.incompleteTasks all ↔
            ts ≠ [] ∧ ∃ l, (ph, l) ∈ all ∧
              ts = List.filter (λ t, negb (Task.completed t)) l) ∧
  sum_list (map (λ e, length e.2) (ReportDoc.completed_sections all)) =
    Report.completedTasks (Report.stats_loop all) ∧
  (sum_list (map (λ e, length e.2) (ReportDoc.incompleteTasks all)) +
   Report.completedTasks (Report.stats_loop all))%nat =
    Report.totalTasks (Report.stats_loop all) ∧
  (ReportDoc.hasCompletedTasks all = false ↔
   Report.completedTasks (Report.stats_loop all) = 0%nat).
Proof.
  assert (Hc : sum_list (map (λ e, length e.2) (ReportDoc.completed_sections all)) =
               Report.completedTasks (Report.stats_loop all)).
  { unfold ReportDoc.completed_sections. rewrite sections_length.
    by rewrite (proj2 (stats_loop_spec all)). }
  split; [intros; apply sections_elem|].
  split; [intros; apply sections_elem|].
  split; [exact Hc|]. split.
  - unfold ReportDoc.incompleteTasks. rewrite sections_length.
    destruct (stats_loop_spec all) as [-> ->].
    unfold Report.phaseCompleted. clear Hc.
    induction all as [|[ph l] all IH]; simpl; [done|].
    pose proof (count_split Task.completed l). lia.
  - rewrite <- Hc. unfold ReportDoc.hasCompletedTasks.
    destruct (ReportDoc.completed_sections all) as [|[ph ts] secs] eqn:Hs;
      simpl; [done|].
    split; [done|]. intros Hsum. exfalso.
    assert (Hin : (ph, ts) ∈ ReportDoc.completed_sections all)
      by (rewrite Hs; set_solver).
    apply sections_elem in Hin as [Hne _].
    destruct ts; [done|]. simpl in Hsum. lia.
Qed.

Lemma some_or_all {A} (f : A → bool) (v : bool) (xs : list A) :
  (∃ x, x ∈ xs ∧ f x = v) ∨ (∀ x, x ∈ xs → f x = negb v).
Proof.
  induction xs as [|x xs [(y & Hy & Hfy)|IH]].
  - right. intros x Hx. by apply elem_of_nil in Hx.
  - left. exists y. split; [|done]. apply elem_of_cons. by right.
  - destruct (decide (f x = v)) as [Hd|Hd].
    + left. exists x. split; [apply elem_of_cons; by left|done].
    + right. intros y [->|Hy]%elem_of_cons; [|by apply IH].
      by destruct (f x), v.
Qed.

(** Under the invariant the report's marker of a phase follows its
    tasks and the dashboard card follows the stored overall status. *)
Lemma invariant_display uuid now name uuids (st : Lifecycle.state) inherited :
  Lifecycle.invariant uuid now name uuids st →
  (∀ ph l, (ph, l) ∈ st.2 →
     (ReportDoc.indicator_of inherited st.1 ph (Report.stat_of l) =
        ReportDoc.PhaseComplete ↔ ∀ t, t ∈ l → Task.completed t = true) ∧
     (ReportDoc.indicator_of inherited st.1 ph (Report.stat_of l) =
        ReportDoc.NotStarted ↔ ∀ t, t ∈ l → Task.completed t = false)) ∧
  (Client.isCompleted st.1 = true ↔ Project.overallStatus st.1 = "Completed").
Proof.
  intros (Hfive & [_ Hag] & Hstat & _ & _ & Hlay & _).
  destruct (layout_keys _ _ Hlay) as (Hkeys & Hne & Hex).
  split.
  - intros ph l Hin.
    assert (Hph : ph ∈ Project.PHASES).
    { rewrite <- Hkeys. apply list_elem_of_fmap. by exists (ph, l). }
    pose proof (proj2 (Hfive ph) Hph) as Hown.
    pose proof (Hag ph l Hin (Hne _ _ Hin) Hown) as Hflag.
    assert (Hl : l ≠ []) by eauto.
    unfold ReportDoc.indicator_of, Props.phase_completed in *.
    destruct Hown as [s Hs]. rewrite (get_own _ _ _ Hs). rewrite Hs in Hflag.
    rewrite Hflag. simpl.
    split.
    + rewrite <- every_completed_spec.
      destruct (Server.every_completed l); [done|].
      split; [|done]. by destruct (0 <? Report.phaseCompleted l)%nat.
    + rewrite <- (count_zero_iff Task.completed l).
      fold (Report.phaseCompleted l).
      destruct (Server.every_completed l) eqn:He.
      * split; [done|]. intros H0. exfalso.
        pose proof (count_eq_length_forallb Task.completed l) as Hc.
        fold (Report.phaseCompleted l) in Hc.
        unfold Server.every_completed in He. rewrite He, H0 in Hc.
        apply Nat.eqb_eq in Hc. by destruct l.
      * destruct (Report.phaseCompleted l) as [|n]; simpl;
          split; try done; intros H0; discriminate H0.
  - unfold Lifecycle.status_agrees in Hstat. rewrite Hstat.
    unfold Client.isCompleted, Project.allPhasesCompleted.
    rewrite <- (length_fmap snd (map_to_list (Project.phases st.1))).
    rewrite count_eq_length_forallb.
    assert (Hsame : forallb PhaseStatus.completed
                      (map_to_list (Project.phases st.1)).*2 =
                    forallb (λ kv, PhaseStatus.completed kv.2)
                      (map_to_list (Project.phases st.1))).
    { induction (map_to_list (Project.phases st.1)) as [|kv kvs IH];
        [done|]. cbn. f_equal. apply IH. }
    rewrite Hsame.
    assert (Hpos : (0 <? length (map_to_list (Project.phases st.1)).*2)%nat = true).
    { destruct (proj2 (Hfive "planning")) as [s Hs].
      { unfold Project.PHASES. set_solver. }
      apply elem_of_map_to_list in Hs.
      destruct (map_to_list (Project.phases st.1)); [|done].
      by apply elem_of_nil in Hs. }
    rewrite Hpos, andb_true_r.
    destruct (forallb (λ kv, PhaseStatus.completed kv.2)
                (map_to_list (Project.phases st.1)));
      split; intros H; try done; discriminate H.
Qed.

Lemma filter_keeps {A} (P : A → Prop) `{!∀ x, Decision (P x)} (xs : list A) :
  Forall P xs → filter P xs = xs.
Proof.
  induction 1 as [|x xs Hx _ IH]; [done|].
  rewrite filter_cons_True by done. by rewrite IH.
Qed.

(** The statistics of a dictionary whose keys are the five phases: one
    own property per phase, in order, and no prototype installed. *)
Lemma stats_of_five_phases all :
  all.*1 = Project.PHASES →
  Report.own (Report.phaseStats (Report.stats_loop all)) =
    map (λ e, (e.1, Report.stat_of e.2)) all ∧
  Report.proto (Report.phaseStats (Report.stats_loop all)) = None.
Proof.
  intros Hkeys.
  assert (Hnd : NoDup all.*1).
  { rewrite Hkeys. apply (bool_decide_unpack _). vm_compute. exact I. }
  assert (Hno : "__proto__" ∉ all.*1).
  { rewrite Hkeys. apply (bool_decide_unpack _). vm_compute. exact I. }
  unfold Report.stats_loop. split.
  - rewrite stats_fold_own; [|done|].
    + cbn [Report.phaseStats Report.own app]. f_equal.
      apply filter_keeps, Forall_forall. intros e He Heq. apply Hno.
      rewrite <- Heq. apply list_elem_of_fmap. by exists e.
    + intros k _ Hk. by apply elem_of_nil in Hk.
  - rewrite stats_fold_proto by done.
    by rewrite (find_key_None all "__proto__" Hno).
Qed.

(** X21. A project created with its default tasks, served while both
    files can be written: after any sequence of requests the report,
    computed from what is stored, has one statistics record per stored
    phase, in order, and marks a phase 'Phase Complete' exactly when all
    its tasks are completed, 'Not Started' exactly when none is, and 'In
    Progress' exactly when some are and some are not; and the card of
    the dashboard, computed from the stored phase flags, says 'Completed'
    exactly when the stored overall status does. *)
Theorem displayed_status_agrees_with_stored uuid now name uuids d rs inherited :
  Session.stored uuid d = Some (Lifecycle.created uuid now name uuids) →
  uuid ≠ "__proto__" →
  let d' := Session.run uuid d rs in
  let phaseStats :=
    Report.phaseStats (Report.stats_loop (Storage.getTasksForProject uuid d')) in
  ∃ project,
    Storage.getProjectById uuid d' = Some project ∧
    Report.own phaseStats =
      map (λ e, (e.1, Report.stat_of e.2)) (Storage.getTasksForProject uuid d') ∧
    Report.proto phaseStats = None ∧
    (∀ ph l, (ph, l) ∈ Storage.getTasksForProject uuid d' →
       (ReportDoc.indicator_of inherited project ph (Report.stat_of l) =
          ReportDoc.PhaseComplete ↔ ∀ t, t ∈ l → Task.completed t = true) ∧
       (ReportDoc.indicator_of inherited project ph (Report.stat_of l) =
          ReportDoc.NotStarted ↔ ∀ t, t ∈ l → Task.completed t = false) ∧
       (ReportDoc.indicator_of inherited project ph (Report.stat_of l) =
          ReportDoc.InProgress ↔
          (∃ t, t ∈ l ∧ Task.completed t = true) ∧
          (∃ t, t ∈ l ∧ Task.completed t = false))) ∧
    (Client.isCompleted project = true ↔
     Project.overallStatus project = "Completed").
Proof.
  intros Hst Hproto d' phaseStats.
  destruct (stored_invariant uuid now name uuids d rs Hst Hproto)
    as (st & _ & Hget & Htasks & Hinv).
  destruct (invariant_display uuid now name uuids st inherited Hinv)
    as [Hrep Hcard].
  assert (Hkeys : st.2.*1 = Project.PHASES).
  { destruct Hinv as (_ & _ & _ & _ & _ & Hlay & _).
    by destruct (layout_keys _ _ Hlay) as (Hkeys & _). }
  destruct (stats_of_five_phases st.2 Hkeys) as [Hown Hnone].
  exists st.1. split; [exact Hget|].
  subst phaseStats d'. rewrite Htasks.
  split; [exact Hown|]. split; [exact Hnone|]. split; [|exact Hcard].
  intros ph l Hin.
  destruct (Hrep ph l Hin) as [Hc Hn].
  split; [exact Hc|]. split; [exact Hn|].
  destruct (ReportDoc.indicator_of inherited st.1 ph (Report.stat_of l)) eqn:Hi.
  - split; [done|]. intros [_ (t & Ht & Hf)].
    rewrite (proj1 Hc eq_refl t Ht) in Hf. discriminate Hf.
  - split; [|done]. intros _. split.
    + destruct (some_or_all Task.completed true l) as [He|Hall]; [done|].
      by apply Hn in Hall.
    + destruct (some_or_all Task.completed false l) as [He|Hall]; [done|].
      by apply Hc in Hall.
  - split; [done|]. intros [(t & Ht & Hf) _].
    rewrite (proj1 Hn eq_refl t Ht) in Hf. discriminate Hf.
Qed.

End Display.

(* ===================================================================== *)
(** * Validation of the project name and the serverless report *)
(* ===================================================================== *)

Section Validation.

Implicit Types (s a b : string) (c : Ascii.ascii).

Ltac byte_false :=
  apply not_true_is_false; intros Hb;
  repeat (rewrite ?orb_true_iff, ?andb_true_iff, ?N.eqb_eq, ?N.leb_le in Hb);
  lia.

Lemma visible_not_space c (n1 n2 : N) :
  JSString.visible c →
  JSString.one_byte_space (Ascii.N_of_ascii c) = false ∧
  JSString.two_byte_space (Ascii.N_of_ascii c) n1 = false ∧
  JSString.two_byte_space n1 (Ascii.N_of_ascii c) = false ∧
  JSString.three_byte_space (Ascii.N_of_ascii c) n1 n2 = false ∧
  JSString.three_byte_space n1 (Ascii.N_of_ascii c) n2 = false ∧
  JSString.three_byte_space n1 n2 (Ascii.N_of_ascii c) = false.
Proof.
  unfold JSString.visible, JSString.one_byte_space, JSString.two_byte_space,
    JSString.three_byte_space.
  intros Hv. repeat split; byte_false.
Qed.

(** A visible character anywhere in the string makes it non-blank. *)
Lemma blank_visible (n : nat) a c b :
  (String.length a ≤ n)%nat → JSString.visible c →
  JSString.blank (a ++ String c b)%string = false.
Proof.
  revert a. induction n as [|n IH]; intros a Hlen Hv.
  - destruct a; [|simpl in Hlen; lia]. simpl.
    destruct (visible_not_space c 0 0 Hv) as (-> & _).
    destruct b as [|c2 b]; [done|].
    destruct (visible_not_space c (Ascii.N_of_ascii c2) 0 Hv) as (_ & -> & _).
    destruct b as [|c3 b]; [done|].
    by destruct (visible_not_space c (Ascii.N_of_ascii c2) (Ascii.N_of_ascii c3) Hv)
      as (_ & _ & _ & -> & _).
  - destruct a as [|c1 a]; [apply (IH EmptyString); [simpl; lia|done]|].
    simpl in Hlen. simpl.
    destruct (JSString.one_byte_space (Ascii.N_of_ascii c1));
      [apply IH; [lia|done]|].
    destruct a as [|c2 a]; simpl.
    { destruct (visible_not_space c (Ascii.N_of_ascii c1) 0 Hv) as (_ & _ & -> & _).
      destruct b as [|c3 b]; [done|].
      by destruct (visible_not_space c (Ascii.N_of_ascii c1) (Ascii.N_of_ascii c3) Hv)
        as (_ & _ & _ & _ & -> & _). }
    simpl in Hlen.
    destruct (JSString.two_byte_space _ _); [apply IH; [lia|done]|].
    destruct a as [|c3 a]; simpl.
    { by destruct (visible_not_space c (Ascii.N_of_ascii c1) (Ascii.N_of_ascii c2) Hv)
        as (_ & _ & _ & _ & _ & ->). }
    simpl in Hlen.
    destruct (JSString.three_byte_space _ _ _); [apply IH; [lia|done]|done].
Qed.

(** One white space character in front changes nothing. *)
Lemma blank_space (w s : string) :
  w ∈ JSString.spaces → JSString.blank (w ++ s)%string = JSString.blank s.
Proof.
  intros Hw. apply list_elem_of_In in Hw. vm_compute in Hw.
  repeat (destruct Hw as [<-|Hw]; [reflexivity|]). destruct Hw.
Qed.

Lemma blank_spaces (ws : list string) :
  Forall (λ w, w ∈ JSString.spaces) ws →
  JSString.blank (foldr String.append EmptyString ws) = true.
Proof.
  induction 1 as [|w ws Hw _ IH]; simpl; [done|].
  by rewrite blank_space.
Qed.

(** X22. [Project.validate]: a name that is not a string is refused; so
    is a string made of white space and line terminators only, the empty
    string among them; a string with a visible ASCII character anywhere
    is accepted, whatever surrounds it. *)
Theorem validate_name :
  Project.validate JSString.NotAString =
    JS.Thrown "Project name is required and must be a non-empty string" ∧
  (∀ ws, Forall (λ w, w ∈ JSString.spaces) ws →
     Project.validate (JSString.Str (foldr String.append EmptyString ws)) =
     JS.Thrown "Project name is required and must be a non-empty string") ∧
  (∀ a c b, JSString.visible c →
     Project.validate (JSString.Str (a ++ String c b)%string) = JS.Returned true).
Proof.
  split; [done|]. split.
  - intros ws Hws. simpl. rewrite (blank_spaces ws Hws).
    by rewrite orb_true_r.
  - intros a c b Hv. simpl.
    rewrite (blank_visible (String.length a) a c b (le_n _) Hv).
    rewrite bool_decide_eq_false_2; [done|]. by destruct a.
Qed.

(** X23. The serverless report function never produces a report: its
    list of projects is a module variable that nothing fills, so every
    event is answered with the preflight 200 (method OPTIONS) or with a
    404. *)
Theorem serverless_report_is_never_produced (ev : NetlifyReports.event) :
  (NetlifyReports.httpMethod ev = "OPTIONS" →
     NetlifyReports.exports_handler ev = NetlifyReports.Preflight200) ∧
  (NetlifyReports.httpMethod ev ≠ "OPTIONS" →
     NetlifyReports.exports_handler ev = NetlifyReports.NotFound404 "Not found" ∨
     NetlifyReports.exports_handler ev =
       NetlifyReports.NotFound404 "Project not found") ∧
  (∀ name score stats,
     NetlifyReports.exports_handler ev ≠ NetlifyReports.Pdf200 name score stats).
Proof.
  unfold NetlifyReports.exports_handler, NetlifyReports.handler.
  case_bool_decide as Hm.
  - split; [done|]. split; [done|]. done.
  - split; [done|]. split; [|intros name score stats].
    + intros _.
      destruct (NetlifyReports.reportMatch _); [|by left].
      case_bool_decide; [by right|by left].
    + destruct (NetlifyReports.reportMatch _); [|done].
      by case_bool_decide.
Qed.

End Validation.

(* ===================================================================== *)
(** * The further properties on the fixtures *)
(* ===================================================================== *)

(** The three answers of the update handler on 'Acme': an unknown id, a
    stored id, and a stored id under a phase name the project lacks. *)
Lemma put_task_answers_acme :
  let b := {| Server.completed := Some true; Server.notes := None |} in
  Server.put_task "T1" "T2" "nope" b Props.acme Props.acme_tasks =
    Server.NotFound404 ∧
  (∃ p' all',
     Server.put_task "T1" "T2" "t4" b Props.acme Props.acme_tasks =
     Server.Ok200
       (Server.update_task "T1" b
          (Task.constructor "t4" "implementation" "Secure Coding Review"
             "Review code for secure coding practices")) p' all') ∧
  Server.put_task "T1" "T2" "x1" b Props.acme
    [("review", [Task.constructor "x1" "review" "Extra" "d"])] =
    Server.Error500 "Failed to update task".
Proof.
  intros b.
  split; [|split].
  - apply (proj1 (put_task_answers "nope" "T1" "T2" b Props.acme Props.acme_tasks)).
    intros ph l t Hin Ht. apply list_elem_of_In in Hin. simpl in Hin.
    repeat (destruct Hin as [[= <- <-]|Hin];
            [apply list_elem_of_In in Ht; simpl in Ht;
             repeat (destruct Ht as [<-|Ht]; [discriminate|]); destruct Ht|]).
    destruct Hin.
  - eapply (proj1 (proj2 (put_task_answers "t4" "T1" "T2" b Props.acme
                            Props.acme_tasks))).
    + reflexivity.
    + by eexists.
  - eapply (proj2 (proj2 (put_task_answers "x1" "T1" "T2" b Props.acme
                            [("review", [Task.constructor "x1" "review" "Extra" "d"])]))).
    + reflexivity.
    + reflexivity.
    + unfold JS.Object_prototype_keys. rewrite !elem_of_cons, elem_of_nil.
      intros H. repeat (destruct H as [H|H]; [discriminate H|]). exact H.
Defined.

(** Completing the second testing task of 'Acme'. *)
Lemma put_task_changes_one_task_acme :
  let b := {| Server.completed := Some true; Server.notes := Some "ok" |} in
  ∃ task' p' all',
    Server.put_task "T1" "T2" "t7" b Props.acme Props.acme_tasks =
      Server.Ok200 task' p' all' ∧
    ∃ pre ph l post i task,
      Props.acme_tasks = pre ++ (ph, l) :: post ∧
      l !! i = Some task ∧ Task.id task = "t7" ∧
      all' = pre ++ (ph, <[i := task']> l) :: post ∧
      Lifecycle.fixed_fields task' = Lifecycle.fixed_fields task ∧
      Task.evidenceFiles task' = Task.evidenceFiles task ∧
      Lifecycle.layout all' = Lifecycle.layout Props.acme_tasks ∧
      (∀ j, j ≠ i → <[i := task']> l !! j = l !! j).
Proof.
  intros b. eexists _, _, _. split; [vm_compute; reflexivity|].
  eapply (put_task_changes_one_task "T1" "T2" "t7" b Props.acme Props.acme_tasks).
  vm_compute. reflexivity.
Defined.

(** 'Acme' after its ten tasks were completed one by one: the stored
    project is 'Completed'. *)
Lemma project_completed_iff_all_tasks_completed_acme :
  let d' := Session.run "p-1" Fixtures.acme_disk Fixtures.ten_completions in
  Session.stored "p-1" Fixtures.acme_disk = Some Fixtures.acme_created ∧
  "p-1" ≠ "__proto__" ∧
  (Project.overallStatus <$> Storage.getProjectById "p-1" d') = Some "Completed" ∧
  ∃ project,
    Storage.getProjectById "p-1" d' = Some project ∧
    (Project.overallStatus project = "Completed" ↔
       Lifecycle.all_tasks_completed (Storage.getTasksForProject "p-1" d')) ∧
    (Project.overallStatus project = "In Progress" ↔
       ¬ Lifecycle.all_tasks_completed (Storage.getTasksForProject "p-1" d')).
Proof.
  intros d'.
  assert (H1 : Session.stored "p-1" Fixtures.acme_disk = Some Fixtures.acme_created)
    by (vm_compute; reflexivity).
  assert (H2 : "p-1" ≠ "__proto__") by discriminate.
  split; [exact H1|]. split; [exact H2|].
  split; [vm_compute; reflexivity|].
  exact (project_completed_iff_all_tasks_completed
           "p-1" "2024-01-01T00:00:00.000Z" "Acme"
           ["t0"; "t1"; "t2"; "t3"; "t4"; "t5"; "t6"; "t7"; "t8"; "t9"]
           Fixtures.acme_disk Fixtures.ten_completions H1 H2).
Defined.

(** After the two requests, an update of the second design task of
    'Acme': with both files writable, and with a project file that cannot
    be written. *)
Lemma update_of_stored_task_is_200_or_save_failure_acme :
  let d' := Session.run "p-1" Fixtures.acme_disk Fixtures.two_requests in
  let e := nth 1 (Storage.getTasksForProject "p-1" d') (EmptyString, []) in
  let t := nth 1 e.2 (Task.constructor "none" "none" "none" "none") in
  let b := {| Server.completed := Some true; Server.notes := None |} in
  Session.stored "p-1" Fixtures.acme_disk = Some Fixtures.acme_created ∧
  "p-1" ≠ "__proto__" ∧
  (e.1, e.2) ∈ Storage.getTasksForProject "p-1" d' ∧ t ∈ e.2 ∧
  Task.id t = "t3" ∧
  (∃ task' project,
     (Api.put_task Storage.Written Storage.Written
        "T3" "T4" "p-1" (Task.id t) b d').1 =
       Api.TaskUpdated200 task' (Project.phases project)
         (Project.overallStatus project) ∧
     Task.id task' = Task.id t ∧
     Storage.getProjectById "p-1"
       (Api.put_task Storage.Written Storage.Written
          "T3" "T4" "p-1" (Task.id t) b d').2 = Some project) ∧
  (Api.put_task Storage.Written (Storage.Failed Storage.Unreadable)
     "T3" "T4" "p-1" (Task.id t) b d').1 =
    Api.ServerError500 "Failed to save updates".
Proof.
  intros d' e t b.
  assert (H1 : Session.stored "p-1" Fixtures.acme_disk = Some Fixtures.acme_created)
    by (vm_compute; reflexivity).
  assert (H2 : "p-1" ≠ "__proto__") by discriminate.
  assert (Hin : (e.1, e.2) ∈ Storage.getTasksForProject "p-1" d').
  { apply list_elem_of_In. vm_compute. right. left. reflexivity. }
  assert (Ht : t ∈ e.2).
  { apply list_elem_of_In. vm_compute. right. left. reflexivity. }
  split; [exact H1|]. split; [exact H2|].
  split; [exact Hin|]. split; [exact Ht|]. split; [reflexivity|].
  split.
  - exact (proj1 (update_of_stored_task_is_200_or_save_failure
             "p-1" "2024-01-01T00:00:00.000Z" "Acme"
             ["t0"; "t1"; "t2"; "t3"; "t4"; "t5"; "t6"; "t7"; "t8"; "t9"]
             Fixtures.acme_disk Fixtures.two_requests
             Storage.Written Storage.Written "T3" "T4" b e.1 e.2 t
             H1 H2 Hin Ht) eq_refl eq_refl).
  - apply (proj2 (update_of_stored_task_is_200_or_save_failure
             "p-1" "2024-01-01T00:00:00.000Z" "Acme"
             ["t0"; "t1"; "t2"; "t3"; "t4"; "t5"; "t6"; "t7"; "t8"; "t9"]
             Fixtures.acme_disk Fixtures.two_requests
             Storage.Written (Storage.Failed Storage.Unreadable)
             "T3" "T4" b e.1 e.2 t H1 H2 Hin Ht)).
    right. discriminate.
Defined.

(** The report markers and the dashboard card of 'Acme' after the two
    requests: planning has one task completed of two. *)
Lemma displayed_status_agrees_with_stored_acme :
  let d' := Session.run "p-1" Fixtures.acme_disk Fixtures.two_requests in
  Session.stored "p-1" Fixtures.acme_disk = Some Fixtures.acme_created ∧
  "p-1" ≠ "__proto__" ∧
  let phaseStats :=
    Report.phaseStats (Report.stats_loop (Storage.getTasksForProject "p-1" d')) in
  ∃ project,
    Storage.getProjectById "p-1" d' = Some project ∧
    Report.own phaseStats =
      map (λ e, (e.1, Report.stat_of e.2)) (Storage.getTasksForProject "p-1" d') ∧
    Report.proto phaseStats = None ∧
    (∀ ph l, (ph, l) ∈ Storage.getTasksForProject "p-1" d' →
       (ReportDoc.indicator_of false project ph (Report.stat_of l) =
          ReportDoc.PhaseComplete ↔ ∀ t, t ∈ l → Task.completed t = true) ∧
       (ReportDoc.indicator_of false project ph (Report.stat_of l) =
          ReportDoc.NotStarted ↔ ∀ t, t ∈ l → Task.completed t = false) ∧
       (ReportDoc.indicator_of false project ph (Report.stat_of l) =
          ReportDoc.InProgress ↔
          (∃ t, t ∈ l ∧ Task.completed t = true) ∧
          (∃ t, t ∈ l ∧ Task.completed t = false))) ∧
    (Client.isCompleted project = true ↔
     Project.overallStatus project = "Completed").
Proof.
  intros d'.
  assert (H1 : Session.stored "p-1" Fixtures.acme_disk = Some Fixtures.acme_created)
    by (vm_compute; reflexivity).
  assert (H2 : "p-1" ≠ "__proto__") by discriminate.
  split; [exact H1|]. split; [exact H2|].
  exact (displayed_status_agrees_with_stored
           "p-1" "2024-01-01T00:00:00.000Z" "Acme"
           ["t0"; "t1"; "t2"; "t3"; "t4"; "t5"; "t6"; "t7"; "t8"; "t9"]
           Fixtures.acme_disk Fixtures.two_requests false H1 H2).
Defined.

(** 'Acme' saved under a new name in a data directory that holds two
    projects: it takes the first place again and 'Beta' stays second. *)
Lemma saveProject_replaces_or_appends_acme :
  let renamed :=
    Project.constructor "p-1" "2024-06-01T00:00:00.000Z" "Acme 2" in
  let beta := Project.constructor "p-2" "2024-02-01T00:00:00.000Z" "Beta" in
  let d := Fixtures.two_projects_disk in
  let d' := (Storage.saveProject Storage.Written renamed d).2 in
  Storage.readProjects d = [Props.acme; beta] ∧
  Storage.readProjects d' = [renamed; beta] ∧
  Storage.readProjects d' = <[0%nat := renamed]> (Storage.readProjects d) ∧
  Storage.readProjects d' !! 0%nat = Some renamed ∧
  (∀ j, j ≠ 0%nat → Storage.readProjects d' !! j = Storage.readProjects d !! j).
Proof.
  intros renamed beta d d'.
  split; [vm_compute; reflexivity|]. split; [vm_compute; reflexivity|].
  apply (proj1 (proj2 (saveProject_replaces_or_appends renamed d))
           0%nat Props.acme).
  - vm_compute. reflexivity.
  - reflexivity.
  - intros j y _ Hlt. lia.
Defined.

(** The two requests served from the data directory of 'Acme'. *)
Lemma requests_follow_state_and_spare_other_projects_acme :
  Session.stored "p-1" Fixtures.acme_disk = Some Fixtures.acme_created ∧
  "p-1" ≠ "__proto__" ∧
  Session.stored "p-1" (Session.run "p-1" Fixtures.acme_disk Fixtures.two_requests) =
    Some (Lifecycle.run Fixtures.acme_created Fixtures.two_requests) ∧
  (∀ q, q ≠ "p-1" →
        Session.stored q (Session.run "p-1" Fixtures.acme_disk Fixtures.two_requests) =
        Session.stored q Fixtures.acme_disk).
Proof.
  assert (H1 : Session.stored "p-1" Fixtures.acme_disk = Some Fixtures.acme_created)
    by (vm_compute; reflexivity).
  assert (H2 : "p-1" ≠ "__proto__") by discriminate.
  split; [exact H1|]. split; [exact H2|].
  exact (requests_follow_state_and_spare_other_projects "p-1" Fixtures.acme_disk
           Fixtures.acme_created Fixtures.two_requests H1 H2).
Defined.

(** Creating 'Acme' in an empty data directory. *)
Lemma post_project_creates_acme :
  let uuids := ["t0"; "t1"; "t2"; "t3"; "t4"; "t5"; "t6"; "t7"; "t8"; "t9"] in
  let result :=
    Api.post_project Storage.Written Storage.Written "p-1"
      "2024-01-01T00:00:00.000Z" uuids (JSString.Str "Acme")
      Fixtures.empty_disk in
  Project.validate (JSString.Str "Acme") = JS.Returned true ∧
  "p-1" ≠ "__proto__" ∧
  result.1 = Api.Created201
               (Project.constructor "p-1" "2024-01-01T00:00:00.000Z" "Acme") ∧
  Session.stored "p-1" result.2 = Some Fixtures.acme_created ∧
  (∀ q, q ≠ "p-1" →
     Session.stored q result.2 = Session.stored q Fixtures.empty_disk) ∧
  Session.stored "p-1" (Session.run "p-1" result.2 Fixtures.two_requests) =
    Some (Lifecycle.run Fixtures.acme_created Fixtures.two_requests).
Proof.
  intros uuids result.
  assert (H1 : Project.validate (JSString.Str "Acme") = JS.Returned true)
    by reflexivity.
  assert (H2 : "p-1" ≠ "__proto__") by discriminate.
  split; [exact H1|]. split; [exact H2|].
  exact (post_project_creates "p-1" "2024-01-01T00:00:00.000Z" uuids "Acme"
           Fixtures.empty_disk Fixtures.two_requests H1 H2).
Defined.

(** An update of a task that 'Acme' does not have, on a read-only disk. *)
Lemma failed_update_writes_nothing_acme :
  let b := {| Server.completed := Some true; Server.notes := None |} in
  let result :=
    Api.put_task (Storage.Failed Storage.Unreadable)
      (Storage.Failed Storage.Unreadable)
      "T1" "T2" "p-1" "nope" b Fixtures.acme_disk in
  result.1 = Api.NotFound404 "Task not found" ∧ result.2 = Fixtures.acme_disk.
Proof.
  intros b result.
  assert (H1 : result.1 = Api.NotFound404 "Task not found")
    by (vm_compute; reflexivity).
  split; [exact H1|].
  apply (failed_update_writes_nothing (Storage.Failed Storage.Unreadable)
           (Storage.Failed Storage.Unreadable)
           "T1" "T2" "p-1" "nope" b Fixtures.acme_disk).
  left. eexists. exact H1.
Defined.

(** Completing a task of 'Acme' when the project file cannot be written. *)
Lemma update_can_save_tasks_without_project_acme :
  let b := {| Server.completed := Some true; Server.notes := None |} in
  ∃ p task' p' all',
    Storage.getProjectById "p-1" Fixtures.acme_disk = Some p ∧
    Server.put_task "T1" "T2" "t0" b p
      (Storage.getTasksForProject "p-1" Fixtures.acme_disk) =
      Server.Ok200 task' p' all' ∧
    "p-1" ≠ "__proto__" ∧
    let result :=
      Api.put_task Storage.Written (Storage.Failed Storage.Unreadable)
        "T1" "T2" "p-1" "t0" b Fixtures.acme_disk in
    result.1 = Api.ServerError500 "Failed to save updates" ∧
    Storage.getTasksForProject "p-1" result.2 = all' ∧
    Storage.projects_json result.2 = Storage.Unreadable.
Proof.
  intros b. eexists _, _, _, _.
  split; [vm_compute; reflexivity|].
  split; [vm_compute; reflexivity|].
  split; [discriminate|].
  eapply (update_can_save_tasks_without_project Storage.Unreadable
            "T1" "T2" "p-1" "t0" b Fixtures.acme_disk).
  - vm_compute. reflexivity.
  - vm_compute. reflexivity.
  - discriminate.
Defined.

(** Two files uploaded for the first planning task of 'Acme'. *)
Lemma uploaded_file_can_be_downloaded_acme :
  let paths := ["p-1/t0/a.pdf"; "p-1/t0/b.png"] in
  let result :=
    Api.post_evidence Storage.Written "p-1" "t0" paths Fixtures.acme_disk in
  ∃ task',
    result.1 = Api.EvidenceUploaded200 task' ∧ "p-1" ≠ "__proto__" ∧
    Api.get_evidence "p-1" "t0" "p-1/t0/b.png" true result.2 =
      Api.FileSent200 "p-1/t0/b.png" ∧
    Api.get_evidence "p-1" "t0" "p-1/t1/b.png" true result.2 =
      Api.Forbidden403 "File not authorized for this task".
Proof.
  intros paths result.
  assert (Hex : ∃ task', result.1 = Api.EvidenceUploaded200 task')
    by (eexists; vm_compute; reflexivity).
  destruct Hex as [task' Hr].
  assert (Hproto : "p-1" ≠ "__proto__") by discriminate.
  exists task'. split; [exact Hr|]. split; [exact Hproto|].
  split; [|vm_compute; reflexivity].
  apply (proj1 (uploaded_file_can_be_downloaded "p-1" "t0" paths
                  Fixtures.acme_disk task' Hr Hproto)).
  apply elem_of_cons. right. apply elem_of_cons. by left.
Defined.


(** The serverless report function on a report request, and the same
    handler had its module variables held 'Acme'. *)
Lemma serverless_report_is_never_produced_get :
  let ev := {| NetlifyReports.httpMethod := "GET";
               NetlifyReports.path := "/.netlify/functions/reports/p-1" |} in
  NetlifyReports.httpMethod ev ≠ "OPTIONS" ∧
  NetlifyReports.exports_handler ev =
    NetlifyReports.NotFound404 "Project not found" ∧
  (NetlifyReports.exports_handler ev = NetlifyReports.NotFound404 "Not found" ∨
   NetlifyReports.exports_handler ev =
     NetlifyReports.NotFound404 "Project not found") ∧
  NetlifyReports.handler [Props.acme] {["p-1" := Props.half_done_tasks]} ev =
    NetlifyReports.Pdf200 "Acme" (Some 50%Z)
      (Report.phaseStats (Report.stats_loop Props.half_done_tasks)).
Proof.
  intros ev.
  assert (H1 : NetlifyReports.httpMethod ev ≠ "OPTIONS") by discriminate.
  split; [exact H1|]. split; [vm_compute; reflexivity|].
  split; [exact (proj1 (proj2 (serverless_report_is_never_produced ev)) H1)|].
  vm_compute. reflexivity.
Defined.

(** Creating a project with a blank name, and with a project file that
    cannot be written, and with a tasks file that cannot be written. *)
Lemma post_project_failures_acme :
  let uuids := ["t0"; "t1"; "t2"; "t3"; "t4"; "t5"; "t6"; "t7"; "t8"; "t9"] in
  let d := Fixtures.empty_disk in
  Api.post_project Storage.Written Storage.Written "p-1" "T0" uuids
    (JSString.Str "   ") d =
    (Api.BadRequest400
       "Project name is required and must be a non-empty string", d) ∧
  (Api.post_project (Storage.Failed Storage.Unreadable) Storage.Written
     "p-1" "T0" uuids (JSString.Str "Acme") d).1 =
    Api.ServerError500 "Failed to save project" ∧
  (Api.post_project Storage.Written (Storage.Failed Storage.Missing)
     "p-1" "T0" uuids (JSString.Str "Acme") d).1 =
    Api.Created201 (Project.constructor "p-1" "T0" "Acme").
Proof.
  intros uuids d.
  split; [|split].
  - apply (proj1 (post_project_failures Storage.Written Storage.Written
                    "p-1" "T0" uuids (JSString.Str "   ") d)
             "Project name is required and must be a non-empty string").
    reflexivity.
  - apply (proj1 (proj2 (post_project_failures
                           (Storage.Failed Storage.Unreadable) Storage.Written
                           "p-1" "T0" uuids (JSString.Str "Acme") d))
             "Acme" Storage.Unreadable); reflexivity.
  - apply (proj2 (proj2 (post_project_failures
                           Storage.Written (Storage.Failed Storage.Missing)
                           "p-1" "T0" uuids (JSString.Str "Acme") d))
             "Acme" Storage.Missing); reflexivity.
Defined.

(** A path that the first planning task of 'Acme' does not list is
    refused, on disk or not. *)
Lemma only_listed_files_are_served_acme :
  (∀ on_disk,
     Api.get_evidence "p-1" "t0" "p-1/t0/a.pdf" on_disk Fixtures.acme_disk =
     Api.Forbidden403 "File not authorized for this task") ∧
  Api.get_evidence "p-1" "t0" "p-1/t0/a.pdf" true
    (Session.run "p-1" Fixtures.acme_disk Fixtures.two_requests) =
    Api.FileSent200 "p-1/t0/a.pdf".
Proof.
  split.
  - intros on_disk.
    eapply (proj2 (only_listed_files_are_served "p-1" "t0" "p-1/t0/a.pdf"
                     on_disk Fixtures.acme_disk)).
    + by eexists.
    + vm_compute. reflexivity.
    + simpl. apply not_elem_of_nil.
  - apply (proj1 (only_listed_files_are_served "p-1" "t0" "p-1/t0/a.pdf"
                    true (Session.run "p-1" Fixtures.acme_disk
                            Fixtures.two_requests))).
    split; [by eexists|]. split; [done|].
    eexists _, _, _, _. split; [vm_compute; reflexivity|].
    apply elem_of_cons. by left.
Defined.

(** A name of blanks and a tab, and the name 'Acme' behind two blanks. *)
Lemma validate_name_acme :
  let tab := String (Ascii.ascii_of_N 9) EmptyString in
  Project.validate
    (JSString.Str (foldr String.append EmptyString [" "; tab; " "])) =
    JS.Thrown "Project name is required and must be a non-empty string" ∧
  JSString.visible (Ascii.ascii_of_N 65) ∧
  Project.validate
    (JSString.Str ("  " ++ String (Ascii.ascii_of_N 65) "cme")%string) =
    JS.Returned true.
Proof.
  intros tab.
  destruct validate_name as (_ & Hblank & Hvis).
  assert (Hv : JSString.visible (Ascii.ascii_of_N 65)).
  { unfold JSString.visible. vm_compute. split; discriminate. }
  split; [|split; [exact Hv|exact (Hvis "  " _ "cme" Hv)]].
  apply Hblank.
  repeat (apply Forall_cons; split;
          [apply list_elem_of_In; vm_compute; tauto|]).
  apply Forall_nil_2.
Defined.
